(** * Verification of the options backtester (algo-options)

    A shallow embedding of the simulation core of the repository:

    - [AdaptiveConfig]  scripts/strategies/adaptive_config.py
    - [Pricing]         scripts/quantitative/black_scholes.py, utils.py
    - [Scorer]          OpportunityScorer in scripts/strategies/backtester_multi.py
    - [MarketData]      MarketDataLoader in scripts/strategies/backtester_multi.py
    - [Engine]          BacktestEngine in scripts/strategies/backtester_multi.py
    - [IronCondorScan]  scripts/strategies/iron_condor.py, filters.py

    Numbers.  Python floats that carry prices, strikes, premiums and cash are
    embedded as exact rationals [Q]: every finite float is a rational, and
    the engine only adds, subtracts, multiplies, divides and compares them.
    Rounding is therefore left out of the engine model.  The pricing model,
    which needs [log], [exp], [sqrt] and the normal distribution, is written
    over an abstract arithmetic interface instead ([Pricing.FloatOps]).
    Dates are day numbers in [Z]; instruments are [string]s. *)

From Stdlib Require Import ZArith QArith Qabs List String Bool Lia.
From Stdlib Require Import Permutation Sorted.
From Stdlib Require Import Reals Lra Lqa.
From stdpp Require Import base option gmap strings.
Import ListNotations.

Local Open Scope Q_scope.

(** Linear arithmetic over [Q] and over [R]: both libraries name their tactic
    [lra], so each gets a name of its own here. *)
Ltac qlra := Lqa.lra.
Ltac rlra := Lra.lra.

(** [Lqa.lra] does not read a division, not even by a literal: turn every
    [x / c] with [c] a literal into a product first. *)
Ltac qdiv_literals :=
  unfold Qdiv in *;
  repeat match goal with
    | |- context [Qinv (Qmake ?n ?d)] =>
        is_ground n; is_ground d;
        let v := eval cbv in (Qinv (Qmake n d)) in
        change (Qinv (Qmake n d)) with v
    | H : context [Qinv (Qmake ?n ?d)] |- _ =>
        is_ground n; is_ground d;
        let v := eval cbv in (Qinv (Qmake n d)) in
        change (Qinv (Qmake n d)) with v in H
    end.
Ltac qarith := qdiv_literals; qlra.

(* ===================================================================== *)
(** * Data model shared by the components                                 *)
(* ===================================================================== *)

Inductive OptionType := call | put.
Inductive Side := short | long.

(** A leg dict of [Position.legs].  [contracts] is 1 in every leg the
    strategies build; the covered call also stores the option's gamma, theta
    and vega in its leg, the Iron Condor does not. *)
Record Leg := mkLeg {
  leg_type : OptionType;
  leg_strike : Q;
  leg_position : Side;
  leg_price : Q;
  leg_delta : Q;
  leg_more : option (Q * Q * Q)
}.

(** The [status] attribute the engine sets on a position when it closes it;
    [open] stands for a position that has none yet. *)
Inductive Status :=
| open | closed_profit | closed_loss | closed_end
| expired_profitable | expired_loss.

(** [base.Position], with the attributes the engine adds to the object
    ([ticker], [status], [pnl], [exit_value], [days_held]).  The declared
    fields [is_open], [current_value], [current_pnl] and [exit_reason] keep
    their defaults throughout a run and are left out. *)
Record Position := mkPosition {
  strategy_name : string;
  entry_date : Z;
  expiration_date : Z;
  dte_at_entry : Z;
  underlying : string;
  underlying_price_entry : Q;
  legs : list Leg;
  premium_collected : Q;
  max_risk : Q;
  net_delta : Q;
  net_gamma : Q;
  net_theta : Q;
  net_vega : Q;
  profit_target : Q;
  stop_loss : Q;
  exit_date : option Z;
  (* attributes set by the engine *)
  ticker : string;
  status : Status;
  pnl : option Q;
  exit_value : option Q;
  days_held : option Z
}.

(** ** Python's arithmetic helpers on rationals *)

Definition Qlt_bool (x y : Q) : bool := negb (Qle_bool y x).

(** [min(x, y)] and [max(x, y)] of Python: the first argument wins a tie. *)
Definition py_min (x y : Q) : Q := if Qlt_bool y x then y else x.
Definition py_max (x y : Q) : Q := if Qlt_bool x y then y else x.

Lemma Qlt_bool_iff x y : Qlt_bool x y = true <-> x < y.
Proof.
  unfold Qlt_bool. rewrite negb_true_iff. split.
  - intros H. apply Qnot_le_lt. intros Hle.
    apply Qle_bool_iff in Hle. congruence.
  - intros H. destruct (Qle_bool y x) eqn:E; [|reflexivity].
    apply Qle_bool_iff in E. exfalso. apply (Qlt_not_le _ _ H E).
Qed.

Lemma Qlt_bool_false_iff x y : Qlt_bool x y = false <-> y <= x.
Proof.
  unfold Qlt_bool. rewrite negb_false_iff. apply Qle_bool_iff.
Qed.

Lemma py_min_spec x y :
  (y < x /\ py_min x y = y) \/ (x <= y /\ py_min x y = x).
Proof.
  unfold py_min. destruct (Qlt_bool y x) eqn:E.
  - left. split; [now apply Qlt_bool_iff | reflexivity].
  - right. split; [now apply Qlt_bool_false_iff | reflexivity].
Qed.

Lemma py_max_spec x y :
  (x < y /\ py_max x y = y) \/ (y <= x /\ py_max x y = x).
Proof.
  unfold py_max. destruct (Qlt_bool x y) eqn:E.
  - left. split; [now apply Qlt_bool_iff | reflexivity].
  - right. split; [now apply Qlt_bool_false_iff | reflexivity].
Qed.

(** ** Sorting and the median of a column *)

Fixpoint insert_sorted (x : Q) (l : list Q) : list Q :=
  match l with
  | [] => [x]
  | y :: l' => if Qle_bool x y then x :: l else y :: insert_sorted x l'
  end.

Definition sort_values (l : list Q) : list Q := fold_right insert_sorted [] l.

(** [Series.median()]: the middle value of the sorted column, or the mean of
    the two middle values; no value (NaN) on an empty column. *)
Definition median (l : list Q) : option Q :=
  let s := sort_values l in
  let n := List.length s in
  match n with
  | O => None
  | _ =>
      if Nat.even n
      then match nth_error s (n / 2 - 1), nth_error s (n / 2) with
           | Some a, Some b => Some ((a + b) / 2)
           | _, _ => None
           end
      else nth_error s (n / 2)
  end.

Lemma insert_sorted_length x l :
  List.length (insert_sorted x l) = S (List.length l).
Proof.
  induction l as [|y l IH]; simpl; [reflexivity|].
  destruct (Qle_bool x y); simpl; [reflexivity | now rewrite IH].
Qed.

Lemma sort_values_length l : List.length (sort_values l) = List.length l.
Proof.
  induction l as [|x l IH]; simpl; [reflexivity|].
  unfold sort_values in *. simpl. now rewrite insert_sorted_length, IH.
Qed.

(** The median of a column that has a row is a number. *)
Lemma median_is_some l : l <> [] -> exists m, median l = Some m.
Proof.
  intros Hl. unfold median.
  pose proof (sort_values_length l) as Hlen.
  set (s := sort_values l) in *.
  destruct l as [|x l]; [congruence|]. simpl in Hlen.
  set (n := List.length s) in *.
  destruct n as [|k] eqn:En; [discriminate|].
  pose proof (Nat.div_mod_eq (S k) 2) as Hdm.
  pose proof (Nat.mod_upper_bound (S k) 2 ltac:(lia)) as Hmod.
  assert (H2 : (S k / 2 < List.length s)%nat) by (fold n; lia).
  assert (H1 : (S k / 2 - 1 < List.length s)%nat) by lia.
  apply List.nth_error_Some in H1, H2.
  destruct (nth_error s (S k / 2 - 1)) as [a|]; [|congruence].
  destruct (nth_error s (S k / 2)) as [b|]; [|congruence].
  destruct (Nat.even (S k)); eauto.
Qed.

(** ** Sorting rows by a key, highest first

    [list.sort(key=..., reverse=True)] and
    [DataFrame.sort_values(..., ascending=False)], written as a stable
    insertion: rows of equal key keep their order (Python's sort is stable;
    pandas leaves the order of equal keys open). *)

Section SortDescending.

Context {A : Type} (key : A -> Q).

Fixpoint insert_desc (c : A) (l : list A) : list A :=
  match l with
  | [] => [c]
  | x :: l' => if Qle_bool (key x) (key c) then c :: l else x :: insert_desc c l'
  end.

Definition sort_desc (l : list A) : list A := fold_right insert_desc [] l.

(** [b] does not rank above [a]. *)
Definition ranks_before (a b : A) : Prop := key b <= key a.

Lemma insert_desc_perm c l : Permutation (c :: l) (insert_desc c l).
Proof.
  induction l as [|x l IH]; simpl; [reflexivity|].
  destruct (Qle_bool (key x) (key c)); [reflexivity|].
  rewrite perm_swap. now apply perm_skip.
Qed.

Lemma sort_desc_perm l : Permutation l (sort_desc l).
Proof.
  induction l as [|c l IH]; simpl; [reflexivity|].
  rewrite <- insert_desc_perm. now apply perm_skip.
Qed.

Lemma insert_desc_Forall (P : A -> Prop) c l :
  P c -> Forall P l -> Forall P (insert_desc c l).
Proof.
  intros Hc Hl. induction Hl as [|x l Hx Hl IH]; simpl.
  - constructor; [exact Hc | constructor].
  - destruct (Qle_bool (key x) (key c)); repeat constructor; assumption.
Qed.

Lemma insert_desc_sorted c l :
  StronglySorted ranks_before l -> StronglySorted ranks_before (insert_desc c l).
Proof.
  induction 1 as [|x l Hs IH Hx]; simpl.
  - repeat constructor.
  - destruct (Qle_bool (key x) (key c)) eqn:E.
    + apply Qle_bool_iff in E. constructor; [constructor; assumption|].
      constructor; [exact E|].
      eapply Forall_impl; [exact Hx|].
      unfold ranks_before. intros y Hy. simpl in Hy. qlra.
    + constructor; [exact IH|].
      apply insert_desc_Forall; [|exact Hx].
      unfold ranks_before.
      destruct (Qlt_le_dec (key c) (key x)) as [H|H].
      * qlra.
      * apply Qle_bool_iff in H. congruence.
Qed.

Lemma sort_desc_sorted l : StronglySorted ranks_before (sort_desc l).
Proof.
  induction l as [|c l IH]; simpl; [constructor|].
  now apply insert_desc_sorted.
Qed.

End SortDescending.

(* ===================================================================== *)
(** * Adaptive risk parameters (adaptive_config.py)                       *)
(* ===================================================================== *)

Module AdaptiveConfig.

Inductive VolatilityCategory := HIGH | MEDIUM | LOW.
Inductive AssetType := ETF | TECH | COMMODITY.

Record TickerParameters := mkTickerParameters {
  ticker : string;
  asset_type : AssetType;
  volatility_category : VolatilityCategory;
  profit_target_pct : Q;
  stop_loss_pct : Q;
  dte_min : Z;
  dte_max : Z;
  reasoning : string
}.

(** An entry of [VOLATILITY_CONFIGS]. *)
Record VolConfig := mkVolConfig {
  vc_profit_target_pct : Q;
  vc_stop_loss_pct : Q;
  vc_reasoning : string
}.

(** An entry of [DTE_CONFIGS]. *)
Record DteConfig := mkDteConfig {
  dc_dte_min : Z;
  dc_dte_max : Z;
  dc_reasoning : string
}.

(** An entry of [TICKER_OVERRIDES]: a dict in which each key may be absent. *)
Record Override := mkOverride {
  ov_profit_target_pct : option Q;
  ov_stop_loss_pct : option Q;
  ov_reasoning_override : option string
}.

(** [VOLATILITY_CONFIGS] and [DTE_CONFIGS] are dicts keyed by every member of
    an enum, so the lookup is a total function. *)
Definition VOLATILITY_CONFIGS (v : VolatilityCategory) : VolConfig :=
  match v with
  | HIGH => mkVolConfig 25 200
      "Alta volatilidad → cerrar rápido para capturar theta, stop loss amplio anti-whipsaw"
  | MEDIUM => mkVolConfig 35 150
      "Volatilidad media → balance entre theta y protección"
  | LOW => mkVolConfig 50 100
      "Baja volatilidad → permitir mayor decay de theta, stop loss ajustado"
  end.

Definition DTE_CONFIGS (a : AssetType) : DteConfig :=
  match a with
  | ETF => mkDteConfig 49 56
      "ETF → Long DTE (49-56) para estabilidad y aprovechar theta decay gradual"
  | TECH => mkDteConfig 42 49
      "Tech → Medium-Long DTE (42-49) para capturar ciclos de volatilidad"
  | COMMODITY => mkDteConfig 56 60
      "Commodity → Extra Long DTE (56-60) para aprovechar tendencias largas"
  end.

Definition TICKER_CLASSIFICATIONS_items : list (string * (AssetType * VolatilityCategory)) :=
  [ ("SPY", (ETF, MEDIUM)); ("QQQ", (ETF, MEDIUM)); ("IWM", (ETF, HIGH));
    ("AAPL", (TECH, HIGH)); ("MSFT", (TECH, HIGH)); ("AMZN", (TECH, HIGH));
    ("NVDA", (TECH, HIGH)); ("TSLA", (TECH, HIGH));
    ("GLD", (COMMODITY, HIGH)); ("SLV", (COMMODITY, HIGH)) ]%string.

Definition TICKER_CLASSIFICATIONS : gmap string (AssetType * VolatilityCategory) :=
  list_to_map TICKER_CLASSIFICATIONS_items.

Definition TICKER_OVERRIDES : gmap string Override :=
  list_to_map
    [ ("TSLA", mkOverride (Some 20) None
         (Some "TSLA → Profit target ultra-agresivo (75% early closures observados)"));
      ("QQQ", mkOverride (Some 30) None
         (Some "QQQ → Ajustado por 71.4% early closure rate"));
      ("SPY", mkOverride (Some 30) None
         (Some "SPY → Ajustado por 71.4% early closure rate")) ]%string.

Section Tables.

(** The two class-level tables the lookup reads, kept as parameters so that
    the lemmas below hold for any override table. *)
Variable classifications : gmap string (AssetType * VolatilityCategory).
Variable overrides : gmap string Override.

(** The note a ticker that is not classified starts with. *)
Definition unknown_note (t : string) : string :=
  (t ++ " → Ticker desconocido, usando configuración conservadora")%string.

(** [AdaptiveConfigManager._build_config]. *)
Definition build_config_with (t : string) : TickerParameters :=
  let '(asset, vol, reasoning0) :=
    match classifications !! t with
    | None => (ETF, MEDIUM, unknown_note t)
    | Some (a, v) => (a, v, EmptyString)
    end in
  let vol_config := VOLATILITY_CONFIGS vol in
  let profit_target := vc_profit_target_pct vol_config in
  let stop_loss := vc_stop_loss_pct vol_config in
  let reasoning1 := (reasoning0 ++ vc_reasoning vol_config)%string in
  let dte_config := DTE_CONFIGS asset in
  let reasoning2 := (reasoning1 ++ " | " ++ dc_reasoning dte_config)%string in
  let '(profit_target', stop_loss', reasoning3) :=
    match overrides !! t with
    | None => (profit_target, stop_loss, reasoning2)
    | Some o =>
        (default profit_target (ov_profit_target_pct o),
         default stop_loss (ov_stop_loss_pct o),
         match ov_reasoning_override o with
         | Some r => (r ++ " | " ++ reasoning2)%string
         | None => reasoning2
         end)
    end in
  mkTickerParameters t asset vol profit_target' stop_loss'
    (dc_dte_min dte_config) (dc_dte_max dte_config) reasoning3.

End Tables.

(** [_build_config] on the tables of the class. *)
Definition _build_config : string -> TickerParameters :=
  build_config_with TICKER_CLASSIFICATIONS TICKER_OVERRIDES.

(** The manager's only state is [_config_cache], a map from tickers to
    their parameters.  [_load_all_configs], run by [__init__]: one entry per classified ticker,
    in the order of the table. *)
Definition _load_all_configs (c : gmap string TickerParameters) : gmap string TickerParameters :=
  fold_left (fun acc kv => <[kv.1 := _build_config kv.1]> acc)
            TICKER_CLASSIFICATIONS_items c.

Definition init_cache : gmap string TickerParameters := _load_all_configs ∅.

(** [get_config]: returns the cached entry, building it first when absent.
    The result is the value returned and the cache afterwards. *)
Definition get_config (c : gmap string TickerParameters) (t : string)
  : TickerParameters * gmap string TickerParameters :=
  match c !! t with
  | Some p => (p, c)
  | None => let p := _build_config t in (p, <[t := p]> c)
  end.

(** The cache after a sequence of lookups, starting from a fresh manager. *)
Definition after_lookups (ts : list string) : gmap string TickerParameters :=
  fold_left (fun c t => (get_config c t).2) ts init_cache.

Definition get_dte_range (c : gmap string TickerParameters) (t : string) : Z * Z :=
  let p := (get_config c t).1 in (dte_min p, dte_max p).

Definition get_profit_target (c : gmap string TickerParameters) (t : string)
  (premium_collected : Q) : Q :=
  premium_collected * (profit_target_pct (get_config c t).1 / 100).

Definition get_stop_loss (c : gmap string TickerParameters) (t : string)
  (max_risk : Q) : Q :=
  Qabs max_risk * (stop_loss_pct (get_config c t).1 / 100).

(** Every cached entry is what [_build_config] returns for its key. *)
Definition cache_ok (c : gmap string TickerParameters) : Prop :=
  forall t p, c !! t = Some p -> p = _build_config t.

Lemma cache_ok_empty : cache_ok ∅.
Proof. intros t p H. rewrite lookup_empty in H. discriminate. Qed.

Lemma cache_ok_insert c t :
  cache_ok c -> cache_ok (<[t := _build_config t]> c).
Proof.
  intros Hc t' p. destruct (decide (t = t')) as [->|Hne].
  - rewrite lookup_insert_eq. congruence.
  - rewrite lookup_insert_ne by done. apply Hc.
Qed.

Lemma cache_ok_load c : cache_ok c -> cache_ok (_load_all_configs c).
Proof.
  unfold _load_all_configs. generalize TICKER_CLASSIFICATIONS_items.
  intros l. revert c. induction l as [|[k v] l IH]; intros c Hc; simpl.
  - exact Hc.
  - apply IH. now apply cache_ok_insert.
Qed.

Lemma get_config_ok c t :
  cache_ok c ->
  (get_config c t).1 = _build_config t /\ cache_ok (get_config c t).2.
Proof.
  intros Hc. unfold get_config. destruct (c !! t) as [p|] eqn:E; simpl.
  - split; [now apply Hc | exact Hc].
  - split; [reflexivity | now apply cache_ok_insert].
Qed.

Lemma after_lookups_ok ts : cache_ok (after_lookups ts).
Proof.
  unfold after_lookups.
  assert (H : cache_ok init_cache) by (apply cache_ok_load, cache_ok_empty).
  revert H. generalize init_cache. induction ts as [|t ts IH]; intros c Hc; simpl.
  - exact Hc.
  - apply IH. now apply get_config_ok.
Qed.

(** An override replaces the base value of the category, whatever the tables. *)
Lemma override_replaces cls ovs t o :
  ovs !! t = Some o ->
  profit_target_pct (build_config_with cls ovs t)
    = default (vc_profit_target_pct
                 (VOLATILITY_CONFIGS (volatility_category (build_config_with cls ovs t))))
              (ov_profit_target_pct o)
  /\ stop_loss_pct (build_config_with cls ovs t)
    = default (vc_stop_loss_pct
                 (VOLATILITY_CONFIGS (volatility_category (build_config_with cls ovs t))))
              (ov_stop_loss_pct o).
Proof.
  intros Ho. unfold build_config_with. rewrite Ho.
  destruct (cls !! t) as [[a v]|]; simpl; split; reflexivity.
Qed.

Lemma overrides_are_classified t o :
  TICKER_OVERRIDES !! t = Some o -> is_Some (TICKER_CLASSIFICATIONS !! t).
Proof.
  intros H.
  destruct (decide (t = "TSLA"%string)) as [->|H1]; [vm_compute; eauto|].
  destruct (decide (t = "QQQ"%string)) as [->|H2]; [vm_compute; eauto|].
  destruct (decide (t = "SPY"%string)) as [->|H3]; [vm_compute; eauto|].
  exfalso. unfold TICKER_OVERRIDES in H. simpl in H.
  rewrite !lookup_insert_ne in H by done. rewrite lookup_empty in H. discriminate.
Qed.

Lemma unknown_has_no_override t :
  TICKER_CLASSIFICATIONS !! t = None -> TICKER_OVERRIDES !! t = None.
Proof.
  intros Hc. destruct (TICKER_OVERRIDES !! t) as [o|] eqn:Ho; [|reflexivity].
  apply overrides_are_classified in Ho. rewrite Hc in Ho. now destruct Ho.
Qed.

(** C9.  The adaptive parameter lookup is a pure function of the instrument:
    whatever lookups a fresh manager has already served, [get_config t]
    returns the record [_build_config t], hence the same profit-target %,
    stop-loss % and DTE window at every call.  An instrument outside the
    classification table gets the (ETF, medium volatility) defaults, 35 % /
    150 % / 49-56 days, and a reasoning text that opens with the
    unknown-ticker note.  An instrument-specific override is the value
    returned: it replaces the base value of the category. *)
Theorem adaptive_lookup_is_pure (t : string) :
  (forall ts1 ts2 : list string,
      (get_config (after_lookups ts1) t).1 = (get_config (after_lookups ts2) t).1
      /\ (get_config (after_lookups ts1) t).1 = _build_config t)
  /\ (TICKER_CLASSIFICATIONS !! t = None ->
      _build_config t =
        mkTickerParameters t ETF MEDIUM 35 150 49 56
          ((unknown_note t ++ vc_reasoning (VOLATILITY_CONFIGS MEDIUM))
             ++ " | " ++ dc_reasoning (DTE_CONFIGS ETF))%string)
  /\ (forall o : Override, TICKER_OVERRIDES !! t = Some o ->
      (forall v, ov_profit_target_pct o = Some v ->
                 profit_target_pct (_build_config t) = v)
      /\ (forall v, ov_stop_loss_pct o = Some v ->
                    stop_loss_pct (_build_config t) = v)).
Proof.
  split; [|split].
  - intros ts1 ts2.
    destruct (get_config_ok (after_lookups ts1) t (after_lookups_ok ts1)) as [E1 _].
    destruct (get_config_ok (after_lookups ts2) t (after_lookups_ok ts2)) as [E2 _].
    split; congruence.
  - intros Hc. unfold _build_config, build_config_with.
    rewrite Hc, (unknown_has_no_override t Hc). reflexivity.
  - intros o Ho.
    destruct (override_replaces TICKER_CLASSIFICATIONS TICKER_OVERRIDES t o Ho) as [Hp Hs].
    fold _build_config in Hp, Hs.
    split; intros v Hv; [rewrite Hp | rewrite Hs]; rewrite Hv; reflexivity.
Qed.

(** The theorem at an unclassified symbol and at an overridden one. *)
Lemma adaptive_lookup_is_pure_witness :
  profit_target_pct (_build_config "XYZ") = 35
  /\ stop_loss_pct (_build_config "XYZ") = 150
  /\ profit_target_pct (_build_config "TSLA") = 20
  /\ (get_config (after_lookups ["TSLA"; "XYZ"]) "XYZ").1
     = (get_config (after_lookups []) "XYZ").1.
Proof.
  pose proof (adaptive_lookup_is_pure "XYZ") as [Hpure [Hunknown _]].
  pose proof (adaptive_lookup_is_pure "TSLA") as [_ [_ Hover]].
  rewrite (Hunknown eq_refl).
  destruct (Hover (mkOverride (Some 20) None
     (Some "TSLA → Profit target ultra-agresivo (75% early closures observados)"))
     eq_refl) as [Hpt _].
  split; [reflexivity|]. split; [reflexivity|].
  split; [apply Hpt; reflexivity |].
  exact (proj1 (Hpure ["TSLA"; "XYZ"]%string [])).
Defined.

End AdaptiveConfig.

(* ===================================================================== *)
(** * Pricing model (quantitative/black_scholes.py, quantitative/utils.py) *)
(* ===================================================================== *)

Module Pricing.

(** The arithmetic the pricing code runs on.  The source computes in binary64
    with numpy and scipy; the functions below are written against this
    interface, so what is proved of them holds for every implementation of
    the operations, rounding or exact.  One operation of the source can
    raise: [sigma ** 2] is Python's power of two floats, which raises
    [OverflowError] when the result is out of range; the other operations
    return a float (an infinity or a NaN at worst). *)
Class FloatOps (F : Type) := {
  lit : Q -> F;                (* a numeric literal *)
  fadd : F -> F -> F;
  fsub : F -> F -> F;
  fmul : F -> F -> F;
  fdiv : F -> F -> F;
  fneg : F -> F;
  fpow : F -> F -> option F;   (* the operator **; None: OverflowError *)
  flog : F -> F;               (* np.log *)
  fexp : F -> F;               (* np.exp *)
  fsqrt : F -> F;              (* np.sqrt *)
  norm_cdf : F -> F;           (* scipy.stats.norm.cdf *)
  norm_pdf : F -> F;           (* scipy.stats.norm.pdf *)
  fle : F -> F -> bool;        (* <= *)
  flt : F -> F -> bool         (* < *)
}.

(** Which check of [validate_inputs] raised the [ValueError]. *)
Inductive InvalidInput := BadSpot | BadStrike | BadTime | BadVolatility | BadRate.

(** What the pricing functions raise. *)
Inductive Exception :=
| ValueError (e : InvalidInput)
| OverflowError.

Inductive result (A : Type) :=
| Ok (a : A)
| Raise (e : Exception).
Arguments Ok {A} a.
Arguments Raise {A} e.

(** Sequencing: an exception raised by the first call ends the computation. *)
#[export] Instance result_bind : MBind result := fun A B k m =>
  match m with Ok a => k a | Raise e => Raise e end.

Record Greeks (F : Type) := mkGreeks {
  delta : F; gamma : F; vega : F; theta : F; rho : F
}.
Arguments mkGreeks {F}.
Arguments delta {F}. Arguments gamma {F}. Arguments vega {F}.
Arguments theta {F}. Arguments rho {F}.

(** The dict [calculate_greeks] returns: one entry per option type. *)
Record GreeksTable (F : Type) := mkGreeksTable {
  greeks_call : Greeks F;
  greeks_put : Greeks F
}.
Arguments mkGreeksTable {F}.
Arguments greeks_call {F}. Arguments greeks_put {F}.

Section Model.

Context {F : Type} `{FloatOps F}.

Local Infix "+." := fadd (at level 50, left associativity).
Local Infix "-." := fsub (at level 50, left associativity).
Local Infix "*." := fmul (at level 40, left associativity).
Local Infix "/." := fdiv (at level 40, left associativity).

(** [utils.validate_inputs]: the checks in the order of the source. *)
Definition validate_inputs (S K T r sigma : F) : result unit :=
  if fle S (lit 0) then Raise (ValueError BadSpot)
  else if fle K (lit 0) then Raise (ValueError BadStrike)
  else if fle T (lit 0) then Raise (ValueError BadTime)
  else if fle sigma (lit 0) then Raise (ValueError BadVolatility)
  else if flt r (fneg (lit 1)) || flt (lit 1) r then Raise (ValueError BadRate)
  else Ok tt.

(** [x ** y]. *)
Definition power (x y : F) : result F :=
  match fpow x y with
  | Some v => Ok v
  | None => Raise OverflowError
  end.

(** [calculate_d1_d2]. *)
Definition calculate_d1_d2 (S K T r sigma : F) : result (F * F) :=
  _ ← validate_inputs S K T r sigma;
  sigma_squared ← power sigma (lit 2);
  let d1 := (flog (S /. K) +. (r +. lit (1#2) *. sigma_squared) *. T)
              /. (sigma *. fsqrt T) in
  let d2 := d1 -. sigma *. fsqrt T in
  Ok (d1, d2).

(** [black_scholes_price].  The option type is an enumeration here, so the
    source's check that it is 'call' or 'put' cannot fail. *)
Definition black_scholes_price (S K T r sigma : F) (option_type : OptionType)
  : result F :=
  _ ← validate_inputs S K T r sigma;
  '(d1, d2) ← calculate_d1_d2 S K T r sigma;
  let discount_factor := fexp (fneg r *. T) in
  match option_type with
  | call => Ok (S *. norm_cdf d1 -. K *. discount_factor *. norm_cdf d2)
  | put => Ok (K *. discount_factor *. norm_cdf (fneg d2) -. S *. norm_cdf (fneg d1))
  end.

(** [calculate_greeks]. *)
Definition calculate_greeks (S K T r sigma : F) : result (GreeksTable F) :=
  _ ← validate_inputs S K T r sigma;
  '(d1, d2) ← calculate_d1_d2 S K T r sigma;
  let sqrt_T := fsqrt T in
  let discount_factor := fexp (fneg r *. T) in
  let pdf_d1 := norm_pdf d1 in
  let delta_call := norm_cdf d1 in
  let delta_put := delta_call -. lit 1 in
  let gamma := pdf_d1 /. (S *. sigma *. sqrt_T) in
  let vega := S *. pdf_d1 *. sqrt_T /. lit 100 in
  let theta_common := fneg (S *. pdf_d1 *. sigma) /. (lit 2 *. sqrt_T) in
  let theta_call :=
    (theta_common -. r *. K *. discount_factor *. norm_cdf d2) /. lit 365 in
  let theta_put :=
    (theta_common +. r *. K *. discount_factor *. norm_cdf (fneg d2)) /. lit 365 in
  let rho_call := (K *. T *. discount_factor *. norm_cdf d2) /. lit 100 in
  let rho_put := (fneg K *. T *. discount_factor *. norm_cdf (fneg d2)) /. lit 100 in
  Ok (mkGreeksTable
        (mkGreeks delta_call gamma vega theta_call rho_call)
        (mkGreeks delta_put gamma vega theta_put rho_put)).

Lemma calculate_d1_d2_valid S K T r sigma v :
  validate_inputs S K T r sigma = Ok tt ->
  fpow sigma (lit 2) = Some v ->
  exists d1 d2, calculate_d1_d2 S K T r sigma = Ok (d1, d2).
Proof.
  intros Hv Hp. unfold calculate_d1_d2, power. rewrite Hv, Hp. simpl. eauto.
Qed.

Lemma calculate_d1_d2_overflow S K T r sigma :
  validate_inputs S K T r sigma = Ok tt ->
  fpow sigma (lit 2) = None ->
  calculate_d1_d2 S K T r sigma = Raise OverflowError.
Proof.
  intros Hv Hp. unfold calculate_d1_d2, power. rewrite Hv, Hp. reflexivity.
Qed.

Lemma calculate_greeks_invalid S K T r sigma e :
  validate_inputs S K T r sigma = Raise e ->
  calculate_greeks S K T r sigma = Raise e.
Proof. intros Hv. unfold calculate_greeks. rewrite Hv. reflexivity. Qed.

(** C10, as the code has it.  On a valid input (spot, strike, time and
    volatility positive, rate within [-1, 1]: the inputs [validate_inputs]
    lets through) [calculate_greeks] raises [OverflowError] when
    [sigma ** 2] is out of range, and returns no table then.  On every
    other valid input it returns a table, and in it the put's gamma is the
    call's gamma, the put's vega is the call's vega, and the put's delta is
    the call's delta minus 1, whatever the arithmetic of the interface
    does. *)
Theorem greeks_call_put_relations (S K T r sigma : F) :
  validate_inputs S K T r sigma = Ok tt ->
  match fpow sigma (lit 2) with
  | None => calculate_greeks S K T r sigma = Raise OverflowError
  | Some _ =>
      exists g : GreeksTable F,
        calculate_greeks S K T r sigma = Ok g
        /\ gamma (greeks_put g) = gamma (greeks_call g)
        /\ vega (greeks_put g) = vega (greeks_call g)
        /\ delta (greeks_put g) = delta (greeks_call g) -. lit 1
  end.
Proof.
  intros Hv. destruct (fpow sigma (lit 2)) as [v|] eqn:Hp.
  - destruct (calculate_d1_d2_valid S K T r sigma v Hv Hp) as (d1 & d2 & Hd).
    unfold calculate_greeks. rewrite Hv, Hd. simpl.
    eexists. split; [reflexivity|]. simpl. repeat split.
  - unfold calculate_greeks.
    rewrite Hv, (calculate_d1_d2_overflow S K T r sigma Hv Hp). reflexivity.
Qed.

End Model.

(** ** Exact real arithmetic as an instance *)

Section Reals.

Local Open Scope R_scope.

(** The density of the standard normal distribution. *)
Definition std_normal_pdf (x : R) : R := / sqrt (2 * PI) * exp (- (x * x) / 2).

Lemma std_normal_pdf_continuity : continuity std_normal_pdf.
Proof. unfold std_normal_pdf. reg. Qed.

Definition std_normal_integrable (a b : R) : Riemann_integrable std_normal_pdf a b.
Proof.
  destruct (Rle_dec a b) as [Hab|Hab].
  - apply continuity_implies_RiemannInt;
      [exact Hab | intros x _; apply std_normal_pdf_continuity].
  - apply RiemannInt_P1. apply continuity_implies_RiemannInt;
      [rlra | intros x _; apply std_normal_pdf_continuity].
Defined.

(** The distribution function, as one half plus the integral of the density
    from 0. *)
Definition std_normal_cdf (x : R) : R :=
  1 / 2 + RiemannInt (std_normal_integrable 0 x).

(** The interface over [R], for a given distribution and density function.
    No real power is out of range: [**] never raises here. *)
Definition real_ops (cdf pdf : R -> R) : FloatOps R := {|
  lit := Q2R;
  fadd := Rplus; fsub := Rminus; fmul := Rmult; fdiv := Rdiv; fneg := Ropp;
  fpow := fun x y => Some (Rpower x y); flog := ln; fexp := exp; fsqrt := sqrt;
  norm_cdf := cdf; norm_pdf := pdf;
  fle := fun a b => if Rle_dec a b then true else false;
  flt := fun a b => if Rlt_dec a b then true else false
|}.

Definition exact_ops : FloatOps R := real_ops std_normal_cdf std_normal_pdf.

Lemma validate_inputs_real cdf pdf (S K T r sigma : R) :
  0 < S -> 0 < K -> 0 < T -> 0 < sigma -> -1 <= r <= 1 ->
  @validate_inputs R (real_ops cdf pdf) S K T r sigma = Ok tt.
Proof.
  intros HS HK HT Hs [Hr1 Hr2]. unfold validate_inputs. simpl.
  replace (Q2R 0) with 0 by (unfold Q2R; simpl; rlra).
  replace (Q2R 1) with 1 by (unfold Q2R; simpl; rlra).
  repeat (destruct (Rle_dec _ _); [rlra|]).
  repeat (destruct (Rlt_dec _ _); [rlra|]).
  reflexivity.
Qed.

(** Put-call parity in exact real arithmetic: when the distribution function
    satisfies cdf(-x) = 1 - cdf(x), the call price minus the put price is
    spot - strike * exp(-rate * time), with no error at all.  This says
    nothing of the rounding of the binary64 computation the source runs. *)
Lemma put_call_parity_exact_reals cdf pdf (S K T r sigma : R) :
  (forall x, cdf (- x) = 1 - cdf x) ->
  0 < S -> 0 < K -> 0 < T -> 0 < sigma -> -1 <= r <= 1 ->
  exists c p,
    @black_scholes_price R (real_ops cdf pdf) S K T r sigma call = Ok c
    /\ @black_scholes_price R (real_ops cdf pdf) S K T r sigma put = Ok p
    /\ c - p = S - K * exp (- r * T).
Proof.
  intros Hsym HS HK HT Hs Hr.
  pose proof (validate_inputs_real cdf pdf S K T r sigma HS HK HT Hs Hr) as Hv.
  unfold black_scholes_price, calculate_d1_d2. rewrite Hv. simpl.
  do 2 eexists. split; [reflexivity|]. split; [reflexivity|].
  rewrite !Hsym. ring.
Qed.

End Reals.

(** The theorem on the at-the-money example of the source's docstring
    (S = K = 100, T = 1, r = 0.05, sigma = 0.2), in exact arithmetic. *)
Lemma greeks_call_put_relations_witness :
  exists g : GreeksTable R,
    @calculate_greeks R exact_ops 100%R 100%R 1%R (5 / 100)%R (2 / 10)%R = Ok g
    /\ gamma (greeks_put g) = gamma (greeks_call g)
    /\ vega (greeks_put g) = vega (greeks_call g)
    /\ delta (greeks_put g) = (delta (greeks_call g) - Q2R 1)%R.
Proof.
  apply (@greeks_call_put_relations R exact_ops).
  apply validate_inputs_real; rlra.
Defined.

(** ** The power of Python floats

    Every binary64 number is below 2^1024 in magnitude.  A power that is
    2^1024 or more has no float near it, and Python's [**] raises
    [OverflowError] for it.  The arithmetic below is the exact one, with
    that one behaviour of [**] added. *)

Definition binary64_limit : R := IZR (2 ^ 1024).

Definition python_pow (x y : R) : option R :=
  if Rle_dec binary64_limit (Rabs (Rpower x y)) then None else Some (Rpower x y).

Definition overflowing_ops : FloatOps R := {|
  lit := Q2R;
  fadd := Rplus; fsub := Rminus; fmul := Rmult; fdiv := Rdiv; fneg := Ropp;
  fpow := python_pow; flog := ln; fexp := exp; fsqrt := sqrt;
  norm_cdf := std_normal_cdf; norm_pdf := std_normal_pdf;
  fle := fun a b => if Rle_dec a b then true else false;
  flt := fun a b => if Rlt_dec a b then true else false
|}.

(** A volatility of 10^200: the float 1e200 is the binary64 number nearest
    to it, and is positive. *)
Definition huge_volatility : R := IZR (10 ^ 200).

Lemma huge_volatility_positive : (0 < huge_volatility)%R.
Proof. unfold huge_volatility. apply (IZR_lt 0). reflexivity. Qed.

Lemma huge_volatility_squared_overflows :
  @fpow R overflowing_ops huge_volatility (@lit R overflowing_ops 2) = None.
Proof.
  cbn [fpow lit overflowing_ops]. unfold python_pow.
  destruct (Rle_dec binary64_limit (Rabs (Rpower huge_volatility (Q2R 2))))
    as [_|Hn]; [reflexivity|].
  exfalso. apply Hn. clear Hn.
  replace (Q2R 2) with (INR 2) by (unfold Q2R; simpl; rlra).
  rewrite (Rpower_pow 2 _ huge_volatility_positive).
  pose proof huge_volatility_positive as Hpos.
  assert (Hsq : (huge_volatility ^ 2 = IZR (10 ^ 200 * 10 ^ 200))%R).
  { rewrite mult_IZR. unfold huge_volatility. simpl. ring. }
  rewrite Hsq.
  assert (Hle : (binary64_limit <= IZR (10 ^ 200 * 10 ^ 200))%R).
  { unfold binary64_limit. apply IZR_le. vm_compute. discriminate. }
  rewrite Rabs_right; [exact Hle|].
  apply Rle_ge. eapply Rle_trans; [|exact Hle].
  unfold binary64_limit. apply (IZR_le 0). vm_compute. discriminate.
Qed.

Lemma validate_inputs_overflowing (S K T r sigma : R) :
  (0 < S -> 0 < K -> 0 < T -> 0 < sigma -> -1 <= r <= 1 ->
   @validate_inputs R overflowing_ops S K T r sigma = Ok tt)%R.
Proof.
  intros HS HK HT Hs [Hr1 Hr2]. unfold validate_inputs. simpl.
  replace (Q2R 0) with 0%R by (unfold Q2R; simpl; rlra).
  replace (Q2R 1) with 1%R by (unfold Q2R; simpl; rlra).
  repeat (destruct (Rle_dec _ _); [rlra|]).
  repeat (destruct (Rlt_dec _ _); [rlra|]).
  reflexivity.
Qed.

(** C10 fails as stated: with spot and strike 100, one year, a rate of 5%
    and a volatility of 1e200, every check of [validate_inputs] passes, and
    [calculate_greeks] returns no table: [sigma ** 2] raises
    [OverflowError] in [calculate_d1_d2]. *)
Lemma greeks_overflow_on_valid_input :
  @validate_inputs R overflowing_ops 100%R 100%R 1%R (5 / 100)%R huge_volatility
  = Ok tt
  /\ @calculate_greeks R overflowing_ops 100%R 100%R 1%R (5 / 100)%R huge_volatility
     = Raise OverflowError
  /\ ~ exists g : GreeksTable R,
        @calculate_greeks R overflowing_ops 100%R 100%R 1%R (5 / 100)%R
          huge_volatility = Ok g.
Proof.
  assert (Hv : @validate_inputs R overflowing_ops 100%R 100%R 1%R (5 / 100)%R
                 huge_volatility = Ok tt).
  { apply validate_inputs_overflowing; try rlra. apply huge_volatility_positive. }
  assert (Hg : @calculate_greeks R overflowing_ops 100%R 100%R 1%R (5 / 100)%R
                 huge_volatility = Raise OverflowError).
  { unfold calculate_greeks. rewrite Hv.
    rewrite (@calculate_d1_d2_overflow R overflowing_ops _ _ _ _ _ Hv
               huge_volatility_squared_overflows).
    reflexivity. }
  split; [exact Hv|]. split; [exact Hg|].
  intros [g Hok]. rewrite Hg in Hok. discriminate.
Qed.

End Pricing.

(* ===================================================================== *)
(** * Opportunity scorer (OpportunityScorer, backtester_multi.py)         *)
(* ===================================================================== *)

Module Scorer.

(** What [getattr(opportunity, "<type>_volume", 100)] and
    [getattr(opportunity, "<type>_oi", 100)] can find in the scan row: each
    attribute may be missing. *)
Record Opportunity := mkOpportunity {
  call_volume : option Q;
  put_volume : option Q;
  call_oi : option Q;
  put_oi : option Q
}.

(** The [market_data] dict, as far as the scorer reads it. *)
Record MarketContext := mkMarketContext {
  iv_rank : option Q
}.

(** The six weighted terms of the sum. *)
Record Components := mkComponents {
  ror_score : Q;
  dte_score : Q;
  liquidity_score : Q;
  iv_score : Q;
  credit_score : Q;
  delta_score : Q
}.

(** The [metrics] dict returned next to the score. *)
Record Metrics := mkMetrics {
  m_ror : Q;
  m_dte : Z;
  m_liquidity_score : Q;
  m_iv_rank : Q;
  m_credit : Q;
  m_delta_quality : Q
}.

Definition leg_volume (o : Opportunity) (l : Leg) : Q :=
  default 100 (match leg_type l with call => call_volume o | put => put_volume o end).

Definition leg_oi (o : Opportunity) (l : Leg) : Q :=
  default 100 (match leg_type l with call => call_oi o | put => put_oi o end).

Definition sumQ (l : list Q) : Q := fold_left Qplus l 0.

Definition dte_bonus (dte : Z) : Q :=
  if ((42 <=? dte) && (dte <=? 56))%Z then 20 # 100
  else if (((36 <=? dte) && (dte <? 42)) || ((56 <? dte) && (dte <=? 60)))%Z then 17 # 100
  else if ((30 <=? dte) && (dte <? 36))%Z then 12 # 100
  else if ((22 <=? dte) && (dte <? 30))%Z then 8 # 100
  else 4 # 100.

(** The return on risk, [premium_collected / abs(max_risk) * 100]; the
    division raises [ZeroDivisionError] on a zero risk. *)
Definition return_on_risk (p : Position) : option Q :=
  if Qeq_bool (Qabs (max_risk p)) 0 then None
  else Some (premium_collected p / Qabs (max_risk p) * 100).

Definition average (total : Q) (count : nat) : Q :=
  match count with
  | O => 0
  | _ => total / inject_Z (Z.of_nat count)
  end.

(** The body of [calculate_quality_score] up to the six terms. *)
Definition score_components (o : Opportunity) (p : Position) (m : MarketContext)
  : option Components :=
  ror ← return_on_risk p;
  let ror_score := py_min (ror / 400) 1 * (45 # 100) in
  let dte_score := dte_bonus (dte_at_entry p) in
  let total_volume := sumQ (map (leg_volume o) (legs p)) in
  let total_oi := sumQ (map (leg_oi o) (legs p)) in
  let leg_count := List.length (legs p) in
  let avg_volume := average total_volume leg_count in
  let avg_oi := average total_oi leg_count in
  let volume_normalized := py_min (avg_volume / 100) 1 in
  let oi_normalized := py_min (avg_oi / 200) 1 in
  let liquidity_score := ((volume_normalized + oi_normalized) / 2) * (15 # 100) in
  let iv_rank := default 50 (iv_rank m) in
  let iv_score := (iv_rank / 100) * (10 # 100) in
  let credit := premium_collected p in
  let credit_score := py_min (credit / 500) 1 * (5 # 100) in
  let delta_score := 5 # 100 in
  Some (mkComponents ror_score dte_score liquidity_score iv_score
                     credit_score delta_score).

Definition total_score (c : Components) : Q :=
  ror_score c + dte_score c + liquidity_score c + iv_score c
  + credit_score c + delta_score c.

(** [OpportunityScorer.calculate_quality_score]: the score and the metrics. *)
Definition calculate_quality_score (o : Opportunity) (p : Position) (m : MarketContext)
  : option (Q * Metrics) :=
  c ← score_components o p m;
  ror ← return_on_risk p;
  Some (total_score c,
        mkMetrics ror (dte_at_entry p) (liquidity_score c * (667 # 100))
                  (default 50 (iv_rank m)) (premium_collected p)
                  (delta_score c * 20)).



(** A position and scan row for the examples: one short call. *)
Definition sample_position (premium risk : Q) (dte : Z) : Position :=
  mkPosition "Covered Call" 0 dte dte "UNKNOWN" 100
    [mkLeg call 105 short 2 (3 # 10) None]
    premium risk 0 0 0 0 0 0 None "SPY" open None None None.

Definition no_liquidity_columns : Opportunity := mkOpportunity None None None None.

(** A position entered for a debit: a call bought for $100, which is also
    what it can lose.  [premium_collected] is the signed credit, negative
    here (the case [StrategyBase.calculate_pnl] names "posición de débito"). *)
Definition long_call_position : Position :=
  mkPosition "Long Call" 0 45 45 "UNKNOWN" 100
    [mkLeg call 105 long 1 (3 # 10) None]
    (-100) 100 0 0 0 0 0 0 None "SPY" open None None None.












(** ** The candidates the engine scores

    The scorer has one caller, [_find_multi_ticker_opportunities], which
    scores the position that a strategy's [construct_position] built from a
    row of its [scan].  Three things hold of every such call:

    - [market_data['iv_rank']] is 70, set by the caller whether or not the
      rows of the day carry an IV;
    - the scan row has no attribute [call_volume], [put_volume], [call_oi]
      or [put_oi] (neither scan stores one), so [getattr] falls back on 100;
    - the premium of the position is the credit of the row times 100, and
      both scans drop the rows under a credit floor (0.60 for the Iron
      Condor, 0.25 for the covered call), so it is not negative. *)

Definition engine_market_data : MarketContext := mkMarketContext (Some 70).



(** Outside those candidates the terms can be negative: a position entered
    for a debit, which neither strategy builds, gets a negative
    return-on-risk term and a negative premium term. *)
Example debit_position_terms :
  exists c,
    score_components no_liquidity_columns long_call_position
                     (mkMarketContext (Some 70)) = Some c
    /\ ror_score c == - (1125 # 10000) /\ credit_score c == - (1 # 100)
    /\ total_score c == 31 # 100.
Proof. eexists. split; [reflexivity|]. vm_compute. repeat split. Qed.

End Scorer.

(* ===================================================================== *)
(** * Market data access (MarketDataLoader, backtester_multi.py)          *)
(* ===================================================================== *)

(** A row of a ticker's option chain.  [iv], [close] and [vwap] may be NaN,
    which is [None] here. *)
Record OptionRow := mkOptionRow {
  row_date : Z;
  row_type : OptionType;
  row_strike : Q;
  row_expiration : Z;
  row_dte : Z;
  row_delta : Q;
  row_iv : option Q;
  row_close : option Q;
  row_vwap : option Q;
  row_volume : Z;
  row_oi : Z
}.

Definition is_call (r : OptionRow) : bool :=
  match row_type r with call => true | put => false end.

Definition is_put (r : OptionRow) : bool :=
  match row_type r with call => false | put => true end.

Module MarketData.

(** [Series.between(lo, hi)], both ends included. *)
Definition between (lo hi x : Q) : bool := Qle_bool lo x && Qle_bool x hi.

Definition near_atm (r : OptionRow) : bool :=
  between (45 # 100) (55 # 100) (row_delta r).

Definition delta_diff (r : OptionRow) : Q := Qabs (row_delta r - (1 # 2)).

(** [nsmallest(1, 'delta_diff')] on a frame whose first row is [best]: the
    first row among those of least [delta_diff]. *)
Fixpoint closest_to_half (best : OptionRow) (l : list OptionRow) : OptionRow :=
  match l with
  | [] => best
  | r :: l' =>
      if Qlt_bool (delta_diff r) (delta_diff best)
      then closest_to_half r l'
      else closest_to_half best l'
  end.

(** [MarketDataLoader._estimate_underlying_price]. *)
Definition _estimate_underlying_price (options : list OptionRow) : option Q :=
  match options with
  | [] => None
  | _ =>
      let calls := List.filter is_call options in
      match calls with
      | [] => None
      | c :: calls' =>
          let atm_calls := List.filter near_atm calls in
          match atm_calls with
          | _ :: _ => median (map row_strike atm_calls)
          | [] => Some (row_strike (closest_to_half c calls'))
          end
      end
  end.

Section Loader.

(** The loader's cache: the chain of each ticker, as [load_ticker_data]
    returns it. *)
Variable chain : string -> list OptionRow.

Definition on_date (d : Z) (r : OptionRow) : bool := (row_date r =? d)%Z.

(** [MarketDataLoader.get_underlying_price]. *)
Definition get_underlying_price (t : string) (d : Z) : option Q :=
  match List.filter (on_date d) (chain t) with
  | [] => None
  | day_data => _estimate_underlying_price day_data
  end.

(** [MarketDataLoader.get_options_for_date]: the rows of the date within
    the DTE window, and the underlying price the method attaches to them
    as a column when the estimate is truthy. *)
Definition get_options_for_date (t : string) (d : Z) (min_dte max_dte : Z)
  : list OptionRow * option Q :=
  let options :=
    List.filter (fun r => on_date d r && (min_dte <=? row_dte r)%Z
                          && (row_dte r <=? max_dte)%Z) (chain t) in
  match options with
  | [] => ([], None)
  | _ => (options,
          match _estimate_underlying_price options with
          | Some u => if Qeq_bool u 0 then None else Some u
          | None => None
          end)
  end.

End Loader.

(** The estimate as the specification words it: calls, or puts when there is
    no call; the median strike of the near-ATM rows; the median of all
    strikes when no row is near the money; nothing only on an empty frame. *)
Definition near_atm_put (r : OptionRow) : bool :=
  between (- (55 # 100)) (- (45 # 100)) (row_delta r).

Definition estimate_as_specified (options : list OptionRow) : option Q :=
  match options with
  | [] => None
  | _ =>
      let calls := List.filter is_call options in
      let atm :=
        match calls with
        | _ :: _ => List.filter near_atm calls
        | [] => List.filter near_atm_put (List.filter is_put options)
        end in
      match atm with
      | _ :: _ => median (map row_strike atm)
      | [] => median (map row_strike options)
      end
  end.

(** Example rows, quoted on day 0 for an expiration 30 days later. *)
Definition quote (ty : OptionType) (strike delta : Q) : OptionRow :=
  mkOptionRow 0 ty strike 30 30 delta (Some (25 # 100)) (Some 1) None 100 100.

Example estimate_near_atm :
  _estimate_underlying_price
    [quote call 95 (60 # 100); quote call 100 (50 # 100);
     quote call 102 (46 # 100); quote put 100 (- (50 # 100))]
  = Some ((100 + 102) / 2).
Proof. reflexivity. Qed.

Example estimate_closest :
  _estimate_underlying_price
    [quote call 110 (30 # 100); quote call 120 (20 # 100)] = Some 110.
Proof. reflexivity. Qed.

Lemma closest_to_half_in best l :
  In (closest_to_half best l) (best :: l).
Proof.
  revert best. induction l as [|r l IH]; intros best; simpl.
  - now left.
  - destruct (Qlt_bool (delta_diff r) (delta_diff best)).
    + right. apply IH.
    + destruct (IH best) as [H|H]; [now left | right; now right].
Qed.

Lemma closest_to_half_le_best best l :
  delta_diff (closest_to_half best l) <= delta_diff best.
Proof.
  revert best. induction l as [|r l IH]; intros best; simpl.
  - apply Qle_refl.
  - destruct (Qlt_bool (delta_diff r) (delta_diff best)) eqn:E.
    + apply Qlt_bool_iff in E. specialize (IH r). qlra.
    + apply IH.
Qed.

Lemma closest_to_half_least best l r :
  In r (best :: l) -> delta_diff (closest_to_half best l) <= delta_diff r.
Proof.
  revert best. induction l as [|x l IH]; intros best Hin; simpl.
  - destruct Hin as [<-|[]]. apply Qle_refl.
  - destruct (Qlt_bool (delta_diff x) (delta_diff best)) eqn:E.
    + apply Qlt_bool_iff in E.
      destruct Hin as [<-|[<-|Hin]].
      * pose proof (closest_to_half_le_best x l). qlra.
      * apply closest_to_half_le_best.
      * apply IH. now right.
    + apply Qlt_bool_false_iff in E.
      destruct Hin as [<-|[<-|Hin]].
      * apply closest_to_half_le_best.
      * pose proof (closest_to_half_le_best best l). qlra.
      * apply IH. now right.
Qed.

(** C5, as the code has it.  The estimate reads the call rows only.  When
    some call has a delta within [0.45, 0.55] it is the median strike of
    those calls; otherwise it is the strike of a call whose delta is nearest
    to 0.5.  It is [None] exactly when the frame has no call row, whether or
    not it has put rows. *)
Theorem estimate_underlying_price_spec (options : list OptionRow) :
  let calls := List.filter is_call options in
  let atm_calls := List.filter near_atm calls in
  (_estimate_underlying_price options = None <-> calls = [])
  /\ (atm_calls <> [] ->
      _estimate_underlying_price options = median (map row_strike atm_calls)
      /\ exists m, median (map row_strike atm_calls) = Some m)
  /\ (calls <> [] -> atm_calls = [] ->
      exists c, In c calls
        /\ _estimate_underlying_price options = Some (row_strike c)
        /\ forall c', In c' calls -> delta_diff c <= delta_diff c').
Proof.
  intros calls atm_calls. unfold _estimate_underlying_price.
  fold calls. fold atm_calls.
  destruct options as [|o options'].
  { subst calls atm_calls. simpl. repeat split; congruence. }
  set (options := o :: options') in *.
  destruct calls as [|c calls'] eqn:Ecalls.
  { subst atm_calls. simpl. repeat split; congruence. }
  destruct atm_calls as [|a atm'] eqn:Eatm.
  - split; [split; congruence|]. split; [congruence|].
    intros _ _. exists (closest_to_half c calls').
    split; [apply closest_to_half_in|]. split; [reflexivity|].
    intros c' Hc'. now apply closest_to_half_least.
  - assert (Hm : exists m, median (map row_strike (a :: atm')) = Some m)
      by (apply median_is_some; discriminate).
    split; [|split].
    + destruct Hm as [m Hm]. rewrite Hm. split; congruence.
    + intros _. split; [reflexivity | exact Hm].
    + congruence.
Qed.

(** The theorem on a frame with two calls away from the money and a put. *)
Lemma estimate_underlying_price_spec_witness :
  exists c,
    In c [quote call 110 (30 # 100); quote call 120 (20 # 100)]
    /\ _estimate_underlying_price
         [quote call 110 (30 # 100); quote put 100 (- (50 # 100));
          quote call 120 (20 # 100)] = Some (row_strike c)
    /\ forall c', In c' [quote call 110 (30 # 100); quote call 120 (20 # 100)] ->
                  delta_diff c <= delta_diff c'.
Proof.
  pose proof (estimate_underlying_price_spec
    [quote call 110 (30 # 100); quote put 100 (- (50 # 100));
     quote call 120 (20 # 100)]) as (_ & _ & H).
  apply H; [discriminate | reflexivity].
Defined.

(** C5 fails as stated, twice.  A frame of put rows only has rows and yet no
    estimate: the code never turns to the puts.  And with no call near the
    money the estimate is the strike of the nearest call (110 below), not
    the median of all strikes (115). *)
Lemma estimate_is_not_as_specified :
  ~ (forall options, _estimate_underlying_price options = None -> options = [])
  /\ ~ (forall options, List.filter is_call options <> [] ->
          _estimate_underlying_price options = estimate_as_specified options).
Proof.
  split.
  - intros H. specialize (H [quote put 100 (- (50 # 100))] eq_refl). discriminate.
  - intros H.
    specialize (H [quote call 110 (30 # 100); quote call 120 (20 # 100)]).
    simpl in H. discriminate H. discriminate.
Qed.

End MarketData.

(* ===================================================================== *)
(** * Simulation engine (BacktestEngine, backtester_multi.py)             *)
(* ===================================================================== *)

Module Engine.

Import MarketData.

(** ** Equality of positions

    [Position] is a dataclass: [==] compares the declared fields, in order,
    and not the attributes the engine adds ([ticker], [status], [pnl], ...).
    [list.remove] uses this equality. *)

Definition option_eqb {A} (eqb : A -> A -> bool) (x y : option A) : bool :=
  match x, y with
  | Some a, Some b => eqb a b
  | None, None => true
  | _, _ => false
  end.

Definition option_type_eqb (a b : OptionType) : bool :=
  match a, b with call, call | put, put => true | _, _ => false end.

Definition side_eqb (a b : Side) : bool :=
  match a, b with short, short | long, long => true | _, _ => false end.

Definition leg_eqb (a b : Leg) : bool :=
  option_type_eqb (leg_type a) (leg_type b)
  && Qeq_bool (leg_strike a) (leg_strike b)
  && side_eqb (leg_position a) (leg_position b)
  && Qeq_bool (leg_price a) (leg_price b)
  && Qeq_bool (leg_delta a) (leg_delta b)
  && option_eqb (fun x y => Qeq_bool x.1.1 y.1.1 && Qeq_bool x.1.2 y.1.2
                            && Qeq_bool x.2 y.2)
                (leg_more a) (leg_more b).

Fixpoint list_eqb {A} (eqb : A -> A -> bool) (l1 l2 : list A) : bool :=
  match l1, l2 with
  | [], [] => true
  | a :: l1', b :: l2' => eqb a b && list_eqb eqb l1' l2'
  | _, _ => false
  end.

Definition position_eqb (p q : Position) : bool :=
  String.eqb (strategy_name p) (strategy_name q)
  && (entry_date p =? entry_date q)%Z
  && (expiration_date p =? expiration_date q)%Z
  && (dte_at_entry p =? dte_at_entry q)%Z
  && String.eqb (underlying p) (underlying q)
  && Qeq_bool (underlying_price_entry p) (underlying_price_entry q)
  && list_eqb leg_eqb (legs p) (legs q)
  && Qeq_bool (premium_collected p) (premium_collected q)
  && Qeq_bool (max_risk p) (max_risk q)
  && Qeq_bool (net_delta p) (net_delta q)
  && Qeq_bool (net_gamma p) (net_gamma q)
  && Qeq_bool (net_theta p) (net_theta q)
  && Qeq_bool (net_vega p) (net_vega q)
  && Qeq_bool (profit_target p) (profit_target q)
  && Qeq_bool (stop_loss p) (stop_loss q)
  && option_eqb Z.eqb (exit_date p) (exit_date q).

(** [l.remove(p)]: drops the first element equal to [p].  (Python raises
    [ValueError] when there is none; the engine only removes positions it
    has just taken from the same list.) *)
Fixpoint py_remove (p : Position) (l : list Position) : list Position :=
  match l with
  | [] => []
  | q :: l' => if position_eqb q p then l' else q :: py_remove p l'
  end.

(** ** State and configuration *)

Record BacktestConfig := mkBacktestConfig {
  initial_capital : Q;
  max_positions : Z;
  max_positions_per_ticker : Z
}.

Record OpportunityCandidate := mkOpportunityCandidate {
  c_ticker : string;
  c_strategy_name : string;
  c_position : Position;
  quality_score : Q
}.

(** The mutable attributes of the engine that the loop reads or writes; the
    equity curve, which is appended to once a day and never read by the
    loop, is left out. *)
Record State := mkState {
  capital : Q;
  positions : list Position;
  closed_positions : list Position;
  valorization_attempts : nat;
  valorization_failures : nat;
  bsm_fallback_used : nat
}.

Definition initial_state (cfg : BacktestConfig) : State :=
  mkState (initial_capital cfg) [] [] 0 0 0.

(** [if x:] on an optional number: [None] and zero are falsy. *)
Definition truthy (x : option Q) : option Q :=
  match x with
  | Some v => if Qeq_bool v 0 then None else Some v
  | None => None
  end.

(** The position with its exit attributes set. *)
Definition with_exit (p : Position) (st : Status) (pl : Q) (d : Z)
  (value : option Q) : Position :=
  mkPosition (strategy_name p) (entry_date p) (expiration_date p)
    (dte_at_entry p) (underlying p) (underlying_price_entry p) (legs p)
    (premium_collected p) (max_risk p) (net_delta p) (net_gamma p)
    (net_theta p) (net_vega p) (profit_target p) (stop_loss p)
    (Some d) (ticker p) st (Some pl)
    (match value with Some v => Some v | None => exit_value p end)
    (Some (d - entry_date p)%Z).

(** ** Valuation *)

(** One leg's intrinsic value at the final price, signed by the side. *)
Definition leg_intrinsic (final_price : Q) (l : Leg) : Q :=
  let intrinsic :=
    match leg_type l with
    | call => py_max 0 (final_price - leg_strike l)
    | put => py_max 0 (leg_strike l - final_price)
    end in
  let intrinsic_value := intrinsic * 100 in
  match leg_position l with
  | short => intrinsic_value
  | long => - intrinsic_value
  end.

Definition total_intrinsic_value (final_price : Q) (ls : list Leg) : Q :=
  fold_left (fun total l => total + leg_intrinsic final_price l) ls 0.

(** [BacktestEngine._calculate_expiry_pnl]. *)
Definition _calculate_expiry_pnl (p : Position) (final_price : Q) : Q :=
  premium_collected p - total_intrinsic_value final_price (legs p).

Section Run.

Variable cfg : BacktestConfig.

(** The loader's cache. *)
Variable chain : string -> list OptionRow.

(** [black_scholes_price] as the engine imported it: [None] when the import
    failed ([BSM_AVAILABLE] is false); a call returns [None] when the
    function raises. *)
Variable bsm : option (Q -> Q -> Q -> Q -> Q -> OptionType -> option Q).

Definition quotes_for (t : string) (d expiration : Z) : list OptionRow :=
  List.filter (fun r => on_date d r && (row_expiration r =? expiration)%Z) (chain t).

(** The quote of a leg: the close of the first matching row, its vwap when
    the close is NaN. *)
Definition leg_quote (available : list OptionRow) (l : Leg) : option Q :=
  match List.filter (fun r => Qeq_bool (row_strike r) (leg_strike l)
                              && option_type_eqb (row_type r) (leg_type l))
                    available with
  | [] => None
  | r :: _ => match row_close r with
              | Some c => Some c
              | None => row_vwap r
              end
  end.

(** The loop over the legs of [_calculate_position_value]: the running
    total and the number of legs priced. *)
Definition value_legs (available : list OptionRow) (ls : list Leg) : Q * nat :=
  fold_left
    (fun (acc : Q * nat) l =>
       match leg_quote available l with
       | None => acc
       | Some leg_price =>
           (match leg_position l with
            | short => acc.1 + leg_price * 100
            | long => acc.1 - leg_price * 100
            end, S acc.2)
       end)
    ls (0, O).

(** [BacktestEngine._calculate_position_value]. *)
Definition _calculate_position_value (t : string) (p : Position) (d : Z)
  (underlying_price : Q) : option Q :=
  match quotes_for t d (expiration_date p) with
  | [] => None
  | available =>
      let '(total_value, legs_found) := value_legs available (legs p) in
      if (legs_found =? List.length (legs p))%nat then Some total_value else None
  end.

Definition iv_values (rows : list OptionRow) : list Q :=
  omap row_iv rows.

(** The loop over the legs of [_estimate_value_with_model]. *)
Fixpoint model_legs (bs : Q -> Q -> Q -> Q -> Q -> OptionType -> option Q)
  (S T sigma : Q) (ls : list Leg) (total : Q) : option Q :=
  match ls with
  | [] => Some total
  | l :: ls' =>
      match bs S (leg_strike l) T (5 # 100) sigma (leg_type l) with
      | None => None
      | Some theoretical_price =>
          let theoretical_value := theoretical_price * 100 in
          model_legs bs S T sigma ls'
            (match leg_position l with
             | short => total + theoretical_value
             | long => total - theoretical_value
             end)
      end
  end.

(** [BacktestEngine._estimate_value_with_model]. *)
Definition _estimate_value_with_model (t : string) (p : Position) (d : Z)
  (underlying_price : Q) : option Q :=
  match bsm with
  | None => None
  | Some bs =>
      let estimated_iv :=
        default (25 # 100) (median (iv_values (quotes_for t d (expiration_date p)))) in
      let days_to_expiry := (expiration_date p - d)%Z in
      if (days_to_expiry <=? 0)%Z then Some 0
      else
        let time_to_expiry := inject_Z days_to_expiry / 365 in
        model_legs bs underlying_price time_to_expiry estimated_iv (legs p) 0
  end.

(** The two steps of the valuation in [_manage_all_positions]: the market
    quotes, and the pricing model when they are incomplete. *)
Definition mark_to_model (t : string) (p : Position) (d : Z) (underlying_price : Q)
  : option Q :=
  match _calculate_position_value t p d underlying_price with
  | Some v => Some v
  | None => _estimate_value_with_model t p d underlying_price
  end.

(** ** Managing the open positions *)

(** The body of the loop over [self.positions] in [_manage_all_positions]
    for a position valued at [current_value]: the profit target is tested
    first, the stop loss second.  The result is the position, with its exit
    attributes set when it is put on [positions_to_close], and that flag. *)
Definition check_targets (p : Position) (d : Z) (current_value : Q)
  : Position * bool :=
  let current_pnl := premium_collected p - current_value in
  if Qle_bool (profit_target p) current_pnl
  then (with_exit p closed_profit current_pnl d (Some current_value), true)
  else if Qle_bool current_pnl (- stop_loss p)
  then (with_exit p closed_loss current_pnl d (Some current_value), true)
  else (p, false).

(** The counters of the valuation report: attempts, market-data failures,
    uses of the model. *)
Definition Counters : Type := nat * nat * nat.

(** One iteration of the loop: the position afterwards, whether it is to be
    closed, and what the iteration adds to the counters. *)
Definition manage_position (d : Z) (p : Position) : Position * bool * Counters :=
  if (expiration_date p <=? d)%Z then
    match truthy (get_underlying_price chain (ticker p) d) with
    | Some underlying_price =>
        let pl := _calculate_expiry_pnl p underlying_price in
        (with_exit p (if Qlt_bool 0 pl then expired_profitable else expired_loss)
                   pl d None, true, (0, 0, 0)%nat)
    | None => (p, false, (0, 0, 0)%nat)
    end
  else
    match truthy (get_underlying_price chain (ticker p) d) with
    | None => (p, false, (0, 0, 0)%nat)
    | Some underlying_price =>
        match _calculate_position_value (ticker p) p d underlying_price with
        | Some current_value => (check_targets p d current_value, (1, 0, 0)%nat)
        | None =>
            match _estimate_value_with_model (ticker p) p d underlying_price with
            | None => (p, false, (1, 1, 0)%nat)
            | Some current_value => (check_targets p d current_value, (1, 1, 1)%nat)
            end
        end
    end.

(** Moving one position of [positions_to_close]: the second loop of
    [_manage_all_positions]. *)
Definition close_one (st : State) (p : Position) : State :=
  mkState (capital st + Qabs (max_risk p))
          (py_remove p (positions st))
          (closed_positions st ++ [p])
          (valorization_attempts st) (valorization_failures st)
          (bsm_fallback_used st).

Definition add_counters (st : State) (c : Counters) : State :=
  mkState (capital st) (positions st) (closed_positions st)
          (valorization_attempts st + c.1.1)
          (valorization_failures st + c.1.2)
          (bsm_fallback_used st + c.2).

(** The state once the first loop has run: the positions are the same
    objects, those to be closed now carry their exit attributes. *)
Definition evaluated (st : State) (d : Z) : State :=
  let results := map (manage_position d) (positions st) in
  fold_left add_counters (map snd results)
    (mkState (capital st) (map (fun r => r.1.1) results) (closed_positions st)
             (valorization_attempts st) (valorization_failures st)
             (bsm_fallback_used st)).

Definition positions_to_close (st : State) (d : Z) : list Position :=
  map (fun r => r.1.1)
      (List.filter (fun r => r.1.2) (map (manage_position d) (positions st))).

(** [BacktestEngine._manage_all_positions]. *)
Definition _manage_all_positions (st : State) (d : Z) : State :=
  fold_left close_one (positions_to_close st d) (evaluated st d).

(** ** Entering new positions *)

(** [all_opportunities.sort(key=lambda x: x.quality_score, reverse=True)]. *)
Definition sort_by_score (l : list OpportunityCandidate) : list OpportunityCandidate :=
  sort_desc quality_score l.

Definition ticker_positions (t : string) (ps : list Position) : list Position :=
  List.filter (fun p => String.eqb (ticker p) t) ps.

Definition global_cap_reached (st : State) : bool :=
  (max_positions cfg <=? Z.of_nat (List.length (positions st)))%Z.

Definition ticker_cap_reached (st : State) (c : OpportunityCandidate) : bool :=
  (max_positions_per_ticker cfg
     <=? Z.of_nat (List.length (ticker_positions (c_ticker c) (positions st))))%Z.

Definition capital_short (st : State) (c : OpportunityCandidate) : bool :=
  Qlt_bool (capital st) (Qabs (max_risk (c_position c))).

(** The two statements under "AGREGAR POSICIÓN". *)
Definition enter (st : State) (c : OpportunityCandidate) : State :=
  mkState (capital st - Qabs (max_risk (c_position c)))
          (positions st ++ [c_position c])
          (closed_positions st)
          (valorization_attempts st) (valorization_failures st)
          (bsm_fallback_used st).

(** The selection loop of [_find_multi_ticker_opportunities]: [break] on
    the global cap, [continue] on the two other tests. *)
Fixpoint select (cands : list OpportunityCandidate) (st : State) : State :=
  match cands with
  | [] => st
  | c :: rest =>
      if global_cap_reached st then st
      else if ticker_cap_reached st c then select rest st
      else if capital_short st c then select rest st
      else select rest (enter st c)
  end.

(** The first part of [_find_multi_ticker_opportunities] scans every valid
    ticker with every strategy and scores what it finds; it reads the state
    and changes none of it.  Its result, the pooled list
    [all_opportunities], is a parameter here. *)
Variable collect : State -> Z -> list OpportunityCandidate.

(** [BacktestEngine._find_multi_ticker_opportunities]. *)
Definition _find_multi_ticker_opportunities (st : State) (d : Z) : State :=
  match collect st d with
  | [] => st
  | all_opportunities => select (sort_by_score all_opportunities) st
  end.

(** ** The run *)

(** One iteration of the main loop of [run_multi_ticker_backtest]. *)
Definition day_step (st : State) (d : Z) : State :=
  let st1 := _manage_all_positions st d in
  if (Z.of_nat (List.length (positions st1)) <? max_positions cfg)%Z
  then _find_multi_ticker_opportunities st1 d
  else st1.

(** The loop of [_close_all_remaining_positions] over a copy of the open
    list: a position is closed only when its ticker has a price that day. *)
Definition close_remaining_one (final_date : Z) (st : State) (p : Position) : State :=
  match truthy (get_underlying_price chain (ticker p) final_date) with
  | Some underlying_price =>
      let pl := _calculate_expiry_pnl p underlying_price in
      mkState (capital st + Qabs (max_risk p))
              (positions st)
              (closed_positions st ++ [with_exit p closed_end pl final_date None])
              (valorization_attempts st) (valorization_failures st)
              (bsm_fallback_used st)
  | None => st
  end.

(** [BacktestEngine._close_all_remaining_positions]: the loop, then
    [self.positions.clear()]. *)
Definition _close_all_remaining_positions (st : State) (final_date : Z) : State :=
  let st' := fold_left (close_remaining_one final_date) (positions st) st in
  mkState (capital st') [] (closed_positions st')
          (valorization_attempts st') (valorization_failures st')
          (bsm_fallback_used st').

Definition simulate (dates : list Z) : State :=
  fold_left day_step dates (initial_state cfg).

(** [BacktestEngine.run_multi_ticker_backtest] up to the computation of the
    report; [all_trading_dates[-1]] raises on an empty list of dates. *)
Definition run_multi_ticker_backtest (dates : list Z) : option State :=
  match dates with
  | [] => None
  | _ => Some (_close_all_remaining_positions (simulate dates) (List.last dates 0%Z))
  end.

(** ** The states a run goes through *)

(** The states after each step of a left fold. *)
Fixpoint scan_left {A B} (f : B -> A -> B) (l : list A) (b : B) : list B :=
  match l with
  | [] => []
  | a :: l' => f b a :: scan_left f l' (f b a)
  end.

(** The states after each admission of the selection loop. *)
Fixpoint select_trace (cands : list OpportunityCandidate) (st : State) : list State :=
  match cands with
  | [] => []
  | c :: rest =>
      if global_cap_reached st then []
      else if ticker_cap_reached st c then select_trace rest st
      else if capital_short st c then select_trace rest st
      else enter st c :: select_trace rest (enter st c)
  end.

(** The states of one day: after the evaluation of the open positions, after
    each closure, after each admission. *)
Definition day_trace (st : State) (d : Z) : list State :=
  let st1 := _manage_all_positions st d in
  evaluated st d
  :: scan_left close_one (positions_to_close st d) (evaluated st d)
  ++ (if (Z.of_nat (List.length (positions st1)) <? max_positions cfg)%Z
      then match collect st1 d with
           | [] => []
           | all_opportunities => select_trace (sort_by_score all_opportunities) st1
           end
      else []).

Fixpoint simulate_trace (dates : list Z) (st : State) : list State :=
  match dates with
  | [] => []
  | d :: ds => day_trace st d ++ simulate_trace ds (day_step st d)
  end.

(** The capital reserved by a list of positions:
    [sum(abs(p.max_risk) for p in positions)]. *)
Definition reserved (ps : list Position) : Q :=
  fold_right (fun p acc => Qabs (max_risk p) + acc) 0 ps.

(** What the cash counter and the open positions satisfy throughout the
    daily loop. *)
Definition capital_invariant (st : State) : Prop :=
  capital st + reserved (positions st) == initial_capital cfg.

(** The invariant the specification words: the profit and loss of the
    closed positions is on the right-hand side. *)
Definition closed_pnl (ps : list Position) : Q :=
  fold_right (fun p acc => default 0 (pnl p) + acc) 0 ps.

Definition open_risk (ps : list Position) : Q :=
  fold_right (fun p acc => max_risk p + acc) 0 ps.

Definition capital_invariant_as_specified (st : State) : Prop :=
  capital st + open_risk (positions st)
  == initial_capital cfg + closed_pnl (closed_positions st).

(** ** Facts on the equality of positions and on [remove] *)

Lemma option_eqb_refl {A} (eqb : A -> A -> bool) (x : option A) :
  (forall a, eqb a a = true) -> option_eqb eqb x x = true.
Proof. intros H. destruct x; simpl; auto. Qed.

Lemma leg_eqb_refl l : leg_eqb l l = true.
Proof.
  unfold leg_eqb. rewrite !Qeq_bool_refl.
  destruct (leg_type l), (leg_position l); simpl;
    apply option_eqb_refl; intros a; now rewrite !Qeq_bool_refl.
Qed.

Lemma list_eqb_refl {A} (eqb : A -> A -> bool) (l : list A) :
  (forall a, eqb a a = true) -> list_eqb eqb l l = true.
Proof.
  intros H. induction l as [|a l IH]; simpl; [reflexivity|].
  now rewrite H, IH.
Qed.

Lemma position_eqb_refl p : position_eqb p p = true.
Proof.
  unfold position_eqb.
  rewrite !String.eqb_refl, !Z.eqb_refl, !Qeq_bool_refl.
  rewrite (list_eqb_refl leg_eqb (legs p) leg_eqb_refl).
  rewrite (option_eqb_refl Z.eqb (exit_date p) Z.eqb_refl).
  reflexivity.
Qed.

(** Equal positions reserve the same capital: [max_risk] is a declared
    field. *)
Lemma position_eqb_max_risk p q :
  position_eqb q p = true -> max_risk q == max_risk p.
Proof.
  unfold position_eqb. intros H.
  repeat (apply Bool.andb_true_iff in H; destruct H as [H ?]).
  now apply Qeq_bool_iff.
Qed.

Lemma reserved_app ps qs : reserved (ps ++ qs) == reserved ps + reserved qs.
Proof.
  induction ps as [|p ps IH]; simpl.
  - qlra.
  - rewrite IH. qlra.
Qed.

(** Removing a position that stands in the list frees its own reserve,
    whichever equal element [remove] finds first, and leaves what follows
    the position untouched. *)
Lemma py_remove_split (t : Position) (pre post : list Position) :
  exists pre',
    py_remove t (pre ++ t :: post) = pre' ++ post
    /\ reserved pre' + Qabs (max_risk t) == reserved pre + Qabs (max_risk t)
    /\ List.length pre' = List.length pre.
Proof.
  induction pre as [|q pre IH]; simpl.
  - exists []. rewrite position_eqb_refl.
    split; [reflexivity|]. split; [simpl; qlra | reflexivity].
  - destruct (position_eqb q t) eqn:E.
    + exists (pre ++ [t]). split; [|split].
      * now rewrite <- app_assoc.
      * apply position_eqb_max_risk in E.
        rewrite reserved_app. simpl. rewrite E. qlra.
      * rewrite length_app. simpl. lia.
    + destruct IH as (pre' & Hrem & Hres & Hlen).
      exists (q :: pre'). split; [|split].
      * simpl. now rewrite Hrem.
      * simpl. qlra.
      * simpl. now rewrite Hlen.
Qed.

Lemma close_one_invariant st pre t post :
  positions st = pre ++ t :: post ->
  capital_invariant st ->
  capital_invariant (close_one st t)
  /\ exists pre', positions (close_one st t) = pre' ++ post
                 /\ List.length pre' = List.length pre.
Proof.
  intros Hpos Hinv. unfold capital_invariant, close_one in *. simpl.
  destruct (py_remove_split t pre post) as (pre' & Hrem & Hres & Hlen).
  rewrite Hpos in *. rewrite Hrem. split; [|eauto].
  rewrite reserved_app in *. simpl in Hinv. qlra.
Qed.

Lemma enter_invariant st c :
  capital_invariant st -> capital_invariant (enter st c).
Proof.
  unfold capital_invariant, enter. simpl. intros H.
  rewrite reserved_app. simpl. qlra.
Qed.

(** ** The invariant through the daily loop *)

Lemma with_exit_max_risk p st pl d v : max_risk (with_exit p st pl d v) = max_risk p.
Proof. reflexivity. Qed.

Lemma check_targets_max_risk p d v : max_risk (check_targets p d v).1 = max_risk p.
Proof.
  unfold check_targets.
  destruct (Qle_bool _ _); [reflexivity|]. destruct (Qle_bool _ _); reflexivity.
Qed.

Lemma manage_position_max_risk d p :
  max_risk (manage_position d p).1.1 = max_risk p.
Proof.
  unfold manage_position.
  destruct (expiration_date p <=? d)%Z;
    destruct (truthy _) as [u|]; try reflexivity.
  destruct (_calculate_position_value _ _ _ _) as [v|]; simpl.
  - apply check_targets_max_risk.
  - destruct (_estimate_value_with_model _ _ _ _) as [v|]; simpl;
      [apply check_targets_max_risk | reflexivity].
Qed.

Lemma add_counters_fold cs st :
  capital (fold_left add_counters cs st) = capital st
  /\ positions (fold_left add_counters cs st) = positions st
  /\ closed_positions (fold_left add_counters cs st) = closed_positions st.
Proof.
  revert st. induction cs as [|c cs IH]; intros st; simpl; [auto|].
  destruct (IH (add_counters st c)) as (H1 & H2 & H3).
  rewrite H1, H2, H3. auto.
Qed.

Lemma evaluated_positions st d :
  positions (evaluated st d)
  = map (fun r => r.1.1) (map (manage_position d) (positions st)).
Proof. unfold evaluated. now destruct (add_counters_fold (map snd (map (manage_position d) (positions st))) (mkState (capital st) (map (fun r => r.1.1) (map (manage_position d) (positions st))) (closed_positions st) (valorization_attempts st) (valorization_failures st) (bsm_fallback_used st))) as (_ & -> & _). Qed.

Lemma evaluated_capital st d : capital (evaluated st d) = capital st.
Proof. unfold evaluated. now destruct (add_counters_fold (map snd (map (manage_position d) (positions st))) (mkState (capital st) (map (fun r => r.1.1) (map (manage_position d) (positions st))) (closed_positions st) (valorization_attempts st) (valorization_failures st) (bsm_fallback_used st))) as (-> & _ & _). Qed.

Lemma reserved_evaluated d ps :
  reserved (map (fun r => r.1.1) (map (manage_position d) ps)) == reserved ps.
Proof.
  induction ps as [|p ps IH]; simpl; [qlra|].
  rewrite manage_position_max_risk, IH. qlra.
Qed.

Lemma evaluated_invariant st d :
  capital_invariant st -> capital_invariant (evaluated st d).
Proof.
  unfold capital_invariant. intros H.
  rewrite evaluated_capital, evaluated_positions, reserved_evaluated. exact H.
Qed.

Lemma last_cons_default {A} (x : A) (l : list A) (a : A) :
  List.last (x :: l) a = List.last l x.
Proof.
  revert x a. induction l as [|y l IH]; intros x a; [reflexivity|].
  change (List.last (x :: y :: l) a) with (List.last (y :: l) a).
  now rewrite (IH y a), (IH y x).
Qed.

Lemma scan_left_last {A B} (f : B -> A -> B) (l : list A) (b : B) :
  List.last (scan_left f l b) b = fold_left f l b.
Proof.
  revert b. induction l as [|a l IH]; intros b; simpl scan_left; simpl fold_left;
    [reflexivity|].
  rewrite last_cons_default. apply IH.
Qed.

(** The closures of a day keep the invariant, one after the other. *)
Lemma close_loop_invariant (rs : list (Position * bool * Counters)) st pre :
  positions st = pre ++ map (fun r => r.1.1) rs ->
  capital_invariant st ->
  Forall capital_invariant
    (scan_left close_one (map (fun r => r.1.1) (List.filter (fun r => r.1.2) rs)) st)
  /\ capital_invariant
      (fold_left close_one (map (fun r => r.1.1) (List.filter (fun r => r.1.2) rs)) st).
Proof.
  revert st pre. induction rs as [|[[p b] c] rs IH]; intros st pre Hpos Hinv; simpl.
  - split; [constructor | exact Hinv].
  - destruct b; simpl in *.
    + destruct (close_one_invariant st pre p _ Hpos Hinv) as (Hinv' & pre' & Hpos' & _).
      destruct (IH _ pre' Hpos' Hinv') as (Hall & Hend).
      split; [constructor; assumption | exact Hend].
    + apply (IH st (pre ++ [p])); [|exact Hinv].
      rewrite Hpos, <- app_assoc. reflexivity.
Qed.

Lemma manage_invariant st d :
  capital_invariant st ->
  Forall capital_invariant (scan_left close_one (positions_to_close st d) (evaluated st d))
  /\ capital_invariant (_manage_all_positions st d).
Proof.
  intros Hinv. unfold _manage_all_positions, positions_to_close.
  apply (close_loop_invariant _ _ []).
  - simpl. apply evaluated_positions.
  - now apply evaluated_invariant.
Qed.

(** So do the admissions. *)
Lemma select_invariant cands st :
  capital_invariant st ->
  Forall capital_invariant (select_trace cands st)
  /\ capital_invariant (select cands st).
Proof.
  revert st. induction cands as [|c rest IH]; intros st Hinv; simpl.
  - split; [constructor | exact Hinv].
  - destruct (global_cap_reached st); [split; [constructor | exact Hinv]|].
    destruct (ticker_cap_reached st c); [now apply IH|].
    destruct (capital_short st c); [now apply IH|].
    destruct (IH _ (enter_invariant st c Hinv)) as (Hall & Hend).
    split; [constructor; [now apply enter_invariant | exact Hall] | exact Hend].
Qed.

Lemma select_trace_last cands st :
  List.last (select_trace cands st) st = select cands st.
Proof.
  revert st. induction cands as [|c rest IH]; intros st; simpl; [reflexivity|].
  destruct (global_cap_reached st); [reflexivity|].
  destruct (ticker_cap_reached st c); [apply IH|].
  destruct (capital_short st c); [apply IH|].
  rewrite last_cons_default. apply IH.
Qed.

Lemma last_app_default {A} (l1 l2 : list A) (a : A) :
  List.last (l1 ++ l2) a = List.last l2 (List.last l1 a).
Proof.
  revert a. induction l1 as [|x l1 IH]; intros a; [reflexivity|].
  change ((x :: l1) ++ l2) with (x :: (l1 ++ l2)).
  rewrite !last_cons_default. apply IH.
Qed.

Lemma day_trace_last st d : List.last (day_trace st d) st = day_step st d.
Proof.
  unfold day_trace, day_step.
  change (evaluated st d :: ?l ++ ?r) with ((evaluated st d :: l) ++ r).
  rewrite last_app_default.
  assert (H : List.last (evaluated st d
                 :: scan_left close_one (positions_to_close st d) (evaluated st d)) st
              = _manage_all_positions st d).
  { unfold _manage_all_positions. rewrite last_cons_default.
    apply scan_left_last. }
  rewrite H.
  destruct (Z.of_nat (List.length (positions (_manage_all_positions st d)))
            <? max_positions cfg)%Z; [|reflexivity].
  unfold _find_multi_ticker_opportunities.
  destruct (collect (_manage_all_positions st d) d) as [|c l]; [reflexivity|].
  apply select_trace_last.
Qed.

Lemma day_invariant st d :
  capital_invariant st ->
  Forall capital_invariant (day_trace st d) /\ capital_invariant (day_step st d).
Proof.
  intros Hinv. destruct (manage_invariant st d Hinv) as (Hclose & Hman).
  unfold day_trace, day_step.
  destruct (Z.of_nat (List.length (positions (_manage_all_positions st d)))
            <? max_positions cfg)%Z.
  - unfold _find_multi_ticker_opportunities.
    destruct (collect (_manage_all_positions st d) d) as [|c l] eqn:E.
    + split; [|exact Hman]. constructor; [now apply evaluated_invariant|].
      rewrite app_nil_r. exact Hclose.
    + destruct (select_invariant (sort_by_score (c :: l)) _ Hman) as (Hall & Hend).
      split; [|exact Hend]. constructor; [now apply evaluated_invariant|].
      apply Forall_app. split; assumption.
  - split; [|exact Hman]. constructor; [now apply evaluated_invariant|].
    rewrite app_nil_r. exact Hclose.
Qed.

Lemma simulate_trace_invariant dates st :
  capital_invariant st ->
  Forall capital_invariant (simulate_trace dates st)
  /\ capital_invariant (fold_left day_step dates st).
Proof.
  revert st. induction dates as [|d ds IH]; intros st Hinv;
    cbn [simulate_trace fold_left].
  - split; [constructor | exact Hinv].
  - destruct (day_invariant st d Hinv) as (Hday & Hstep).
    destruct (IH _ Hstep) as (Hall & Hend).
    split; [apply Forall_app; split; assumption | exact Hend].
Qed.

Lemma simulate_trace_last dates st :
  List.last (simulate_trace dates st) st = fold_left day_step dates st.
Proof.
  revert st. induction dates as [|d ds IH]; intros st;
    cbn [simulate_trace fold_left]; [reflexivity|].
  rewrite last_app_default, day_trace_last. apply IH.
Qed.

(** C1, as the code has it.  Closing a position returns its reserve,
    [abs(max_risk)], to the cash counter and nothing else: the profit or
    loss of a closed position is never added to cash.  So at every point of
    the daily loop (after the evaluation of the open positions, after every
    closure and after every admission) cash plus the reserves of the open
    positions equals the initial capital.  The states listed by
    [simulate_trace] are those of the run: the last one is its result. *)
Theorem capital_invariant_daily_loop (dates : list Z) :
  Forall capital_invariant (initial_state cfg :: simulate_trace dates (initial_state cfg))
  /\ List.last (simulate_trace dates (initial_state cfg)) (initial_state cfg)
     = simulate dates
  /\ capital_invariant (simulate dates).
Proof.
  assert (H0 : capital_invariant (initial_state cfg)).
  { unfold capital_invariant, initial_state. simpl. qlra. }
  destruct (simulate_trace_invariant dates _ H0) as (Hall & Hend).
  split; [constructor; assumption|].
  split; [apply simulate_trace_last | exact Hend].
Qed.

End Run.

(** ** A two-day run on one ticker *)

(** A chain with one call of strike 100 and delta 0.5 expiring on day 30,
    quoted 2.00 on day 0 and 0.50 on day 1. *)
Definition spy_chain (t : string) : list OptionRow :=
  if String.eqb t "SPY"
  then [ mkOptionRow 0 call 100 30 30 (1 # 2) (Some (25 # 100)) (Some 2) None 500 1000;
         mkOptionRow 1 call 100 30 29 (1 # 2) (Some (25 # 100)) (Some (1 # 2)) None 500 1000 ]
  else [].

(** A short call on it, as the covered call strategy builds it from the
    quote of day 0: $200 of premium and $9,800 reserved (the underlying at
    100 less the premium), with the profit target and the stop loss the
    engine takes from the adaptive parameters of the ticker. *)
Definition short_call (t : string) : Position :=
  mkPosition "Covered Call" 0 30 30 "UNKNOWN" 100
    [mkLeg call 100 short 2 (1 # 2) None]
    200 9800 0 0 0 0
    (AdaptiveConfig.get_profit_target AdaptiveConfig.init_cache t 200)
    (AdaptiveConfig.get_stop_loss AdaptiveConfig.init_cache t 9800)
    None t open None None None.

Example short_call_targets :
  profit_target (short_call "SPY") == 60 /\ stop_loss (short_call "SPY") == 14700
  /\ profit_target (short_call "GLD") == 50 /\ stop_loss (short_call "GLD") == 19600.
Proof. vm_compute. repeat split. Qed.

Definition demo_cfg : BacktestConfig := mkBacktestConfig 100000 5 2.

(** The scan finds the short call on day 0 and nothing afterwards. *)
Definition demo_collect (t : string) (st : State) (d : Z) : list OpportunityCandidate :=
  if (d =? 0)%Z
  then [mkOpportunityCandidate t "covered_call" (short_call t) (60 # 100)]
  else [].

Definition no_model : option (Q -> Q -> Q -> Q -> Q -> OptionType -> option Q) := None.

Example demo_day_0 :
  let st := simulate demo_cfg spy_chain no_model (demo_collect "SPY") [0%Z] in
  capital st = 100000 - 9800 /\ positions st = [short_call "SPY"]
  /\ closed_positions st = [].
Proof. vm_compute. repeat split. Qed.

Example demo_day_1 :
  let st := simulate demo_cfg spy_chain no_model (demo_collect "SPY") [0%Z; 1%Z] in
  capital st == 100000 /\ positions st = []
  /\ map status (closed_positions st) = [closed_profit]
  /\ map pnl (closed_positions st) = [Some (200 - (1 # 2) * 100)].
Proof. vm_compute. repeat split. Qed.

(** C1 fails as stated: after the short call is closed at a profit of $150
    on day 1, cash is back at the initial $100,000 and no position is open,
    while the initial capital plus the closed profit is $100,150. *)
Lemma closed_pnl_is_not_credited :
  ~ capital_invariant_as_specified demo_cfg
      (simulate demo_cfg spy_chain no_model (demo_collect "SPY") [0%Z; 1%Z]).
Proof. vm_compute. discriminate. Qed.

(** ** The greedy admission *)

Section Selection.

Variable cfg : BacktestConfig.

(** The greedy admission rule with the reserve of the code: every candidate
    of the ranked list gets its turn, and is admitted exactly when the
    global cap is unfilled, the cap of its instrument is unfilled and the
    available capital covers its reserve; an admission deducts the reserve
    at once.  The reserve of a position is [abs(max_risk)]: it is
    [max_risk] itself when that is not negative, and its opposite for the
    condors whose credit exceeds the width. *)
Definition admissible (st : State) (c : OpportunityCandidate) : bool :=
  negb (global_cap_reached cfg st)
  && negb (ticker_cap_reached cfg st c)
  && negb (capital_short st c).

Fixpoint greedy_with_reserve (ranked : list OpportunityCandidate) (st : State) : State :=
  match ranked with
  | [] => st
  | c :: rest =>
      if admissible st c
      then greedy_with_reserve rest (enter st c)
      else greedy_with_reserve rest st
  end.

(** The reserve is [max_risk] itself for a position whose max risk is not
    negative. *)
Lemma reserve_is_max_risk (c : OpportunityCandidate) :
  0 <= max_risk (c_position c) ->
  Qabs (max_risk (c_position c)) == max_risk (c_position c).
Proof. apply Qabs_pos. Qed.

(** Once the global cap is reached no later candidate is admissible: the
    [break] of the source skips only turns that would reject. *)
Lemma greedy_after_cap ranked st :
  global_cap_reached cfg st = true -> greedy_with_reserve ranked st = st.
Proof.
  intros H. induction ranked as [|c rest IH]; simpl; [reflexivity|].
  unfold admissible. rewrite H. simpl. exact IH.
Qed.

Lemma select_is_greedy ranked st :
  select cfg ranked st = greedy_with_reserve ranked st.
Proof.
  revert st. induction ranked as [|c rest IH]; intros st; simpl; [reflexivity|].
  unfold admissible.
  destruct (global_cap_reached cfg st) eqn:Eg; simpl.
  - symmetry. now apply greedy_after_cap.
  - destruct (ticker_cap_reached cfg st c); simpl; [apply IH|].
    destruct (capital_short st c); simpl; apply IH.
Qed.

(** The ranking of two candidates scored 0.8 and 0.6, whichever was
    collected first. *)
Lemma sort_two c1 c2 :
  quality_score c1 == 8 # 10 -> quality_score c2 == 6 # 10 ->
  sort_by_score [c1; c2] = [c1; c2] /\ sort_by_score [c2; c1] = [c1; c2].
Proof.
  intros H1 H2. unfold sort_by_score, sort_desc. simpl.
  assert (E1 : Qle_bool (quality_score c2) (quality_score c1) = true).
  { apply Qle_bool_iff. rewrite H1, H2. discriminate. }
  assert (E2 : Qle_bool (quality_score c1) (quality_score c2) = false).
  { destruct (Qle_bool (quality_score c1) (quality_score c2)) eqn:E; [|reflexivity].
    apply Qle_bool_iff in E. rewrite H1, H2 in E. exfalso. now apply E. }
  now rewrite E1, E2.
Qed.

Lemma select_only_first c1 c2 st :
  global_cap_reached cfg st = false ->
  ticker_cap_reached cfg st c1 = false ->
  Qabs (max_risk (c_position c1)) <= capital st ->
  capital st < Qabs (max_risk (c_position c1)) + Qabs (max_risk (c_position c2)) ->
  select cfg [c1; c2] st = enter st c1.
Proof.
  intros Hg Ht Hc1 Hc2. simpl. rewrite Hg, Ht.
  assert (E1 : capital_short st c1 = false)
    by (unfold capital_short; now apply Qlt_bool_false_iff).
  rewrite E1.
  assert (E2 : capital_short (enter st c1) c2 = true).
  { unfold capital_short, enter. simpl. apply Qlt_bool_iff. qlra. }
  rewrite E2.
  destruct (global_cap_reached cfg (enter st c1)); [reflexivity|].
  destruct (ticker_cap_reached cfg (enter st c1) c2); reflexivity.
Qed.

(** C2, as the code has it.  The pool of the day is ranked by quality score,
    highest first (the ranked list is a sorted rearrangement of the pool),
    and the selection loop gives every candidate of the ranked list one
    turn, admitting it exactly when the global cap is unfilled, the cap of
    its instrument is unfilled and cash covers its reserve, which is
    [abs(max_risk)] and not [max_risk]; an admission appends the position
    and deducts the reserve from cash before the next turn.  In particular,
    of two candidates scored 0.8 and 0.6 whose reserves cash covers one at a
    time but not together, the one scored 0.8 is admitted and the other is
    not, in whichever order they were collected. *)
Theorem greedy_selection_by_score (pool : list OpportunityCandidate) (st : State) (d : Z) :
  let ranked := sort_by_score pool in
  Permutation pool ranked
  /\ StronglySorted (ranks_before quality_score) ranked
  /\ _find_multi_ticker_opportunities cfg (fun _ _ => pool) st d
     = greedy_with_reserve ranked st
  /\ (forall c, capital (enter st c) = capital st - Qabs (max_risk (c_position c))
               /\ positions (enter st c) = positions st ++ [c_position c])
  /\ (forall c1 c2,
        pool = [c1; c2] \/ pool = [c2; c1] ->
        quality_score c1 == 8 # 10 -> quality_score c2 == 6 # 10 ->
        global_cap_reached cfg st = false ->
        ticker_cap_reached cfg st c1 = false ->
        Qabs (max_risk (c_position c1)) <= capital st ->
        Qabs (max_risk (c_position c2)) <= capital st ->
        capital st < Qabs (max_risk (c_position c1)) + Qabs (max_risk (c_position c2)) ->
        _find_multi_ticker_opportunities cfg (fun _ _ => pool) st d = enter st c1).
Proof.
  intros ranked. subst ranked.
  split; [apply sort_desc_perm|].
  split; [apply sort_desc_sorted|].
  split.
  { unfold _find_multi_ticker_opportunities.
    destruct pool as [|c l]; [reflexivity|]. apply select_is_greedy. }
  split; [intros c; split; reflexivity|].
  intros c1 c2 Hpool H1 H2 Hg Ht Hc1 _ Hc2.
  destruct (sort_two c1 c2 H1 H2) as [S1 S2].
  unfold _find_multi_ticker_opportunities.
  destruct Hpool as [-> | ->]; [rewrite S1 | rewrite S2];
    now apply select_only_first.
Qed.

End Selection.

(** Two candidates on two tickers with $10,000 of cash: reserves of $9,000
    (score 0.6, collected first) and $9,800 (score 0.8). *)
Definition cheaper_call (t : string) : Position :=
  mkPosition "Covered Call" 0 30 30 "UNKNOWN" 100
    [mkLeg call 105 short 1 (3 # 10) None]
    100 9000 0 0 0 0 35 13500 None t open None None None.

Definition candidate_06 : OpportunityCandidate :=
  mkOpportunityCandidate "QQQ" "covered_call" (cheaper_call "QQQ") (6 # 10).

Definition candidate_08 : OpportunityCandidate :=
  mkOpportunityCandidate "SPY" "covered_call" (short_call "SPY") (8 # 10).

Definition small_cfg : BacktestConfig := mkBacktestConfig 10000 5 2.

Lemma greedy_selection_by_score_witness :
  _find_multi_ticker_opportunities small_cfg
    (fun _ _ => [candidate_06; candidate_08]) (initial_state small_cfg) 0%Z
  = enter (initial_state small_cfg) candidate_08.
Proof.
  pose proof (greedy_selection_by_score small_cfg [candidate_06; candidate_08]
                (initial_state small_cfg) 0%Z) as (_ & _ & _ & _ & H).
  apply (H candidate_08 candidate_06).
  - now right.
  - reflexivity.
  - reflexivity.
  - reflexivity.
  - reflexivity.
  - discriminate.
  - discriminate.
  - reflexivity.
Defined.

(** ** The exit rules *)

Section Exits.

Variable chain : string -> list OptionRow.
Variable bsm : option (Q -> Q -> Q -> Q -> Q -> OptionType -> option Q).

Lemma check_targets_cases p d v :
  let pl := premium_collected p - v in
  (profit_target p <= pl ->
     check_targets p d v = (with_exit p closed_profit pl d (Some v), true))
  /\ (pl < profit_target p -> pl <= - stop_loss p ->
     check_targets p d v = (with_exit p closed_loss pl d (Some v), true))
  /\ (pl < profit_target p -> - stop_loss p < pl ->
     check_targets p d v = (p, false)).
Proof.
  intros pl. unfold check_targets. fold pl.
  split; [|split].
  - intros H. apply Qle_bool_iff in H. now rewrite H.
  - intros H1 H2.
    destruct (Qle_bool (profit_target p) pl) eqn:E.
    + apply Qle_bool_iff in E. qlra.
    + apply Qle_bool_iff in H2. now rewrite H2.
  - intros H1 H2.
    destruct (Qle_bool (profit_target p) pl) eqn:E.
    + apply Qle_bool_iff in E. qlra.
    + destruct (Qle_bool pl (- stop_loss p)) eqn:E2; [|reflexivity].
      apply Qle_bool_iff in E2. qlra.
Qed.

(** C3, as the code has it.  Each day and for each open position, in this
    order.  On or after the expiration date: when the ticker has a (non
    zero) underlying price that day, the position is closed with
    PnL = premium_collected - (sum of the legs' signed intrinsic values),
    status expired_profitable when the PnL is positive and expired_loss
    otherwise; when it has none, the position stays as it is.  Before the
    expiration date: with no underlying price, or with no valuation from
    the market quotes nor from the pricing model, the position stays as it
    is; with a valuation v, PnL = premium_collected - v, and the position
    is closed as closed_profit when PnL >= profit_target, else as
    closed_loss when PnL <= -stop_loss, else kept.  The function is total:
    no case raises. *)
Theorem exit_rules (p : Position) (d : Z) :
  let price := truthy (get_underlying_price chain (ticker p) d) in
  let outcome := (manage_position chain bsm d p).1 in
  ((expiration_date p <= d)%Z ->
     match price with
     | Some u =>
         let pl := premium_collected p - total_intrinsic_value u (legs p) in
         outcome =
           (with_exit p (if Qlt_bool 0 pl then expired_profitable else expired_loss)
                      pl d None, true)
     | None => outcome = (p, false)
     end)
  /\ ((d < expiration_date p)%Z ->
     match price with
     | None => outcome = (p, false)
     | Some u =>
         match mark_to_model chain bsm (ticker p) p d u with
         | None => outcome = (p, false)
         | Some v =>
             let pl := premium_collected p - v in
             (profit_target p <= pl ->
                outcome = (with_exit p closed_profit pl d (Some v), true))
             /\ (pl < profit_target p -> pl <= - stop_loss p ->
                outcome = (with_exit p closed_loss pl d (Some v), true))
             /\ (pl < profit_target p -> - stop_loss p < pl ->
                outcome = (p, false))
         end
     end).
Proof.
  intros price outcome. subst price outcome. unfold manage_position, mark_to_model.
  split.
  - intros Hexp. apply Z.leb_le in Hexp. rewrite Hexp.
    destruct (truthy (get_underlying_price chain (ticker p) d)) as [u|]; reflexivity.
  - intros Hlive. apply Z.leb_gt in Hlive. rewrite Hlive.
    destruct (truthy (get_underlying_price chain (ticker p) d)) as [u|];
      [|reflexivity].
    destruct (_calculate_position_value chain (ticker p) p d u) as [v|]; simpl.
    + apply check_targets_cases.
    + destruct (_estimate_value_with_model chain bsm (ticker p) p d u) as [v|]; simpl;
        [apply check_targets_cases | reflexivity].
Qed.

End Exits.

(** The rules on the short call of the two-day run: on day 1, before its
    expiration, it is valued at 50 from the quotes and closed at a profit. *)
Lemma exit_rules_witness :
  (manage_position spy_chain no_model 1 (short_call "SPY")).1
  = (with_exit (short_call "SPY") closed_profit (200 - (1 # 2) * 100) 1
               (Some ((1 # 2) * 100)), true).
Proof.
  pose proof (exit_rules spy_chain no_model (short_call "SPY") 1) as [_ H].
  specialize (H eq_refl).
  change (truthy (get_underlying_price spy_chain (ticker (short_call "SPY")) 1))
    with (Some (100 : Q)) in H.
  change (mark_to_model spy_chain no_model (ticker (short_call "SPY"))
            (short_call "SPY") 1 100)
    with (Some (0 + (1 # 2) * 100)) in H.
  destruct H as (H & _ & _).
  apply H. discriminate.
Defined.

(** C3 fails as stated: a position past its expiration date is not settled
    on a day on which its ticker has no row (day 30 of the chain above);
    it stays open, unchanged. *)
Lemma expired_position_not_settled :
  ~ (forall chain bsm p d,
       (expiration_date p <= d)%Z ->
       (manage_position chain bsm d p).1.2 = true).
Proof.
  intros H.
  specialize (H spy_chain no_model (short_call "SPY") 30%Z ltac:(discriminate)).
  discriminate H.
Qed.

Example expired_position_kept :
  manage_position spy_chain no_model 30 (short_call "SPY")
  = (short_call "SPY", false, (0, 0, 0)%nat).
Proof. reflexivity. Qed.

(** ** The open list and the closed ledger *)

Section Ledger.

Variable chain : string -> list OptionRow.
Variable bsm : option (Q -> Q -> Q -> Q -> Q -> OptionType -> option Q).

Lemma close_loop_ledger (rs : list (Position * bool * Counters)) st pre :
  positions st = pre ++ map (fun r => r.1.1) rs ->
  let to_close := map (fun r => r.1.1) (List.filter (fun r => r.1.2) rs) in
  closed_positions (fold_left close_one to_close st) = closed_positions st ++ to_close
  /\ (List.length (positions (fold_left close_one to_close st))
      + List.length to_close = List.length (positions st))%nat.
Proof.
  revert st pre. induction rs as [|[[p b] c] rs IH]; intros st pre Hpos; simpl.
  - rewrite app_nil_r. split; [reflexivity | lia].
  - destruct b; simpl in *.
    + destruct (py_remove_split p pre (map (fun r => r.1.1) rs))
        as (pre' & Hrem & _ & Hlen).
      assert (Hpos' : positions (close_one st p) = pre' ++ map (fun r => r.1.1) rs)
        by (unfold close_one; simpl; now rewrite Hpos, Hrem).
      destruct (IH _ pre' Hpos') as (Hc & Hl).
      split.
      * rewrite Hc. unfold close_one. simpl. now rewrite <- app_assoc.
      * rewrite Hpos, Hpos' in *. rewrite !length_app in *. simpl. lia.
    + destruct (IH st (pre ++ [p])) as (Hc & Hl).
      { rewrite Hpos, <- app_assoc. reflexivity. }
      split; assumption.
Qed.

(** In the daily management step a position leaves the open list only by
    being appended to the closed ledger: the ledger grows by exactly the
    positions put on [positions_to_close], and the open list shrinks by
    their number. *)
Lemma manage_moves_positions st d :
  closed_positions (_manage_all_positions chain bsm st d)
  = closed_positions st ++ positions_to_close chain bsm st d
  /\ (List.length (positions (_manage_all_positions chain bsm st d))
      + List.length (positions_to_close chain bsm st d)
      = List.length (positions st))%nat.
Proof.
  unfold _manage_all_positions, positions_to_close.
  destruct (close_loop_ledger (map (manage_position chain bsm d) (positions st))
              (evaluated chain bsm st d) [] (evaluated_positions chain bsm st d))
    as (Hc & Hl).
  split.
  - rewrite Hc. unfold evaluated.
    now destruct (add_counters_fold
      (map snd (map (manage_position chain bsm d) (positions st)))
      (mkState (capital st)
         (map (fun r => r.1.1) (map (manage_position chain bsm d) (positions st)))
         (closed_positions st) (valorization_attempts st)
         (valorization_failures st) (bsm_fallback_used st))) as (_ & _ & ->).
  - rewrite Hl, evaluated_positions, !length_map. reflexivity.
Qed.

End Ledger.

(** ** The end of a run on two tickers *)

(** SPY is quoted on days 0 and 1; GLD is quoted on day 0 only, so the last
    trading date of the run, day 1, has no GLD row. *)
Definition two_ticker_chain (t : string) : list OptionRow :=
  if String.eqb t "GLD"
  then [ mkOptionRow 0 call 100 30 30 (1 # 2) (Some (25 # 100)) (Some 2) None 500 1000 ]
  else spy_chain t.

(** C4 on that input.  A short call on GLD is entered on day 0 and stays
    open on day 1 (no GLD price, no evaluation).  The end-of-run step finds
    no GLD price on day 1 either and skips the position, and
    [self.positions.clear()] then drops it: after the run it is in neither
    collection, and its $9,800 reserve is never returned to cash. *)
Theorem end_of_run_drops_unpriced_position :
  exists st,
    run_multi_ticker_backtest demo_cfg two_ticker_chain no_model
      (demo_collect "GLD") [0%Z; 1%Z] = Some st
    /\ positions (simulate demo_cfg two_ticker_chain no_model
                    (demo_collect "GLD") [0%Z; 1%Z]) = [short_call "GLD"]
    /\ positions st = []
    /\ closed_positions st = []
    /\ capital st == initial_capital demo_cfg - 9800.
Proof.
  eexists. split; [reflexivity|].
  split; [reflexivity|]. split; [reflexivity|]. split; [reflexivity|].
  vm_compute. reflexivity.
Qed.

(** On SPY, which is quoted on the last date, the same step does close the
    position and return the reserve. *)
Example end_of_run_closes_priced_position :
  exists st,
    run_multi_ticker_backtest demo_cfg two_ticker_chain no_model
      (demo_collect "SPY") [0%Z] = Some st
    /\ positions st = []
    /\ map status (closed_positions st) = [closed_end]
    /\ capital st == initial_capital demo_cfg.
Proof.
  eexists. split; [reflexivity|]. split; [reflexivity|]. split; [reflexivity|].
  vm_compute. reflexivity.
Qed.

End Engine.

(* ===================================================================== *)
(** * Iron Condor scan (strategies/iron_condor.py, strategies/filters.py) *)
(* ===================================================================== *)

Module IronCondorScan.

(** [int(x)]: truncation towards zero. *)
Definition py_int (x : Q) : Z := Z.quot (Qnum x) (Zpos (Qden x)).

(** The option frames the selectors see follow the loader's schema: they
    have no [bid], [ask], [bid_ask_spread_pct] or [iv_percentile] column.
    The [iv_rank] column is the constant that [scan] copies from
    [market_data], when it is there. *)
Record LiquidityFilter := mkLiquidityFilter {
  min_volume : Z;
  min_oi : Z;
  max_spread : Q
}.

Record VolatilityFilter := mkVolatilityFilter {
  min_iv : option Q;
  min_iv_rank : option Q;
  min_iv_percentile : option Q
}.

Record OptionSelector := mkOptionSelector {
  liquidity : LiquidityFilter;
  volatility : VolatilityFilter;
  dte_range : Z * Z;
  delta_range : Q * Q;
  option_type : OptionType
}.

(** [LiquidityFilter.filter]: without bid and ask the spread is taken to be
    5 % of the price. *)
Definition liquidity_filter (f : LiquidityFilter) (df : list OptionRow) : list OptionRow :=
  List.filter (fun r => (min_volume f <=? row_volume r)%Z
                        && (min_oi f <=? row_oi r)%Z
                        && Qle_bool 5 (max_spread f)) df.

(** [LiquidityFilter.adjust_for_dte]. *)
Definition liquidity_adjust_for_dte (f : LiquidityFilter) (dte : Z) : LiquidityFilter :=
  if (dte <=? 21)%Z then
    mkLiquidityFilter (py_int (inject_Z (min_volume f) * (15 # 10)))
                      (py_int (inject_Z (min_oi f) * (15 # 10)))
                      (max_spread f * (7 # 10))
  else if (dte <=? 35)%Z then
    mkLiquidityFilter (py_int (inject_Z (min_volume f) * (12 # 10)))
                      (py_int (inject_Z (min_oi f) * (12 # 10)))
                      (max_spread f * (85 # 100))
  else f.

Definition at_least (bound : option Q) (x : option Q) : bool :=
  match bound, x with
  | None, _ => true
  | Some b, Some v => Qle_bool b v
  | Some _, None => false
  end.

(** [VolatilityFilter.filter]: the IV rank test applies only when the frame
    has the column. *)
Definition volatility_filter (f : VolatilityFilter) (iv_rank_column : option Q)
  (df : list OptionRow) : list OptionRow :=
  List.filter (fun r => at_least (min_iv f) (row_iv r)
                        && match iv_rank_column with
                           | Some rank => at_least (min_iv_rank f) (Some rank)
                           | None => true
                           end) df.

(** [x if x else None] on an optional number. *)
Definition if_truthy (x : option Q) (f : Q -> Q) : option Q :=
  match x with
  | Some v => if Qeq_bool v 0 then None else Some (f v)
  | None => None
  end.

(** [VolatilityFilter.adjust_for_dte]. *)
Definition volatility_adjust_for_dte (f : VolatilityFilter) (dte : Z) : VolatilityFilter :=
  if (dte <=? 21)%Z then
    mkVolatilityFilter
      (if_truthy (min_iv f) (fun v => v * (12 # 10)))
      (if_truthy (min_iv_rank f) (fun v => py_max (v + 10) 70))
      (if_truthy (min_iv_percentile f) (fun v => py_max (v + 10) 70))
  else f.

(** [DTEFilter.filter]. *)
Definition dte_filter (range : Z * Z) (df : list OptionRow) : list OptionRow :=
  List.filter (fun r => (range.1 <=? row_dte r)%Z && (row_dte r <=? range.2)%Z) df.

Definition has_type (ty : OptionType) (r : OptionRow) : bool :=
  match ty, row_type r with call, call | put, put => true | _, _ => false end.

(** [DeltaFilter.filter]. *)
Definition delta_filter (range : Q * Q) (ty : OptionType) (df : list OptionRow)
  : list OptionRow :=
  List.filter (fun r => Qle_bool range.1 (Qabs (row_delta r))
                        && Qle_bool (Qabs (row_delta r)) range.2)
              (List.filter (has_type ty) df).

(** [OptionSelector.select] with [adjust_for_dte=True].  Each early return
    of the source hands back an empty frame, which is what the remaining
    filters make of an empty frame. *)
Definition select (s : OptionSelector) (iv_rank_column : option Q)
  (df : list OptionRow) : list OptionRow :=
  match median (map (fun r => inject_Z (row_dte r)) df) with
  | None => []
  | Some avg_dte =>
      let liquidity' := liquidity_adjust_for_dte (liquidity s) (py_int avg_dte) in
      let volatility' := volatility_adjust_for_dte (volatility s) (py_int avg_dte) in
      delta_filter (delta_range s) (option_type s)
        (volatility_filter volatility' iv_rank_column
           (liquidity_filter liquidity' (dte_filter (dte_range s) df)))
  end.

(** The parameters of [IronCondor.__init__]. *)
Record IronCondor := mkIronCondor {
  ic_dte_range : Z * Z;
  short_delta_range : Q * Q;
  long_delta_range : Q * Q;
  spread_width : Z;
  ic_min_iv_rank : Q;
  ic_min_volume : Z;
  ic_min_open_interest : Z
}.

(** The strategy as [BacktestEngine._initialize_strategies] builds it. *)
Definition engine_iron_condor : IronCondor :=
  mkIronCondor (15, 60)%Z (16 # 100, 25 # 100) (5 # 100, 10 # 100) 5 60 10 50.

(** [IronCondor._create_selector]. *)
Definition _create_selector (ic : IronCondor) (ty : OptionType) (side : Side)
  : OptionSelector :=
  mkOptionSelector
    (mkLiquidityFilter (ic_min_volume ic) (ic_min_open_interest ic) 10)
    (mkVolatilityFilter None (Some (ic_min_iv_rank ic)) None)
    (ic_dte_range ic)
    (match side with short => short_delta_range ic | long => long_delta_range ic end)
    ty.

(** The [market_data] dict, as far as [scan] reads it. *)
Record MarketContext := mkMarketContext {
  iv_rank : option Q;
  underlying_price : Q
}.

(** A row of the frame [scan] returns.  The four option rows it was built
    from are kept, so that the legs can be compared; the source stores
    their strikes, deltas and prices, and the expiration and DTE of the
    short put only. *)
Record Condor := mkCondor {
  put_short : OptionRow;
  put_long : OptionRow;
  call_short : OptionRow;
  call_long : OptionRow;
  date : Z;
  expiration : Z;
  dte : Z;
  put_spread_credit : Q;
  call_spread_credit : Q;
  total_credit : Q;
  max_risk_ : Q;
  return_on_risk : Q
}.

(** The first row of the frame with this strike, type and quote date. *)
Definition find_long (options_data : list OptionRow) (strike : Q)
  (ty : OptionType) (d : Z) : option OptionRow :=
  match List.filter (fun r => Qeq_bool (row_strike r) strike && has_type ty r
                              && (row_date r =? d)%Z) options_data with
  | [] => None
  | r :: _ => Some r
  end.

(** One iteration of the inner loop.  A NaN price makes the credit NaN, and
    the candidate then fails the credit test below: it is dropped here. *)
Definition build_condor (ic : IronCondor) (d : Z)
  (ps pl cs cl : OptionRow) : option Condor :=
  match row_close ps, row_close pl, row_close cs, row_close cl with
  | Some ps_close, Some pl_close, Some cs_close, Some cl_close =>
      let put_spread_credit := ps_close - pl_close in
      let call_spread_credit := cs_close - cl_close in
      let total_credit := put_spread_credit + call_spread_credit in
      let max_risk := (inject_Z (spread_width ic) - total_credit) * 100 in
      let ror := if (0 <? spread_width ic)%Z
                 then total_credit / inject_Z (spread_width ic) * 100
                 else 0 in
      Some (mkCondor ps pl cs cl d (row_expiration ps) (row_dte ps)
                     put_spread_credit call_spread_credit total_credit max_risk ror)
  | _, _, _, _ => None
  end.

(** The quote dates of a frame, in order of first appearance:
    [Series.unique()]. *)
Fixpoint unique_dates (seen : list Z) (rows : list OptionRow) : list Z :=
  match rows with
  | [] => []
  | r :: rows' =>
      if existsb (Z.eqb (row_date r)) seen
      then unique_dates seen rows'
      else row_date r :: unique_dates (row_date r :: seen) rows'
  end.

(** The three nested loops of step 3. *)
Definition condors_of_date (ic : IronCondor) (options_data put_shorts call_shorts : list OptionRow)
  (d : Z) : list Condor :=
  let date_puts := List.filter (fun r => (row_date r =? d)%Z) put_shorts in
  let date_calls := List.filter (fun r => (row_date r =? d)%Z) call_shorts in
  flat_map
    (fun ps =>
       match find_long options_data (row_strike ps - inject_Z (spread_width ic)) put d with
       | None => []
       | Some pl =>
           flat_map
             (fun cs =>
                match find_long options_data
                        (row_strike cs + inject_Z (spread_width ic)) call d with
                | None => []
                | Some cl => match build_condor ic d ps pl cs cl with
                             | Some c => [c]
                             | None => []
                             end
                end)
             date_calls
       end)
    date_puts.

(** [df_condors.sort_values('return_on_risk', ascending=False)]. *)
Definition sort_by_ror (l : list Condor) : list Condor := sort_desc return_on_risk l.

(** The credit floor: at least 0.30 per spread. *)
Definition min_credit : Q := 60 # 100.

(** [IronCondor.scan]. *)
Definition scan (ic : IronCondor) (options_data : list OptionRow) (m : MarketContext)
  : list Condor :=
  let put_shorts :=
    select (_create_selector ic put short) (iv_rank m)
           (List.filter (has_type put) options_data) in
  match put_shorts with
  | [] => []
  | _ =>
      let call_shorts :=
        select (_create_selector ic call short) (iv_rank m)
               (List.filter (has_type call) options_data) in
      match call_shorts with
      | [] => []
      | _ =>
          let iron_condors :=
            flat_map (condors_of_date ic options_data put_shorts call_shorts)
                     (unique_dates [] put_shorts) in
          sort_by_ror
            (List.filter (fun c => Qle_bool min_credit (total_credit c)) iron_condors)
      end
  end.

(** ** What every row of the scan satisfies *)

Lemma find_long_spec options_data strike ty d r :
  find_long options_data strike ty d = Some r ->
  In r options_data /\ row_strike r == strike /\ has_type ty r = true
  /\ row_date r = d.
Proof.
  unfold find_long. intros H.
  destruct (List.filter _ options_data) as [|x l] eqn:E; [discriminate|].
  injection H as ->.
  assert (Hin : In r (r :: l)) by now left.
  rewrite <- E in Hin. apply List.filter_In in Hin as [Hin Hp].
  apply Bool.andb_true_iff in Hp as [Hp Hd].
  apply Bool.andb_true_iff in Hp as [Hs Ht].
  repeat split; [assumption | now apply Qeq_bool_iff | assumption | now apply Z.eqb_eq].
Qed.

Lemma select_has_type s col df r :
  In r (select s col df) -> has_type (option_type s) r = true.
Proof.
  unfold select. destruct (median _) as [avg|]; [|intros []].
  unfold delta_filter. intros H.
  apply List.filter_In in H as [H _]. now apply List.filter_In in H as [_ H].
Qed.

(** The shape of a scan row: the legs and what the source computes from
    them. *)
Definition well_formed (ic : IronCondor) (c : Condor) : Prop :=
  has_type put (put_short c) = true /\ has_type put (put_long c) = true
  /\ has_type call (call_short c) = true /\ has_type call (call_long c) = true
  /\ row_strike (put_long c) == row_strike (put_short c) - inject_Z (spread_width ic)
  /\ row_strike (call_long c) == row_strike (call_short c) + inject_Z (spread_width ic)
  /\ row_date (put_short c) = date c /\ row_date (put_long c) = date c
  /\ row_date (call_short c) = date c /\ row_date (call_long c) = date c
  /\ expiration c = row_expiration (put_short c)
  /\ max_risk_ c == inject_Z (spread_width ic) * 100 - total_credit c * 100.

Lemma build_condor_spec ic d ps pl cs cl c :
  build_condor ic d ps pl cs cl = Some c ->
  put_short c = ps /\ put_long c = pl /\ call_short c = cs /\ call_long c = cl
  /\ date c = d /\ expiration c = row_expiration ps
  /\ max_risk_ c == inject_Z (spread_width ic) * 100 - total_credit c * 100.
Proof.
  unfold build_condor. intros H.
  destruct (row_close ps), (row_close pl), (row_close cs), (row_close cl);
    try discriminate.
  injection H as <-. simpl. repeat split. qlra.
Qed.

Lemma condors_of_date_spec ic options_data put_shorts call_shorts d c :
  (forall r, In r put_shorts -> has_type put r = true) ->
  (forall r, In r call_shorts -> has_type call r = true) ->
  In c (condors_of_date ic options_data put_shorts call_shorts d) ->
  well_formed ic c.
Proof.
  intros Hput Hcall Hin. unfold condors_of_date in Hin.
  apply List.in_flat_map in Hin as (ps & Hps & Hin).
  apply List.filter_In in Hps as [Hps Hpsd]. apply Z.eqb_eq in Hpsd.
  destruct (find_long options_data _ put d) as [pl|] eqn:Epl; [|destruct Hin].
  apply List.in_flat_map in Hin as (cs & Hcs & Hin).
  apply List.filter_In in Hcs as [Hcs Hcsd]. apply Z.eqb_eq in Hcsd.
  destruct (find_long options_data _ call d) as [cl|] eqn:Ecl; [|destruct Hin].
  destruct (build_condor ic d ps pl cs cl) as [c'|] eqn:Eb; [|destruct Hin].
  destruct Hin as [<-|[]].
  apply find_long_spec in Epl as (_ & Hpls & Hplt & Hpld).
  apply find_long_spec in Ecl as (_ & Hcls & Hclt & Hcld).
  apply build_condor_spec in Eb as (E1 & E2 & E3 & E4 & E5 & He & Hr).
  unfold well_formed. rewrite E1, E2, E3, E4, E5. repeat split; auto.
Qed.

(** Every row the scan returns has a long put [spread_width] below its
    short put and a long call [spread_width] above its short call, all four
    quoted on the row's date; its max risk is
    [spread_width * 100 - total_credit * 100]; its credit is at least the
    floor of 0.60; and the rows come by return on risk, highest first.  The
    expiration of the row is that of the short put: the scan compares no
    other expiration. *)
Lemma scan_rows_shape (ic : IronCondor) (options_data : list OptionRow)
  (m : MarketContext) :
  StronglySorted (ranks_before return_on_risk) (scan ic options_data m)
  /\ forall c, In c (scan ic options_data m) ->
       well_formed ic c /\ min_credit <= total_credit c.
Proof.
  unfold scan.
  set (put_shorts := select (_create_selector ic put short) (iv_rank m)
                            (List.filter (has_type put) options_data)).
  set (call_shorts := select (_create_selector ic call short) (iv_rank m)
                             (List.filter (has_type call) options_data)).
  assert (Hput : forall r, In r put_shorts -> has_type put r = true)
    by (intros r Hr; apply (select_has_type _ _ _ _ Hr)).
  assert (Hcall : forall r, In r call_shorts -> has_type call r = true)
    by (intros r Hr; apply (select_has_type _ _ _ _ Hr)).
  destruct put_shorts as [|p0 ps0] eqn:Ep.
  { split; [constructor | intros c []]. }
  destruct call_shorts as [|c0 cs0] eqn:Ec.
  { split; [constructor | intros c []]. }
  split; [apply sort_desc_sorted|].
  intros c Hin.
  apply (Permutation_in c (Permutation_sym (sort_desc_perm return_on_risk _))) in Hin.
  apply List.filter_In in Hin as [Hin Hcredit].
  apply List.in_flat_map in Hin as (d & _ & Hin).
  split; [|now apply Qle_bool_iff].
  eapply condors_of_date_spec; [exact Hput | exact Hcall | exact Hin].
Qed.

(** ** A chain whose long put expires on another date *)

Definition chain_row (ty : OptionType) (strike : Q) (exp : Z) (delta close : Q)
  : OptionRow :=
  mkOptionRow 0 ty strike exp exp delta (Some (25 # 100)) (Some close) None 100 500.

(** Quoted on day 0: a put 95 and calls 105 and 110 expiring on day 45, and
    a put 90 that is listed for the expiration of day 52 only. *)
Definition mixed_expirations : list OptionRow :=
  [ chain_row put 95 45 (20 # 100) (150 # 100);
    chain_row put 90 52 (8 # 100) (30 # 100);
    chain_row call 105 45 (20 # 100) (140 # 100);
    chain_row call 110 45 (8 # 100) (30 # 100) ].

Definition context_70 : MarketContext := mkMarketContext (Some 70) 100.

(** C6 on that input.  The scan returns one Iron Condor, for the expiration
    of day 45, whose long put is the put 90 of day 52: the long leg is
    looked up by strike, type and quote date, and not by expiration.  The
    credit (2.30), the max risk (270 = 5 * 100 - 2.30 * 100) and the strikes
    (90 = 95 - 5, 110 = 105 + 5) are as the claim has them. *)
Theorem scan_pairs_legs_across_expirations :
  exists c,
    scan engine_iron_condor mixed_expirations context_70 = [c]
    /\ expiration c = 45%Z
    /\ row_expiration (put_short c) = 45%Z
    /\ row_expiration (put_long c) = 52%Z
    /\ row_strike (put_long c) == row_strike (put_short c) - 5
    /\ row_strike (call_long c) == row_strike (call_short c) + 5
    /\ total_credit c == 230 # 100
    /\ max_risk_ c == 270.
Proof.
  eexists. split; [vm_compute; reflexivity|].
  repeat split.
Qed.

End IronCondorScan.

(* ===================================================================== *)
(** * Further invariants of the engine's daily loop                       *)
(* ===================================================================== *)

Module EngineFacts.

Import MarketData Engine.

Section Loop.

Variable cfg : BacktestConfig.
Variable chain : string -> list OptionRow.
Variable bsm : option (Q -> Q -> Q -> Q -> Q -> OptionType -> option Q).
Variable collect : State -> Z -> list OpportunityCandidate.

(** A candidate that some call of the collection step returns. *)
Definition collected (c : OpportunityCandidate) : Prop :=
  exists st d, In c (collect st d).

Section Preserved.

(** A property of the state that the three kinds of step keep: the
    evaluation of the open positions, a closure, and an admission that the
    selection loop lets through. *)
Variable P : State -> Prop.
Hypothesis P_evaluated : forall st d, P st -> P (evaluated chain bsm st d).
Hypothesis P_close : forall st p, P st -> P (close_one st p).
Hypothesis P_enter : forall st c,
  P st -> collected c ->
  global_cap_reached cfg st = false ->
  ticker_cap_reached cfg st c = false ->
  capital_short st c = false ->
  P (enter st c).

Lemma close_fold_preserved ps st :
  P st -> Forall P (scan_left close_one ps st) /\ P (fold_left close_one ps st).
Proof.
  revert st. induction ps as [|p ps IH]; intros st Hst; simpl.
  - split; [constructor | exact Hst].
  - destruct (IH _ (P_close st p Hst)) as [Hall Hend].
    split; [constructor; [now apply P_close | exact Hall] | exact Hend].
Qed.

Lemma select_preserved cands st :
  Forall collected cands -> P st ->
  Forall P (select_trace cfg cands st) /\ P (select cfg cands st).
Proof.
  intros Hc. revert st. induction Hc as [|c rest Hc Hrest IH]; intros st Hst; simpl.
  - split; [constructor | exact Hst].
  - destruct (global_cap_reached cfg st) eqn:Eg; [split; [constructor | exact Hst]|].
    destruct (ticker_cap_reached cfg st c) eqn:Et; [now apply IH|].
    destruct (capital_short st c) eqn:Es; [now apply IH|].
    assert (He : P (enter st c)) by now apply P_enter.
    destruct (IH _ He) as [Hall Hend].
    split; [constructor; assumption | exact Hend].
Qed.

Lemma sorted_pool_collected st d :
  Forall collected (sort_by_score (collect st d)).
Proof.
  apply List.Forall_forall. intros c Hc.
  apply (Permutation_in c (Permutation_sym (sort_desc_perm quality_score _))) in Hc.
  exists st, d. exact Hc.
Qed.

Lemma day_preserved st d :
  P st ->
  Forall P (day_trace cfg chain bsm collect st d)
  /\ P (day_step cfg chain bsm collect st d).
Proof.
  intros Hst.
  pose proof (P_evaluated st d Hst) as Hev.
  destruct (close_fold_preserved (positions_to_close chain bsm st d) _ Hev)
    as [Hclose Hman].
  fold (_manage_all_positions chain bsm st d) in Hman.
  unfold day_trace, day_step.
  destruct (Z.of_nat (List.length (positions (_manage_all_positions chain bsm st d)))
            <? max_positions cfg)%Z.
  - unfold _find_multi_ticker_opportunities.
    pose proof (sorted_pool_collected (_manage_all_positions chain bsm st d) d) as Hpool.
    destruct (collect (_manage_all_positions chain bsm st d) d) as [|c l] eqn:E.
    + split; [|exact Hman]. constructor; [exact Hev|].
      rewrite app_nil_r. exact Hclose.
    + destruct (select_preserved _ _ Hpool Hman) as [Hall Hend].
      split; [|exact Hend]. constructor; [exact Hev|].
      apply Forall_app. split; assumption.
  - split; [|exact Hman]. constructor; [exact Hev|].
    rewrite app_nil_r. exact Hclose.
Qed.

Lemma run_preserved dates st :
  P st ->
  Forall P (simulate_trace cfg chain bsm collect dates st)
  /\ P (fold_left (day_step cfg chain bsm collect) dates st).
Proof.
  revert st. induction dates as [|d ds IH]; intros st Hst;
    cbn [simulate_trace fold_left].
  - split; [constructor | exact Hst].
  - destruct (day_preserved st d Hst) as [Hday Hstep].
    destruct (IH _ Hstep) as [Hall Hend].
    split; [apply Forall_app; split; assumption | exact Hend].
Qed.

End Preserved.

(** The states of a run from the fresh engine, the first one included. *)
Definition run_states (dates : list Z) : list State :=
  initial_state cfg :: simulate_trace cfg chain bsm collect dates (initial_state cfg).

(** ** Cash is never negative *)

Definition cash_nonneg (st : State) : Prop := 0 <= capital st.

(** X3.  The cash counter never goes below zero during the daily loop: an
    admission is refused when cash does not cover the reserve, and every
    other step leaves cash as it is or adds to it. *)
Theorem cash_never_negative (dates : list Z) :
  0 <= initial_capital cfg ->
  Forall cash_nonneg (run_states dates)
  /\ cash_nonneg (simulate cfg chain bsm collect dates).
Proof.
  intros H0.
  assert (Hrun : Forall cash_nonneg
                   (simulate_trace cfg chain bsm collect dates (initial_state cfg))
                 /\ cash_nonneg (fold_left (day_step cfg chain bsm collect) dates
                                           (initial_state cfg))).
  { apply run_preserved; unfold cash_nonneg.
    - intros st d H. now rewrite evaluated_capital.
    - intros st p H. unfold close_one. simpl.
      pose proof (Qabs_nonneg (max_risk p)). qlra.
    - intros st c H _ _ _ Hs. unfold enter. simpl.
      apply Qlt_bool_false_iff in Hs. qlra.
    - exact H0. }
  destruct Hrun as [Hall Hend].
  split; [constructor; assumption | exact Hend].
Qed.

(** ** The position caps *)

Definition within_global_cap (st : State) : Prop :=
  (Z.of_nat (List.length (positions st)) <= max_positions cfg)%Z.

Lemma py_remove_length_le p l :
  (List.length (py_remove p l) <= List.length l)%nat.
Proof.
  induction l as [|q l IH]; simpl; [lia|].
  destruct (position_eqb q p); simpl; lia.
Qed.

(** X4.  The number of open positions never exceeds [max_positions] during
    the daily loop, for any cap that is not negative. *)
Theorem open_positions_within_cap (dates : list Z) :
  (0 <= max_positions cfg)%Z ->
  Forall within_global_cap (run_states dates)
  /\ within_global_cap (simulate cfg chain bsm collect dates).
Proof.
  intros H0.
  assert (Hrun : Forall within_global_cap
                   (simulate_trace cfg chain bsm collect dates (initial_state cfg))
                 /\ within_global_cap (fold_left (day_step cfg chain bsm collect) dates
                                                 (initial_state cfg))).
  { apply run_preserved; unfold within_global_cap.
    - intros st d H. now rewrite evaluated_positions, !length_map.
    - intros st p H. unfold close_one. simpl.
      pose proof (py_remove_length_le p (positions st)). lia.
    - intros st c H _ Hg _ _. unfold enter. simpl.
      unfold global_cap_reached in Hg. apply Z.leb_gt in Hg.
      rewrite length_app. simpl. lia.
    - simpl. exact H0. }
  destruct Hrun as [Hall Hend].
  split; [constructor; assumption | exact Hend].
Qed.

Definition within_ticker_cap (st : State) : Prop :=
  forall t, (Z.of_nat (List.length (ticker_positions t (positions st)))
             <= max_positions_per_ticker cfg)%Z.

Lemma manage_position_ticker d p :
  ticker (manage_position chain bsm d p).1.1 = ticker p.
Proof.
  unfold manage_position, check_targets.
  repeat match goal with
         | |- context [match ?x with _ => _ end] => destruct x; simpl
         end; reflexivity.
Qed.

Lemma ticker_positions_evaluated t d ps :
  List.length (ticker_positions t
                 (map (fun r => r.1.1) (map (manage_position chain bsm d) ps)))
  = List.length (ticker_positions t ps).
Proof.
  unfold ticker_positions.
  induction ps as [|p ps IH]; simpl; [reflexivity|].
  rewrite manage_position_ticker.
  destruct (String.eqb (ticker p) t); simpl; now rewrite IH.
Qed.

Lemma ticker_positions_remove t p l :
  (List.length (ticker_positions t (py_remove p l))
   <= List.length (ticker_positions t l))%nat.
Proof.
  unfold ticker_positions.
  induction l as [|q l IH]; simpl; [lia|].
  destruct (position_eqb q p); simpl.
  - destruct (String.eqb (ticker q) t); simpl; lia.
  - destruct (String.eqb (ticker q) t); simpl; lia.
Qed.

(** X5.  When every collected candidate carries a position of its own
    ticker (which is what the collection step sets), no ticker ever has more
    than [max_positions_per_ticker] open positions during the daily loop. *)
Theorem ticker_positions_within_cap (dates : list Z) :
  (0 <= max_positions_per_ticker cfg)%Z ->
  (forall c, collected c -> ticker (c_position c) = c_ticker c) ->
  Forall within_ticker_cap (run_states dates)
  /\ within_ticker_cap (simulate cfg chain bsm collect dates).
Proof.
  intros H0 Hcons.
  assert (Hrun : Forall within_ticker_cap
                   (simulate_trace cfg chain bsm collect dates (initial_state cfg))
                 /\ within_ticker_cap (fold_left (day_step cfg chain bsm collect) dates
                                                 (initial_state cfg))).
  { apply run_preserved; unfold within_ticker_cap.
    - intros st d H t. rewrite evaluated_positions, ticker_positions_evaluated. apply H.
    - intros st p H t. unfold close_one. simpl.
      pose proof (ticker_positions_remove t p (positions st)). specialize (H t). lia.
    - intros st c H Hc _ Ht _ t. unfold enter. simpl.
      unfold ticker_positions. rewrite List.filter_app, length_app. simpl.
      rewrite (Hcons c Hc).
      destruct (String.eqb (c_ticker c) t) eqn:E; simpl.
      + apply String.eqb_eq in E. subst t.
        unfold ticker_cap_reached in Ht. apply Z.leb_gt in Ht.
        unfold ticker_positions in Ht. lia.
      + specialize (H t). unfold ticker_positions in H. lia.
    - intros t. simpl. exact H0. }
  destruct Hrun as [Hall Hend].
  split; [constructor; [intros t; exact H0 | exact Hall] | exact Hend].
Qed.

(** ** The counters of the valuation report *)

Definition counters_ordered (st : State) : Prop :=
  (bsm_fallback_used st <= valorization_failures st
   /\ valorization_failures st <= valorization_attempts st)%nat.

Lemma manage_position_counters d p :
  let c := (manage_position chain bsm d p).2 in
  (c.2 <= c.1.2 /\ c.1.2 <= c.1.1)%nat.
Proof.
  unfold manage_position.
  repeat match goal with
         | |- context [match ?x with _ => _ end] => destruct x; simpl
         end; lia.
Qed.

Lemma add_counters_ordered cs st :
  Forall (fun c : Counters => (c.2 <= c.1.2 /\ c.1.2 <= c.1.1)%nat) cs ->
  counters_ordered st -> counters_ordered (fold_left add_counters cs st).
Proof.
  intros Hcs. revert st. induction Hcs as [|c cs Hc Hcs IH]; intros st Hst; simpl.
  - exact Hst.
  - apply IH. unfold counters_ordered, add_counters in *. simpl. lia.
Qed.

(** X6.  Throughout the daily loop the model fallback was used at most as
    often as the market quotes failed, and the quotes failed at most as
    often as a valuation was attempted: the "fallos totales" of the final
    report, failures minus fallback uses, is never negative. *)
Theorem valuation_counters_ordered (dates : list Z) :
  Forall counters_ordered (run_states dates)
  /\ counters_ordered (simulate cfg chain bsm collect dates).
Proof.
  assert (Hrun : Forall counters_ordered
                   (simulate_trace cfg chain bsm collect dates (initial_state cfg))
                 /\ counters_ordered (fold_left (day_step cfg chain bsm collect) dates
                                                (initial_state cfg))).
  { apply run_preserved.
    - intros st d H. unfold evaluated. apply add_counters_ordered; [|exact H].
      apply List.Forall_forall. intros c Hc.
      apply List.in_map_iff in Hc as (r & <- & Hr).
      apply List.in_map_iff in Hr as (p & <- & _).
      apply manage_position_counters.
    - intros st p H. exact H.
    - intros st c H _ _ _ _. exact H.
    - unfold counters_ordered. simpl. lia. }
  destruct Hrun as [Hall Hend].
  split; [constructor; [unfold counters_ordered; simpl; lia | exact Hall] | exact Hend].
Qed.

End Loop.

(** The hypotheses of the cap and cash theorems on the two-day run. *)
Lemma cash_never_negative_witness :
  Forall cash_nonneg
    (run_states demo_cfg spy_chain no_model (demo_collect "SPY") [0%Z; 1%Z])
  /\ cash_nonneg (simulate demo_cfg spy_chain no_model (demo_collect "SPY") [0%Z; 1%Z]).
Proof. apply cash_never_negative. discriminate. Defined.

Lemma open_positions_within_cap_witness :
  Forall (within_global_cap demo_cfg)
    (run_states demo_cfg spy_chain no_model (demo_collect "SPY") [0%Z; 1%Z])
  /\ within_global_cap demo_cfg
       (simulate demo_cfg spy_chain no_model (demo_collect "SPY") [0%Z; 1%Z]).
Proof. apply open_positions_within_cap. discriminate. Defined.

Lemma ticker_positions_within_cap_witness :
  Forall (within_ticker_cap demo_cfg)
    (run_states demo_cfg spy_chain no_model (demo_collect "SPY") [0%Z; 1%Z])
  /\ within_ticker_cap demo_cfg
       (simulate demo_cfg spy_chain no_model (demo_collect "SPY") [0%Z; 1%Z]).
Proof.
  apply ticker_positions_within_cap; [discriminate|].
  intros c (st & d & Hc). unfold demo_collect in Hc.
  destruct (d =? 0)%Z; [|destruct Hc].
  destruct Hc as [<-|[]]. reflexivity.
Defined.

(** ** What the daily management keeps and what it moves *)

Section Kept.

Variable chain : string -> list OptionRow.
Variable bsm : option (Q -> Q -> Q -> Q -> Q -> OptionType -> option Q).

(** A position of the open list, as the strategies build it: no status yet
    and no exit date. *)
Definition still_open (p : Position) : Prop :=
  status p = open /\ exit_date p = None.

(** An entry of the closed ledger: a terminal status, a PnL, an exit date,
    and the days held counted from the entry date. *)
Definition settled (p : Position) : Prop :=
  status p <> open
  /\ (exists pl, pnl p = Some pl)
  /\ (exists d, exit_date p = Some d /\ days_held p = Some (d - entry_date p)%Z).

Lemma check_targets_outcome p d v :
  ((check_targets p d v).2 = false /\ (check_targets p d v).1 = p)
  \/ ((check_targets p d v).2 = true
      /\ exists st, st <> open
           /\ (check_targets p d v).1
              = with_exit p st (premium_collected p - v) d (Some v)).
Proof.
  unfold check_targets.
  destruct (Qle_bool _ _); [right; split; [reflexivity|]; exists closed_profit; now split|].
  destruct (Qle_bool _ _); [right; split; [reflexivity|]; exists closed_loss; now split|].
  now left.
Qed.

(** One iteration either leaves the position as it is, or flags it and sets
    its exit attributes. *)
Lemma manage_position_outcome d p :
  let r := manage_position chain bsm d p in
  (r.1.2 = false /\ r.1.1 = p)
  \/ (r.1.2 = true
      /\ exists st pl v, st <> open /\ r.1.1 = with_exit p st pl d v).
Proof.
  unfold manage_position.
  destruct (expiration_date p <=? d)%Z.
  - destruct (truthy _) as [u|]; [|now left].
    right. split; [reflexivity|].
    exists (if Qlt_bool 0 (_calculate_expiry_pnl p u)
            then expired_profitable else expired_loss), (_calculate_expiry_pnl p u), None.
    split; [destruct (Qlt_bool _ _); discriminate | reflexivity].
  - destruct (truthy _) as [u|]; [|now left].
    destruct (_calculate_position_value chain (ticker p) p d u) as [v|]; simpl.
    + destruct (check_targets_outcome p d v) as [H|(H & st & Hst & E)];
        [now left | right; split; [exact H | eauto]].
    + destruct (_estimate_value_with_model chain bsm (ticker p) p d u) as [v|]; simpl;
        [|now left].
      destruct (check_targets_outcome p d v) as [H|(H & st & Hst & E)];
        [now left | right; split; [exact H | eauto]].
Qed.

Lemma with_exit_settled p st pl d v : st <> open -> settled (with_exit p st pl d v).
Proof.
  intros Hst. unfold settled. simpl. split; [exact Hst|]. split; eauto.
Qed.

Lemma position_eqb_exit_date p q :
  position_eqb q p = true -> exit_date q = exit_date p.
Proof.
  unfold position_eqb. intros H.
  apply Bool.andb_true_iff in H as [_ H].
  destruct (exit_date q) as [a|], (exit_date p) as [b|]; simpl in H;
    try discriminate; [|reflexivity].
  apply Z.eqb_eq in H. now subst.
Qed.

(** With no exit date on the positions that precede it, [remove] takes out
    the flagged position itself. *)
Lemma py_remove_exact t pre post :
  Forall (fun q => exit_date q = None) pre ->
  exit_date t <> None ->
  py_remove t (pre ++ t :: post) = pre ++ post.
Proof.
  intros Hpre Ht. induction Hpre as [|q pre Hq Hpre IH]; simpl.
  - now rewrite position_eqb_refl.
  - destruct (position_eqb q t) eqn:E.
    + apply position_eqb_exit_date in E. congruence.
    + now rewrite IH.
Qed.

Lemma close_loop_exact (rs : list (Position * bool * Counters)) st pre :
  positions st = pre ++ map (fun r => r.1.1) rs ->
  Forall (fun q => exit_date q = None) pre ->
  Forall (fun r : Position * bool * Counters =>
            if r.1.2 then exit_date r.1.1 <> None else exit_date r.1.1 = None) rs ->
  positions (fold_left close_one
               (map (fun r => r.1.1) (List.filter (fun r => r.1.2) rs)) st)
  = pre ++ map (fun r => r.1.1) (List.filter (fun r => negb r.1.2) rs).
Proof.
  intros Hpos Hpre Hrs. revert st pre Hpos Hpre.
  induction Hrs as [|[[p b] c] rs Hr Hrs IH]; intros st pre Hpos Hpre; simpl in *.
  - exact Hpos.
  - destruct b; simpl in *.
    + apply IH; [|exact Hpre].
      unfold close_one. simpl. rewrite Hpos. now apply py_remove_exact.
    + rewrite (IH st (pre ++ [p])).
      * now rewrite <- app_assoc.
      * rewrite Hpos, <- app_assoc. reflexivity.
      * apply Forall_app. split; [exact Hpre | now constructor].
Qed.

Lemma evaluated_exit_dates d ps :
  Forall (fun q => exit_date q = None) ps ->
  Forall (fun r : Position * bool * Counters =>
            if r.1.2 then exit_date r.1.1 <> None else exit_date r.1.1 = None)
         (map (manage_position chain bsm d) ps).
Proof.
  intros H. induction H as [|p ps Hp Hps IH]; simpl; constructor; [|exact IH].
  destruct (manage_position_outcome d p) as [[Hf Hk]|(Hf & st & pl & v & _ & Hk)];
    rewrite Hf, Hk; [exact Hp | discriminate].
Qed.

Lemma kept_unchanged d ps :
  map (fun r => r.1.1)
      (List.filter (fun r => negb r.1.2) (map (manage_position chain bsm d) ps))
  = List.filter (fun p => negb (manage_position chain bsm d p).1.2) ps.
Proof.
  induction ps as [|p ps IH]; simpl; [reflexivity|].
  destruct (manage_position_outcome d p) as [[Hf Hk]|(Hf & _)]; rewrite Hf; simpl.
  - now rewrite Hk, IH.
  - exact IH.
Qed.

Lemma manage_kept_positions (st : State) (d : Z) :
  Forall (fun q => exit_date q = None) (positions st) ->
  positions (_manage_all_positions chain bsm st d)
  = List.filter (fun p => negb (manage_position chain bsm d p).1.2) (positions st).
Proof.
  intros Hopen. unfold _manage_all_positions, positions_to_close.
  rewrite (close_loop_exact _ _ [] (evaluated_positions chain bsm st d)
             (List.Forall_nil _) (evaluated_exit_dates d _ Hopen)).
  apply kept_unchanged.
Qed.

Lemma manage_ledger_appended (st : State) (d : Z) :
  closed_positions (_manage_all_positions chain bsm st d)
  = closed_positions st
    ++ map (fun p => (manage_position chain bsm d p).1.1)
           (List.filter (fun p => (manage_position chain bsm d p).1.2) (positions st)).
Proof.
  unfold _manage_all_positions, positions_to_close.
  destruct (close_loop_ledger (map (manage_position chain bsm d) (positions st))
              (evaluated chain bsm st d) [] (evaluated_positions chain bsm st d))
    as [Hc _].
  rewrite Hc. f_equal.
  - unfold evaluated.
    now destruct (add_counters_fold
      (map snd (map (manage_position chain bsm d) (positions st)))
      (mkState (capital st)
         (map (fun r => r.1.1) (map (manage_position chain bsm d) (positions st)))
         (closed_positions st) (valorization_attempts st)
         (valorization_failures st) (bsm_fallback_used st))) as (_ & _ & ->).
  - clear. induction (positions st) as [|p ps IH]; simpl; [reflexivity|].
    destruct ((manage_position chain bsm d p).1.2); simpl; now rewrite IH.
Qed.

(** X7.  When the open positions carry no exit date, the daily management
    keeps exactly the positions it did not flag, unchanged and in their
    order, and appends the flagged ones, with their exit attributes, to the
    closed ledger: [remove], which compares positions field by field, takes
    out no other position than the flagged one. *)
Theorem manage_keeps_unflagged (st : State) (d : Z) :
  Forall (fun q => exit_date q = None) (positions st) ->
  positions (_manage_all_positions chain bsm st d)
  = List.filter (fun p => negb (manage_position chain bsm d p).1.2) (positions st)
  /\ closed_positions (_manage_all_positions chain bsm st d)
     = closed_positions st
       ++ map (fun p => (manage_position chain bsm d p).1.1)
              (List.filter (fun p => (manage_position chain bsm d p).1.2) (positions st)).
Proof.
  intros Hopen. split.
  - now apply manage_kept_positions.
  - apply manage_ledger_appended.
Qed.

End Kept.

Lemma manage_keeps_unflagged_witness :
  positions (_manage_all_positions spy_chain no_model
               (simulate demo_cfg spy_chain no_model (demo_collect "SPY") [0%Z]) 1)
  = []
  /\ map status
       (closed_positions (_manage_all_positions spy_chain no_model
          (simulate demo_cfg spy_chain no_model (demo_collect "SPY") [0%Z]) 1))
     = [closed_profit].
Proof.
  destruct (manage_keeps_unflagged spy_chain no_model
              (simulate demo_cfg spy_chain no_model (demo_collect "SPY") [0%Z]) 1)
    as [Hp Hc].
  - repeat constructor.
  - rewrite Hp, Hc. split; reflexivity.
Defined.

(** ** Open positions are open, ledger entries are settled *)

Section Books.

Variable cfg : BacktestConfig.
Variable chain : string -> list OptionRow.
Variable bsm : option (Q -> Q -> Q -> Q -> Q -> OptionType -> option Q).
Variable collect : State -> Z -> list OpportunityCandidate.

Definition books_ok (st : State) : Prop :=
  Forall still_open (positions st) /\ Forall settled (closed_positions st).

Lemma select_books cands st :
  Forall (fun c => still_open (c_position c)) cands ->
  books_ok st -> books_ok (select cfg cands st).
Proof.
  intros Hc. revert st. induction Hc as [|c rest Hc Hrest IH]; intros st Hst; simpl.
  - exact Hst.
  - destruct (global_cap_reached cfg st); [exact Hst|].
    destruct (ticker_cap_reached cfg st c); [now apply IH|].
    destruct (capital_short st c); [now apply IH|].
    apply IH. destruct Hst as [Ho Hl]. split; simpl; [|exact Hl].
    apply Forall_app. split; [exact Ho | now constructor].
Qed.

Lemma manage_books st d :
  books_ok st -> books_ok (_manage_all_positions chain bsm st d).
Proof.
  intros [Ho Hl].
  assert (Hex : Forall (fun q => exit_date q = None) (positions st))
    by (eapply Forall_impl; [exact Ho | intros q [_ Hq]; exact Hq]).
  pose proof (manage_kept_positions chain bsm st d Hex) as Hp.
  pose proof (manage_ledger_appended chain bsm st d) as Hc.
  split.
  - rewrite Hp. apply List.Forall_forall. intros q Hq.
    apply List.filter_In in Hq as [Hq _].
    now apply (proj1 (List.Forall_forall _ _) Ho).
  - rewrite Hc. apply Forall_app. split; [exact Hl|].
    apply List.Forall_forall. intros q Hq.
    apply List.in_map_iff in Hq as (p & <- & Hp').
    apply List.filter_In in Hp' as [_ Hf].
    destruct (manage_position_outcome chain bsm d p)
      as [[Hf' _]|(_ & st' & pl & v & Hst' & ->)]; [congruence|].
    now apply with_exit_settled.
Qed.

Lemma day_books st d :
  (forall c, collected collect c -> still_open (c_position c)) ->
  books_ok st -> books_ok (day_step cfg chain bsm collect st d).
Proof.
  intros Hcol Hst. unfold day_step.
  pose proof (manage_books st d Hst) as Hman.
  destruct (_ <? _)%Z; [|exact Hman].
  unfold _find_multi_ticker_opportunities.
  pose proof (sorted_pool_collected collect (_manage_all_positions chain bsm st d) d) as Hpool.
  destruct (collect (_manage_all_positions chain bsm st d) d) as [|c l]; [exact Hman|].
  apply select_books; [|exact Hman].
  eapply Forall_impl; [exact Hpool | intros x Hx; now apply Hcol].
Qed.

Lemma close_remaining_settled final ps st :
  Forall settled (closed_positions st) ->
  Forall settled (closed_positions (fold_left (close_remaining_one chain final) ps st)).
Proof.
  revert st. induction ps as [|p ps IH]; intros st Hst; simpl; [exact Hst|].
  apply IH. unfold close_remaining_one.
  destruct (truthy _) as [u|]; [|exact Hst]. simpl.
  apply Forall_app. split; [exact Hst|].
  constructor; [|constructor]. now apply with_exit_settled.
Qed.

(** X8.  When the positions of the collected candidates are open (no status
    and no exit date, as the strategies build them), then at the end of
    every simulated day every position of the open list is still open and
    every entry of the closed ledger has a terminal status, a PnL, an exit
    date and its days held: a closed position never stays in, or comes back
    to, the open list.  After the run the open list is empty and the ledger
    entries are settled. *)
Theorem books_stay_consistent (dates : list Z) :
  (forall c, collected collect c -> still_open (c_position c)) ->
  books_ok (simulate cfg chain bsm collect dates)
  /\ match run_multi_ticker_backtest cfg chain bsm collect dates with
     | Some st => positions st = [] /\ Forall settled (closed_positions st)
     | None => dates = []
     end.
Proof.
  intros Hcol.
  assert (Hsim : books_ok (simulate cfg chain bsm collect dates)).
  { unfold simulate.
    assert (H0 : books_ok (initial_state cfg)) by (split; constructor).
    revert H0. generalize (initial_state cfg).
    induction dates as [|d ds IH]; intros st Hst; simpl; [exact Hst|].
    apply IH. now apply day_books. }
  split; [exact Hsim|].
  unfold run_multi_ticker_backtest.
  destruct dates as [|d ds]; [reflexivity|].
  unfold _close_all_remaining_positions. simpl positions. simpl closed_positions.
  split; [reflexivity|].
  apply close_remaining_settled. apply Hsim.
Qed.

End Books.

Lemma books_stay_consistent_witness :
  books_ok (simulate demo_cfg spy_chain no_model (demo_collect "SPY") [0%Z; 1%Z])
  /\ match run_multi_ticker_backtest demo_cfg spy_chain no_model
             (demo_collect "SPY") [0%Z; 1%Z] with
     | Some st => positions st = [] /\ Forall settled (closed_positions st)
     | None => [0%Z; 1%Z] = []
     end.
Proof.
  apply books_stay_consistent.
  intros c (st & d & Hc). unfold demo_collect in Hc.
  destruct (d =? 0)%Z; [|destruct Hc].
  destruct Hc as [<-|[]]. split; reflexivity.
Defined.

(** ** The equity record and the end of the run *)

(** A record of [equity_curve]. *)
Record EquityRecord := mkEquityRecord {
  e_date : Z;
  e_equity : Q;
  e_cash : Q;
  e_open_positions : nat;
  e_closed_positions : nat
}.

Section Equity.

Variable cfg : BacktestConfig.
Variable chain : string -> list OptionRow.
Variable bsm : option (Q -> Q -> Q -> Q -> Q -> OptionType -> option Q).
Variable collect : State -> Z -> list OpportunityCandidate.

(** What one open position adds to [open_positions_value]: its premium less
    its value from the market quotes, when the ticker has a price that day
    and the value is there and not zero (both tests are [if x:]). *)
Definition open_value (d : Z) (p : Position) : Q :=
  match truthy (get_underlying_price chain (ticker p) d) with
  | Some underlying_price =>
      match truthy (_calculate_position_value chain (ticker p) p d underlying_price) with
      | Some current_value => premium_collected p - current_value
      | None => 0
      end
  | None => 0
  end.

Definition open_positions_value (st : State) (d : Z) : Q :=
  fold_left (fun total p => total + open_value d p) (positions st) 0.

(** [sum(abs(p.max_risk) for p in self.positions)]. *)
Definition reserved_capital (ps : list Position) : Q :=
  fold_left (fun total p => total + Qabs (max_risk p)) ps 0.

(** [BacktestEngine._record_multi_ticker_equity]: the record it appends. *)
Definition _record_multi_ticker_equity (st : State) (d : Z) : EquityRecord :=
  let total_equity :=
    capital st + open_positions_value st d + reserved_capital (positions st) in
  mkEquityRecord d total_equity (capital st)
    (List.length (positions st)) (List.length (closed_positions st)).

Lemma reserved_capital_from ps acc :
  fold_left (fun total p => total + Qabs (max_risk p)) ps acc == acc + reserved ps.
Proof.
  revert acc. induction ps as [|p ps IH]; intros acc; simpl.
  - qlra.
  - rewrite IH. qlra.
Qed.

Lemma open_value_from d ps acc :
  Forall (fun p => open_value d p == 0) ps ->
  fold_left (fun total p => total + open_value d p) ps acc == acc.
Proof.
  intros H. revert acc. induction H as [|p ps Hp Hps IH]; intros acc; simpl.
  - reflexivity.
  - rewrite IH, Hp. qlra.
Qed.

(** X9.  The equity recorded at the end of a simulated day is the initial
    capital plus the unrealised PnL of the open positions that the market
    quotes value that day; the PnL of the closed positions is no part of
    it.  On a day that ends with no open position, or with none that can be
    valued, the recorded equity is the initial capital. *)
Theorem recorded_equity (dates : list Z) (d : Z) :
  let st := simulate cfg chain bsm collect dates in
  e_equity (_record_multi_ticker_equity st d)
    == initial_capital cfg + open_positions_value st d
  /\ (Forall (fun p => open_value d p == 0) (positions st) ->
      e_equity (_record_multi_ticker_equity st d) == initial_capital cfg)
  /\ e_cash (_record_multi_ticker_equity st d) = capital st.
Proof.
  intros st.
  assert (H0 : capital_invariant cfg (initial_state cfg)).
  { unfold capital_invariant, initial_state. simpl. qlra. }
  destruct (simulate_trace_invariant cfg chain bsm collect dates _ H0) as [_ Hinv].
  fold (simulate cfg chain bsm collect dates) in Hinv. fold st in Hinv.
  unfold capital_invariant in Hinv.
  assert (He : e_equity (_record_multi_ticker_equity st d)
               == initial_capital cfg + open_positions_value st d).
  { unfold _record_multi_ticker_equity, reserved_capital. simpl.
    rewrite reserved_capital_from. qlra. }
  split; [exact He|]. split; [|reflexivity].
  intros Hz. rewrite He. unfold open_positions_value.
  rewrite (open_value_from d _ 0 Hz). qlra.
Qed.

(** A position that the end-of-run step can close: its ticker has a price
    on the final date. *)
Definition priced (final_date : Z) (p : Position) : bool :=
  match truthy (get_underlying_price chain (ticker p) final_date) with
  | Some _ => true
  | None => false
  end.

Lemma close_remaining_capital final ps st :
  capital (fold_left (close_remaining_one chain final) ps st)
  == capital st + reserved (List.filter (priced final) ps).
Proof.
  revert st. induction ps as [|p ps IH]; intros st; simpl.
  - qlra.
  - rewrite IH. unfold close_remaining_one, priced.
    destruct (truthy _) as [u|]; simpl; qlra.
Qed.

Lemma reserved_partition (f : Position -> bool) ps :
  reserved ps == reserved (List.filter f ps)
                 + reserved (List.filter (fun p => negb (f p)) ps).
Proof.
  induction ps as [|p ps IH]; simpl; [qlra|].
  destruct (f p); simpl; rewrite IH; qlra.
Qed.

(** X10.  After the run the open list is empty, and the final cash is the
    initial capital less the reserves of the positions that were open on the
    final date without a price for their ticker: those reserves are the only
    cash a run does not get back. *)
Theorem end_of_run_cash (dates : list Z) :
  match run_multi_ticker_backtest cfg chain bsm collect dates with
  | Some st =>
      positions st = []
      /\ capital st
           + reserved (List.filter (fun p => negb (priced (List.last dates 0%Z) p))
                         (positions (simulate cfg chain bsm collect dates)))
         == initial_capital cfg
  | None => dates = []
  end.
Proof.
  unfold run_multi_ticker_backtest.
  destruct dates as [|d0 ds]; [reflexivity|].
  set (dates := d0 :: ds). set (final := List.last dates 0%Z).
  split; [reflexivity|].
  assert (H0 : capital_invariant cfg (initial_state cfg)).
  { unfold capital_invariant, initial_state. simpl. qlra. }
  destruct (simulate_trace_invariant cfg chain bsm collect dates _ H0) as [_ Hinv].
  fold (simulate cfg chain bsm collect dates) in Hinv.
  unfold capital_invariant in Hinv.
  unfold _close_all_remaining_positions. simpl capital.
  rewrite close_remaining_capital.
  rewrite (reserved_partition (priced final)) in Hinv. qlra.
Qed.

End Equity.

(** ** The tickers and the trading dates of a run *)

Section Calendar.

(** The data directory: the rows of the ticker's file, or nothing when
    [load_ticker_data] raises (the file is missing, or lacks a required
    column). *)
Variable files : string -> option (list OptionRow).

Variables start_date end_date : Z.

Definition minimum (l : list Z) : option Z :=
  match l with
  | [] => None
  | x :: l' => Some (fold_left Z.min l' x)
  end.

Definition maximum (l : list Z) : option Z :=
  match l with
  | [] => None
  | x :: l' => Some (fold_left Z.max l' x)
  end.

(** The test of [_validate_tickers] on a loaded frame.  On an empty frame
    both ends of the date range are NaT, every comparison with NaT is false,
    and the ticker is kept. *)
Definition overlaps_period (rows : list OptionRow) : bool :=
  match minimum (map row_date rows), maximum (map row_date rows) with
  | Some available_start, Some available_end =>
      negb ((available_end <? start_date)%Z || (end_date <? available_start)%Z)
  | _, _ => true
  end.

(** [BacktestEngine._validate_tickers]: the valid tickers, or nothing when
    it raises [ValueError] because none is valid. *)
Definition _validate_tickers (tickers : list string) : option (list string) :=
  let valid_tickers :=
    List.filter (fun t => match files t with
                          | Some rows => overlaps_period rows
                          | None => false
                          end) tickers in
  match valid_tickers with
  | [] => None
  | _ => Some valid_tickers
  end.

Definition loaded (t : string) : list OptionRow := default [] (files t).

(** [sorted(list(all_dates))] for a set of dates: the distinct dates in
    increasing order. *)
Fixpoint insert_date (d : Z) (l : list Z) : list Z :=
  match l with
  | [] => [d]
  | x :: l' =>
      if (d <? x)%Z then d :: l
      else if (d =? x)%Z then l
      else x :: insert_date d l'
  end.

Definition in_period (d : Z) : bool := (start_date <=? d)%Z && (d <=? end_date)%Z.

(** [BacktestEngine._get_consolidated_trading_dates]. *)
Definition _get_consolidated_trading_dates (valid_tickers : list string) : list Z :=
  fold_right insert_date []
    (flat_map (fun t => List.filter in_period (map row_date (loaded t))) valid_tickers).

Lemma insert_date_In d x l : In x (insert_date d l) <-> x = d \/ In x l.
Proof.
  induction l as [|y l IH]; simpl.
  - intuition.
  - destruct (d <? y)%Z eqn:E1; simpl; [intuition|].
    destruct (d =? y)%Z eqn:E2; simpl.
    + apply Z.eqb_eq in E2. subst. intuition.
    + rewrite IH. intuition.
Qed.

Lemma insert_date_sorted d l :
  StronglySorted Z.lt l -> StronglySorted Z.lt (insert_date d l).
Proof.
  induction 1 as [|y l Hs IH Hy]; simpl.
  - repeat constructor.
  - destruct (d <? y)%Z eqn:E1.
    + apply Z.ltb_lt in E1. constructor; [constructor; assumption|].
      constructor; [exact E1|].
      eapply Forall_impl; [exact Hy | intros z Hz; simpl in Hz; lia].
    + destruct (d =? y)%Z eqn:E2; [constructor; assumption|].
      apply Z.ltb_ge in E1. apply Z.eqb_neq in E2.
      constructor; [exact IH|].
      apply List.Forall_forall. intros z Hz. apply insert_date_In in Hz.
      destruct Hz as [->|Hz]; [lia|].
      now apply (proj1 (List.Forall_forall _ _) Hy).
Qed.

Lemma consolidated_dates_In (valid_tickers : list string) (d : Z) :
  In d (_get_consolidated_trading_dates valid_tickers)
  <-> (start_date <= d <= end_date)%Z
      /\ exists t r, In t valid_tickers /\ In r (loaded t) /\ row_date r = d.
Proof.
  unfold _get_consolidated_trading_dates.
  set (all := flat_map _ valid_tickers).
  assert (Hall : In d all <->
            (start_date <= d <= end_date)%Z
            /\ exists t r, In t valid_tickers /\ In r (loaded t) /\ row_date r = d).
  { unfold all. rewrite List.in_flat_map. split.
    - intros (t & Ht & Hd). apply List.filter_In in Hd as [Hd Hp].
      apply List.in_map_iff in Hd as (r & Hr & Hin).
      unfold in_period in Hp. apply Bool.andb_true_iff in Hp as [H1 H2].
      apply Z.leb_le in H1, H2. split; [lia|]. eauto.
    - intros (Hp & t & r & Ht & Hr & Hd). exists t. split; [exact Ht|].
      apply List.filter_In. split.
      + apply List.in_map_iff. eauto.
      + unfold in_period. apply Bool.andb_true_iff. split; apply Z.leb_le; lia. }
  rewrite <- Hall. clear Hall. clearbody all.
  induction all as [|x l IH]; simpl; [reflexivity|].
  rewrite insert_date_In, IH. intuition.
Qed.

Lemma consolidated_dates_sorted (valid_tickers : list string) :
  StronglySorted Z.lt (_get_consolidated_trading_dates valid_tickers).
Proof.
  unfold _get_consolidated_trading_dates.
  induction (flat_map _ valid_tickers) as [|x l IH]; simpl; [constructor|].
  apply insert_date_sorted, IH.
Qed.

(** X11.  The consolidated trading dates are strictly increasing (sorted,
    no date twice), and a date is among them exactly when it lies in the
    period of the run and some valid ticker has a row of that date. *)
Theorem consolidated_trading_dates (valid_tickers : list string) :
  StronglySorted Z.lt (_get_consolidated_trading_dates valid_tickers)
  /\ forall d,
       In d (_get_consolidated_trading_dates valid_tickers)
       <-> (start_date <= d <= end_date)%Z
           /\ exists t r, In t valid_tickers /\ In r (loaded t) /\ row_date r = d.
Proof.
  split; [apply consolidated_dates_sorted | intros d; apply consolidated_dates_In].
Qed.

Lemma fold_min_spec l x :
  (In (fold_left Z.min l x) (x :: l))
  /\ forall y, In y (x :: l) -> (fold_left Z.min l x <= y)%Z.
Proof.
  revert x. induction l as [|z l IH]; intros x; simpl.
  - split; [now left | intros y [<-|[]]; lia].
  - destruct (IH (Z.min x z)) as [Hin Hle]. split.
    + destruct Hin as [Hin|Hin]; [|right; now right].
      rewrite <- Hin. destruct (Z.min_spec x z) as [[_ ->]|[_ ->]];
        [now left | right; now left].
    + intros y Hy. destruct Hy as [<-|[<-|Hy]].
      * specialize (Hle (Z.min x z) (or_introl eq_refl)). lia.
      * specialize (Hle (Z.min x z) (or_introl eq_refl)). lia.
      * apply Hle. now right.
Qed.

Lemma fold_max_spec l x :
  (In (fold_left Z.max l x) (x :: l))
  /\ forall y, In y (x :: l) -> (y <= fold_left Z.max l x)%Z.
Proof.
  revert x. induction l as [|z l IH]; intros x; simpl.
  - split; [now left | intros y [<-|[]]; lia].
  - destruct (IH (Z.max x z)) as [Hin Hle]. split.
    + destruct Hin as [Hin|Hin]; [|right; now right].
      rewrite <- Hin. destruct (Z.max_spec x z) as [[_ ->]|[_ ->]];
        [right; now left | now left].
    + intros y Hy. destruct Hy as [<-|[<-|Hy]].
      * specialize (Hle (Z.max x z) (or_introl eq_refl)). lia.
      * specialize (Hle (Z.max x z) (or_introl eq_refl)). lia.
      * apply Hle. now right.
Qed.

Lemma overlaps_period_iff rows :
  overlaps_period rows = true
  <-> rows = []
      \/ ((exists r, In r rows /\ (start_date <= row_date r)%Z)
          /\ (exists r, In r rows /\ (row_date r <= end_date)%Z)).
Proof.
  unfold overlaps_period. destruct rows as [|r0 rows]; simpl; [intuition|].
  destruct (fold_min_spec (map row_date rows) (row_date r0)) as [Hmin_in Hmin].
  destruct (fold_max_spec (map row_date rows) (row_date r0)) as [Hmax_in Hmax].
  change (row_date r0 :: map row_date rows) with (map row_date (r0 :: rows)) in *.
  rewrite Bool.negb_true_iff, Bool.orb_false_iff, !Z.ltb_ge. split.
  - intros [H1 H2]. right. split.
    + apply List.in_map_iff in Hmax_in as (r & Hr & Hin). exists r. split; [exact Hin | lia].
    + apply List.in_map_iff in Hmin_in as (r & Hr & Hin). exists r. split; [exact Hin | lia].
  - intros [H|[(r1 & Hr1 & H1) (r2 & Hr2 & H2)]]; [discriminate|].
    split.
    + specialize (Hmax (row_date r1) (List.in_map row_date (r0 :: rows) r1 Hr1)). lia.
    + specialize (Hmin (row_date r2) (List.in_map row_date (r0 :: rows) r2 Hr2)). lia.
Qed.

(** X12.  [_validate_tickers] keeps a ticker exactly when its file exists
    and is empty, or has a row dated on or after the start of the period and
    a row dated on or before its end: a row within the period is not
    required.  It raises when it keeps none. *)
Theorem validated_tickers (tickers : list string) :
  match _validate_tickers tickers with
  | Some valid_tickers =>
      valid_tickers <> []
      /\ forall t, In t valid_tickers <->
           In t tickers
           /\ exists rows, files t = Some rows
                /\ (rows = []
                    \/ ((exists r, In r rows /\ (start_date <= row_date r)%Z)
                        /\ (exists r, In r rows /\ (row_date r <= end_date)%Z)))
  | None =>
      forall t rows, In t tickers -> files t = Some rows -> overlaps_period rows = false
  end.
Proof.
  unfold _validate_tickers.
  set (keep := fun t => match files t with
                        | Some rows => overlaps_period rows
                        | None => false
                        end).
  destruct (List.filter keep tickers) as [|t0 l] eqn:E.
  - intros t rows Ht Hf.
    destruct (overlaps_period rows) eqn:Eo; [|reflexivity].
    assert (Hin : In t (List.filter keep tickers)).
    { apply List.filter_In. split; [exact Ht|]. unfold keep. now rewrite Hf. }
    rewrite E in Hin. destruct Hin.
  - split; [discriminate|]. intros t. rewrite <- E, List.filter_In. unfold keep.
    split.
    + intros [Ht Hk]. split; [exact Ht|].
      destruct (files t) as [rows|]; [|discriminate].
      exists rows. split; [reflexivity|]. now apply overlaps_period_iff.
    + intros (Ht & rows & Hf & Hrows). split; [exact Ht|].
      rewrite Hf. now apply overlaps_period_iff.
Qed.

(** X13.  A run over the consolidated dates of the validated tickers
    reaches its end exactly when some validated ticker has a row dated
    within the period; otherwise [all_trading_dates[-1]] raises. *)
Theorem run_needs_a_trading_date (cfg : BacktestConfig)
  (bsm : option (Q -> Q -> Q -> Q -> Q -> OptionType -> option Q))
  (collect : State -> Z -> list OpportunityCandidate)
  (valid_tickers : list string) :
  run_multi_ticker_backtest cfg loaded bsm collect
    (_get_consolidated_trading_dates valid_tickers) <> None
  <-> exists t r, In t valid_tickers /\ In r (loaded t)
                  /\ (start_date <= row_date r <= end_date)%Z.
Proof.
  unfold run_multi_ticker_backtest.
  destruct (_get_consolidated_trading_dates valid_tickers) as [|d l] eqn:E; split.
  - intros H. now contradiction H.
  - intros (t & r & Ht & Hr & Hp).
    assert (Hin : In (row_date r) (_get_consolidated_trading_dates valid_tickers)).
    { apply consolidated_dates_In. split; [exact Hp|]. eauto. }
    rewrite E in Hin. destruct Hin.
  - intros _.
    assert (Hin : In d (_get_consolidated_trading_dates valid_tickers)).
    { rewrite E. now left. }
    apply consolidated_dates_In in Hin as (Hp & t & r & Ht & Hr & Hd).
    exists t, r. subst d. auto.
  - discriminate.
Qed.

End Calendar.

(** ** Valuation from the market quotes *)

Section Valuation.

Variable chain : string -> list OptionRow.

(** What a quoted leg adds to the value of its position. *)
Definition leg_value (available : list OptionRow) (l : Leg) : Q :=
  match leg_quote available l with
  | Some leg_price =>
      match leg_position l with
      | short => leg_price * 100
      | long => - (leg_price * 100)
      end
  | None => 0
  end.

Definition quoted (available : list OptionRow) (l : Leg) : bool :=
  match leg_quote available l with Some _ => true | None => false end.

Lemma value_legs_from available ls (acc : Q * nat) :
  let r := fold_left
    (fun (acc : Q * nat) l =>
       match leg_quote available l with
       | None => acc
       | Some leg_price =>
           (match leg_position l with
            | short => acc.1 + leg_price * 100
            | long => acc.1 - leg_price * 100
            end, S acc.2)
       end) ls acc in
  r.1 == acc.1 + Scorer.sumQ (map (leg_value available) ls)
  /\ r.2 = (acc.2 + List.length (List.filter (quoted available) ls))%nat.
Proof.
  assert (Hsum : forall l a, fold_left Qplus l a == a + Scorer.sumQ l).
  { unfold Scorer.sumQ. induction l as [|x l IH]; intros a; simpl; [qlra|].
    rewrite (IH (a + x)), (IH (0 + x)). qlra. }
  revert acc. induction ls as [|l ls IH]; intros acc; cbn zeta in *.
  - simpl. split; [unfold Scorer.sumQ; simpl; qlra | lia].
  - cbn [fold_left map List.filter]. 
    unfold Scorer.sumQ. cbn [fold_left]. rewrite Hsum.
    unfold leg_value at 1, quoted at 1.
    destruct (leg_quote available l) as [q|].
    + match goal with |- context [fold_left ?f ls ?a] => destruct (IH a) as [H1 H2] end.
      rewrite H1, H2. cbn [fst snd length]. split; [|lia].
      destruct (leg_position l); cbn [fst]; qlra.
    + destruct (IH acc) as [H1 H2]. rewrite H1, H2. split; [qlra | lia].
Qed.

Lemma filter_length_all {A} (f : A -> bool) (l : list A) :
  List.length (List.filter f l) = List.length l -> Forall (fun x => f x = true) l.
Proof.
  induction l as [|x l IH]; simpl; intros H; [constructor|].
  pose proof (List.filter_length_le f l) as Hle.
  destruct (f x) eqn:E; simpl in H.
  - constructor; [exact E | apply IH; lia].
  - lia.
Qed.

Lemma filter_length_some {A} (f : A -> bool) (l : list A) :
  List.length (List.filter f l) <> List.length l -> Exists (fun x => f x = false) l.
Proof.
  induction l as [|x l IH]; simpl; intros H; [now contradiction H|].
  destruct (f x) eqn:E; simpl in H.
  - apply Exists_cons_tl, IH. lia.
  - now apply Exists_cons_hd.
Qed.

(** X14.  [_calculate_position_value] values a position all or nothing: it
    returns a value exactly when the day has rows of the position's
    expiration and every leg has a quote among them, and the value is then
    the sum of the quotes times 100, short legs counted positive and long
    legs negative.  One leg without a quote leaves the position unvalued. *)
Theorem position_value_all_or_nothing (t : string) (p : Position) (d : Z)
  (underlying_price : Q) :
  let available := quotes_for chain t d (expiration_date p) in
  match _calculate_position_value chain t p d underlying_price with
  | Some total_value =>
      available <> []
      /\ Forall (fun l => leg_quote available l <> None) (legs p)
      /\ total_value == Scorer.sumQ (map (leg_value available) (legs p))
  | None =>
      available = [] \/ Exists (fun l => leg_quote available l = None) (legs p)
  end.
Proof.
  intros available. unfold _calculate_position_value. fold available.
  destruct available as [|r0 rows] eqn:E; [now left|]. rewrite <- E.
  unfold value_legs.
  pose proof (value_legs_from available (legs p) (0, O)) as H. cbn zeta in H.
  destruct (fold_left _ (legs p) (0, O)) as [total_value legs_found].
  destruct H as [H1 H2]. cbn [fst snd plus] in H1, H2.
  destruct (legs_found =? List.length (legs p))%nat eqn:En.
  - apply Nat.eqb_eq in En. split; [rewrite E; discriminate|]. split.
    + assert (Hall := filter_length_all (quoted available) (legs p)).
      rewrite <- En, H2 in Hall. specialize (Hall eq_refl).
      eapply List.Forall_impl; [|exact Hall]. intros l Hl. unfold quoted in Hl.
      destruct (leg_quote available l); [discriminate | discriminate].
    + rewrite H1. qlra.
  - apply Nat.eqb_neq in En. right.
    assert (Hex := filter_length_some (quoted available) (legs p)).
    rewrite <- H2 in Hex. specialize (Hex En).
    eapply List.Exists_impl; [|exact Hex]. intros l Hl. unfold quoted in Hl.
    destruct (leg_quote available l); [discriminate | reflexivity].
Qed.

End Valuation.

End EngineFacts.

(* ===================================================================== *)
(** * The Iron Condor at expiration                                       *)
(* ===================================================================== *)

(** [IronCondor.construct_position] (scripts/strategies/iron_condor.py)
    builds the legs of a position from a row of the scan;
    [BacktestEngine._calculate_expiry_pnl] settles the legs at a final
    price. *)

Module IronCondorExpiry.

Import Engine IronCondorScan.

(** One leg dict of [construct_position]: the strike, the price (the close
    of the row) and the delta of the row. *)
Definition leg_of (ty : OptionType) (side : Side) (r : OptionRow) : option Leg :=
  price ← row_close r;
  Some (mkLeg ty (row_strike r) side price (row_delta r) None).

(** The [legs] list of [construct_position], in its order: short put, long
    put, short call, long call.  The prices of a row of the scan are
    numbers; there are no legs to build from a price that is not. *)
Definition construct_legs (c : Condor) : option (list Leg) :=
  ps ← leg_of put short (put_short c);
  pl ← leg_of put long (put_long c);
  cs ← leg_of call short (call_short c);
  cl ← leg_of call long (call_long c);
  Some [ps; pl; cs; cl].

Definition priced_row (r : OptionRow) : Prop := row_close r <> None.

Lemma build_condor_priced ic d ps pl cs cl c :
  build_condor ic d ps pl cs cl = Some c ->
  priced_row ps /\ priced_row pl /\ priced_row cs /\ priced_row cl.
Proof.
  unfold build_condor, priced_row.
  destruct (row_close ps), (row_close pl), (row_close cs), (row_close cl);
    try discriminate.
  intros _. repeat split; discriminate.
Qed.

(** Where a row of the scan comes from. *)
Lemma scan_row_origin ic options_data m c :
  In c (scan ic options_data m) ->
  well_formed ic c
  /\ priced_row (put_short c) /\ priced_row (put_long c)
  /\ priced_row (call_short c) /\ priced_row (call_long c).
Proof.
  unfold scan.
  set (put_shorts := select (_create_selector ic put short) (iv_rank m)
                            (List.filter (has_type put) options_data)).
  set (call_shorts := select (_create_selector ic call short) (iv_rank m)
                             (List.filter (has_type call) options_data)).
  assert (Hput : forall r, In r put_shorts -> has_type put r = true)
    by (intros r Hr; apply (select_has_type _ _ _ _ Hr)).
  assert (Hcall : forall r, In r call_shorts -> has_type call r = true)
    by (intros r Hr; apply (select_has_type _ _ _ _ Hr)).
  destruct put_shorts as [|p0 ps0] eqn:Ep; [intros []|].
  destruct call_shorts as [|c0 cs0] eqn:Ec; [intros []|].
  intros Hin.
  apply (Permutation_in c (Permutation_sym (sort_desc_perm return_on_risk _))) in Hin.
  apply List.filter_In in Hin as [Hin _].
  apply List.in_flat_map in Hin as (d & _ & Hin).
  split; [eapply condors_of_date_spec; [exact Hput | exact Hcall | exact Hin]|].
  unfold condors_of_date in Hin.
  apply List.in_flat_map in Hin as (ps & _ & Hin).
  destruct (find_long options_data _ put d) as [pl|]; [|destruct Hin].
  apply List.in_flat_map in Hin as (cs & _ & Hin).
  destruct (find_long options_data _ call d) as [cl|]; [|destruct Hin].
  destruct (build_condor ic d ps pl cs cl) as [c'|] eqn:Eb; [|destruct Hin].
  destruct Hin as [<-|[]].
  pose proof (build_condor_priced _ _ _ _ _ _ _ Eb) as Hp.
  apply build_condor_spec in Eb as (-> & -> & -> & -> & _).
  exact Hp.
Qed.

Lemma construct_legs_shape c ls :
  construct_legs c = Some ls ->
  exists p1 d1 p2 d2 p3 d3 p4 d4,
    ls = [ mkLeg put (row_strike (put_short c)) short p1 d1 None;
           mkLeg put (row_strike (put_long c)) long p2 d2 None;
           mkLeg call (row_strike (call_short c)) short p3 d3 None;
           mkLeg call (row_strike (call_long c)) long p4 d4 None ].
Proof.
  unfold construct_legs, leg_of.
  destruct (row_close (put_short c)), (row_close (put_long c)),
    (row_close (call_short c)), (row_close (call_long c)); try discriminate.
  simpl. intros H. injection H as <-. repeat eexists.
Qed.

(** The intrinsic value of the four legs at a final price lies between
    nothing and one spread width, when the short put is not struck above the
    short call. *)
Lemma condor_intrinsic_bounds (w kp kc f p1 d1 p2 d2 p3 d3 p4 d4 : Q) kpl kcl :
  0 <= w -> kpl == kp - w -> kcl == kc + w -> kp <= kc ->
  let t := total_intrinsic_value f
    [ mkLeg put kp short p1 d1 None; mkLeg put kpl long p2 d2 None;
      mkLeg call kc short p3 d3 None; mkLeg call kcl long p4 d4 None ] in
  0 <= t /\ t <= w * 100.
Proof.
  intros Hw Hpl Hcl Hk. unfold total_intrinsic_value, leg_intrinsic. simpl.
  destruct (py_max_spec 0 (kp - f)) as [[A1 ->]|[A1 ->]];
  destruct (py_max_spec 0 (kpl - f)) as [[A2 ->]|[A2 ->]];
  destruct (py_max_spec 0 (f - kc)) as [[A3 ->]|[A3 ->]];
  destruct (py_max_spec 0 (f - kcl)) as [[A4 ->]|[A4 ->]];
  split; qlra.
Qed.

(** X15.  A position built from a row of the scan, with a spread width that
    is not negative and a short put struck no higher than the short call,
    settles at expiration between a loss of the row's max risk and a gain of
    the whole premium, whatever the final price. *)
Theorem condor_expiry_pnl_bounded (ic : IronCondor) (options_data : list OptionRow)
  (m : MarketContext) (c : Condor) (p : Position) (final_price : Q) :
  In c (scan ic options_data m) ->
  (0 <= spread_width ic)%Z ->
  row_strike (put_short c) <= row_strike (call_short c) ->
  construct_legs c = Some (legs p) ->
  premium_collected p == total_credit c * 100 ->
  - max_risk_ c <= _calculate_expiry_pnl p final_price
  /\ _calculate_expiry_pnl p final_price <= premium_collected p.
Proof.
  intros Hin Hw Hk Hlegs Hprem.
  destruct (scan_row_origin _ _ _ _ Hin) as [Hwf _].
  destruct Hwf as (_ & _ & _ & _ & Hpl & Hcl & _ & _ & _ & _ & _ & Hrisk).
  destruct (construct_legs_shape _ _ Hlegs)
    as (p1 & d1 & p2 & d2 & p3 & d3 & p4 & d4 & E).
  unfold _calculate_expiry_pnl. rewrite E.
  assert (Hw' : 0 <= inject_Z (spread_width ic)).
  { change 0 with (inject_Z 0). now rewrite <- Zle_Qle. }
  destruct (condor_intrinsic_bounds _ _ _ final_price p1 d1 p2 d2 p3 d3 p4 d4 _ _
              Hw' Hpl Hcl Hk) as [H0 H1].
  split; [rewrite Hrisk, Hprem | ]; qlra.
Qed.

(** The row that the scan returns on the chain of four options, and a
    position with its legs and its premium. *)
Definition first_row (l : list Condor) : option Condor :=
  match l with
  | c :: _ => Some c
  | [] => None
  end.

Definition no_row : Condor :=
  let r := chain_row put 0 0 0 0 in mkCondor r r r r 0 0 0 0 0 0 0 0.

Definition sample_row : Condor :=
  default no_row (first_row (scan engine_iron_condor mixed_expirations context_70)).

Definition sample_condor_position : Position :=
  mkPosition "Iron Condor" 0 (expiration sample_row) (dte sample_row) "UNKNOWN" 100
    (default [] (construct_legs sample_row))
    (total_credit sample_row * 100) (max_risk_ sample_row) 0 0 0 0 115 270
    None "SPY" open None None None.

Lemma condor_expiry_pnl_bounded_witness :
  - max_risk_ sample_row <= _calculate_expiry_pnl sample_condor_position 120
  /\ _calculate_expiry_pnl sample_condor_position 120
     <= premium_collected sample_condor_position.
Proof.
  apply (condor_expiry_pnl_bounded engine_iron_condor mixed_expirations context_70
           sample_row sample_condor_position 120).
  - vm_compute. left. reflexivity.
  - vm_compute. discriminate.
  - vm_compute. discriminate.
  - vm_compute. reflexivity.
  - vm_compute. reflexivity.
Defined.

End IronCondorExpiry.

(* ===================================================================== *)
(** * The range of the adaptive parameters                                *)
(* ===================================================================== *)

Module AdaptiveTargets.

Import AdaptiveConfig.

(** What [_build_config] returns lies within the extremes of the tables,
    for a classified ticker, an overridden one and an unknown one alike. *)
Lemma build_config_bounds (t : string) :
  20 <= profit_target_pct (_build_config t) <= 50
  /\ 100 <= stop_loss_pct (_build_config t) <= 200
  /\ (42 <= dte_min (_build_config t))%Z
  /\ (dte_min (_build_config t) < dte_max (_build_config t))%Z
  /\ (dte_max (_build_config t) <= 60)%Z.
Proof.
  unfold _build_config, build_config_with.
  assert (Hov : forall o, TICKER_OVERRIDES !! t = Some o ->
            (ov_profit_target_pct o = Some 20 \/ ov_profit_target_pct o = Some 30)
            /\ ov_stop_loss_pct o = None).
  { intros o Ho. unfold TICKER_OVERRIDES in Ho.
    apply elem_of_list_to_map_2 in Ho.
    repeat (apply elem_of_cons in Ho as [Ho|Ho];
            [injection Ho as _ ->; simpl; auto|]).
    now apply elem_of_nil in Ho. }
  destruct (TICKER_CLASSIFICATIONS !! t) as [[a v]|];
    destruct (TICKER_OVERRIDES !! t) as [o|].
  - destruct (Hov o eq_refl) as [[-> | ->] ->];
      destruct a, v; cbn; repeat split; try lia; try discriminate.
  - destruct a, v; cbn; repeat split; try lia; try discriminate.
  - destruct (Hov o eq_refl) as [[-> | ->] ->];
      cbn; repeat split; try lia; try discriminate.
  - cbn; repeat split; try lia; try discriminate.
Qed.

(** X16.  Whatever the ticker, known or not, and whatever was looked up
    before, the profit target of a premium that is not negative lies between
    20% and 50% of it, the stop loss between once and twice the absolute max
    risk, and the DTE range within 42 to 60 days, its lower end below its
    upper end. *)
Theorem adaptive_targets_bounded (ts : list string) (t : string)
  (premium_collected max_risk : Q) :
  0 <= premium_collected ->
  (premium_collected * (20 # 100)
     <= get_profit_target (after_lookups ts) t premium_collected
     <= premium_collected * (50 # 100))
  /\ (Qabs max_risk <= get_stop_loss (after_lookups ts) t max_risk
                    <= 2 * Qabs max_risk)
  /\ (42 <= (get_dte_range (after_lookups ts) t).1)%Z
  /\ ((get_dte_range (after_lookups ts) t).1 < (get_dte_range (after_lookups ts) t).2)%Z
  /\ ((get_dte_range (after_lookups ts) t).2 <= 60)%Z.
Proof.
  intros Hprem.
  unfold get_profit_target, get_stop_loss, get_dte_range.
  destruct (get_config_ok (after_lookups ts) t (after_lookups_ok ts)) as [-> _].
  destruct (build_config_bounds t) as ((P1 & P2) & (S1 & S2) & D1 & D2 & D3).
  pose proof (Qabs_nonneg max_risk) as Habs.
  cbn [fst snd].
  set (pt := profit_target_pct (_build_config t)) in *.
  set (sl := stop_loss_pct (_build_config t)) in *.
  repeat split; try lia; qdiv_literals; Lqa.nra.
Qed.

Lemma adaptive_targets_bounded_witness :
  (200 * (20 # 100)
     <= get_profit_target (after_lookups ["GLD"; "XYZ"]%string) "TSLA" 200
     <= 200 * (50 # 100))
  /\ (Qabs (-270) <= get_stop_loss (after_lookups ["GLD"; "XYZ"]%string) "TSLA" (-270)
                  <= 2 * Qabs (-270))
  /\ (42 <= (get_dte_range (after_lookups ["GLD"; "XYZ"]%string) "TSLA").1)%Z
  /\ ((get_dte_range (after_lookups ["GLD"; "XYZ"]%string) "TSLA").1
       < (get_dte_range (after_lookups ["GLD"; "XYZ"]%string) "TSLA").2)%Z
  /\ ((get_dte_range (after_lookups ["GLD"; "XYZ"]%string) "TSLA").2 <= 60)%Z.
Proof.
  apply (adaptive_targets_bounded ["GLD"; "XYZ"]%string "TSLA" 200 (-270)).
  vm_compute. discriminate.
Defined.

End AdaptiveTargets.

(* ===================================================================== *)
(** * The signs of the Greeks in exact arithmetic                         *)
(* ===================================================================== *)

Module GreeksSigns.

Import Pricing.

Local Open Scope R_scope.

Lemma std_normal_pdf_pos (x : R) : 0 < std_normal_pdf x.
Proof.
  unfold std_normal_pdf. apply Rmult_lt_0_compat; [|apply exp_pos].
  apply Rinv_0_lt_compat, sqrt_lt_R0.
  pose proof PI_RGT_0. rlra.
Qed.

Lemma Q2R_literal_1 : Q2R 1 = 1.
Proof. unfold Q2R. simpl. rlra. Qed.

Lemma Q2R_literal_2 : Q2R 2 = 2.
Proof. unfold Q2R. simpl. rlra. Qed.

Lemma Q2R_literal_100 : Q2R 100 = 100.
Proof. unfold Q2R. simpl. rlra. Qed.

Lemma Q2R_literal_365 : Q2R 365 = 365.
Proof. unfold Q2R. simpl. rlra. Qed.

(** X17.  In exact real arithmetic, with the normal density and any
    distribution function whose values lie strictly between 0 and 1, the
    table that [calculate_greeks] returns on a valid input has a call delta
    in (0, 1), a put delta in (-1, 0), a positive gamma and vega, a positive
    call rho and a negative put rho; the call theta is negative when the
    rate is not negative. *)
Theorem greeks_signs (cdf : R -> R) (S K T r sigma : R) :
  (forall x, 0 < cdf x < 1) ->
  0 < S -> 0 < K -> 0 < T -> 0 < sigma -> -1 <= r <= 1 ->
  exists g : GreeksTable R,
    @calculate_greeks R (real_ops cdf std_normal_pdf) S K T r sigma = Ok g
    /\ 0 < delta (greeks_call g) < 1
    /\ -1 < delta (greeks_put g) < 0
    /\ 0 < gamma (greeks_call g)
    /\ 0 < vega (greeks_call g)
    /\ 0 < rho (greeks_call g)
    /\ rho (greeks_put g) < 0
    /\ (0 <= r -> theta (greeks_call g) < 0).
Proof.
  intros Hcdf HS HK HT Hs Hr.
  pose proof (validate_inputs_real cdf std_normal_pdf S K T r sigma HS HK HT Hs Hr) as Hv.
  unfold calculate_greeks, calculate_d1_d2. rewrite Hv. simpl.
  eexists. split; [reflexivity|]. simpl.
  rewrite ?Q2R_literal_1, ?Q2R_literal_2, ?Q2R_literal_100, ?Q2R_literal_365.
  set (d1 := (ln (S / K) + _) / _).
  set (d2 := d1 - _).
  pose proof (Hcdf d1) as [C1 C1'].
  pose proof (Hcdf d2) as [C2 _].
  pose proof (Hcdf (- d2)) as [C3 _].
  pose proof (std_normal_pdf_pos d1) as Hpdf.
  pose proof (sqrt_lt_R0 T HT) as Hsq.
  pose proof (exp_pos (- r * T)) as Hexp.
  assert (Hden : 0 < S * sigma * sqrt T) by (repeat (assumption || apply Rmult_lt_0_compat)).
  assert (Hkt : 0 < K * T * exp (- r * T) * cdf d2)
    by (repeat (assumption || apply Rmult_lt_0_compat)).
  assert (Hkt' : 0 < K * T * exp (- r * T) * cdf (- d2))
    by (repeat (assumption || apply Rmult_lt_0_compat)).
  assert (Hnum : 0 < S * std_normal_pdf d1 * sigma)
    by (repeat (assumption || apply Rmult_lt_0_compat)).
  repeat split.
  - exact C1.
  - exact C1'.
  - rlra.
  - rlra.
  - apply Rdiv_lt_0_compat; assumption.
  - apply Rdiv_lt_0_compat; [|rlra].
    repeat (assumption || apply Rmult_lt_0_compat).
  - apply Rdiv_lt_0_compat; [assumption | rlra].
  - replace (- K * T * exp (- r * T) * cdf (- d2))
      with (- (K * T * exp (- r * T) * cdf (- d2))) by ring.
    unfold Rdiv. rewrite <- Ropp_mult_distr_l.
    apply Ropp_lt_gt_0_contravar. apply Rmult_lt_0_compat; [assumption|].
    apply Rinv_0_lt_compat. rlra.
  - intros Hr0.
    assert (Hc : 0 < S * std_normal_pdf d1 * sigma / (2 * sqrt T))
      by (apply Rdiv_lt_0_compat; [assumption | rlra]).
    assert (Hrk : 0 <= r * K * exp (- r * T) * cdf d2).
    { repeat apply Rmult_le_pos; try assumption; apply Rlt_le; assumption. }
    unfold Rdiv in *. rewrite <- Ropp_mult_distr_l.
    apply Ropp_lt_cancel. rewrite Ropp_0, Ropp_mult_distr_l.
    apply Rmult_lt_0_compat; [rlra|]. apply Rinv_0_lt_compat. rlra.
Qed.

Lemma greeks_signs_witness :
  exists g : GreeksTable R,
    @calculate_greeks R (real_ops (fun _ => 1 / 2) std_normal_pdf)
        100 100 1 (5 / 100) (2 / 10) = Ok g
    /\ 0 < delta (greeks_call g) < 1
    /\ -1 < delta (greeks_put g) < 0
    /\ 0 < gamma (greeks_call g)
    /\ 0 < vega (greeks_call g)
    /\ 0 < rho (greeks_call g)
    /\ rho (greeks_put g) < 0
    /\ (0 <= 5 / 100 -> theta (greeks_call g) < 0).
Proof.
  apply (greeks_signs (fun _ => 1 / 2) 100 100 1 (5 / 100) (2 / 10));
    try rlra.
  intros x. rlra.
Defined.

End GreeksSigns.

(* ===================================================================== *)
(** * What the option selector lets through                               *)
(* ===================================================================== *)

Module SelectorFacts.

Import IronCondorScan.

Lemma py_int_15 (n : Z) : (0 <= n)%Z -> (n <= py_int (inject_Z n * (15 # 10)))%Z.
Proof.
  intros Hn. unfold py_int. cbn [Qnum Qden Qmult inject_Z Pos.mul].
  rewrite Z.quot_div_nonneg by lia. apply Z.div_le_lower_bound; lia.
Qed.

Lemma py_int_12 (n : Z) : (0 <= n)%Z -> (n <= py_int (inject_Z n * (12 # 10)))%Z.
Proof.
  intros Hn. unfold py_int. cbn [Qnum Qden Qmult inject_Z Pos.mul].
  rewrite Z.quot_div_nonneg by lia. apply Z.div_le_lower_bound; lia.
Qed.

(** With thresholds that are not negative, [adjust_for_dte] never lowers
    the volume and the open interest required. *)
Lemma liquidity_adjust_tightens (f : LiquidityFilter) (dte : Z) :
  (0 <= min_volume f)%Z -> (0 <= min_oi f)%Z ->
  (min_volume f <= min_volume (liquidity_adjust_for_dte f dte))%Z
  /\ (min_oi f <= min_oi (liquidity_adjust_for_dte f dte))%Z.
Proof.
  intros Hv Ho. unfold liquidity_adjust_for_dte.
  destruct (dte <=? 21)%Z; [|destruct (dte <=? 35)%Z]; cbn [min_volume min_oi].
  - split; now apply py_int_15.
  - split; now apply py_int_12.
  - lia.
Qed.

(** A selected row went through the four filters, the liquidity filter
    being the one adjusted to the median DTE of the frame. *)
Lemma select_In (s : OptionSelector) (col : option Q) (df : list OptionRow)
  (r : OptionRow) :
  In r (select s col df) ->
  exists avg_dte,
    In r df
    /\ ((dte_range s).1 <= row_dte r)%Z /\ (row_dte r <= (dte_range s).2)%Z
    /\ (min_volume (liquidity_adjust_for_dte (liquidity s) (py_int avg_dte))
          <= row_volume r)%Z
    /\ (min_oi (liquidity_adjust_for_dte (liquidity s) (py_int avg_dte))
          <= row_oi r)%Z
    /\ has_type (option_type s) r = true
    /\ (delta_range s).1 <= Qabs (row_delta r)
    /\ Qabs (row_delta r) <= (delta_range s).2.
Proof.
  unfold select. destruct (median _) as [avg_dte|]; [|intros []].
  intros H. exists avg_dte.
  unfold delta_filter, volatility_filter, liquidity_filter, dte_filter in H.
  apply List.filter_In in H as [H Hd].
  apply List.filter_In in H as [H Ht].
  apply List.filter_In in H as [H _].
  apply List.filter_In in H as [H Hl].
  apply List.filter_In in H as [H Hdte].
  apply Bool.andb_true_iff in Hd as [Hd1 Hd2].
  apply Bool.andb_true_iff in Hl as [Hl _].
  apply Bool.andb_true_iff in Hl as [Hl1 Hl2].
  apply Bool.andb_true_iff in Hdte as [Hdte1 Hdte2].
  apply Qle_bool_iff in Hd1, Hd2. apply Z.leb_le in Hl1, Hl2, Hdte1, Hdte2.
  repeat split; assumption.
Qed.

(** X18.  A row that [OptionSelector.select] returns is a row of the frame
    of the selector's option type, its DTE and its absolute delta lie
    within the selector's ranges, and its volume and open interest reach the
    selector's thresholds, which the adjustment to the DTE can raise and not
    lower when they are not negative. *)
Theorem select_rows_qualify (s : OptionSelector) (col : option Q)
  (df : list OptionRow) (r : OptionRow) :
  (0 <= min_volume (liquidity s))%Z ->
  (0 <= min_oi (liquidity s))%Z ->
  In r (select s col df) ->
  In r df
  /\ has_type (option_type s) r = true
  /\ ((dte_range s).1 <= row_dte r)%Z /\ (row_dte r <= (dte_range s).2)%Z
  /\ (delta_range s).1 <= Qabs (row_delta r)
  /\ Qabs (row_delta r) <= (delta_range s).2
  /\ (min_volume (liquidity s) <= row_volume r)%Z
  /\ (min_oi (liquidity s) <= row_oi r)%Z.
Proof.
  intros Hv Ho Hin.
  destruct (select_In _ _ _ _ Hin)
    as (avg_dte & Hdf & Hd1 & Hd2 & Hvol & Hoi & Hty & Hdl1 & Hdl2).
  destruct (liquidity_adjust_tightens (liquidity s) (py_int avg_dte) Hv Ho)
    as [Hv' Ho'].
  repeat split; try assumption; lia.
Qed.

Lemma select_rows_qualify_witness :
  let r := chain_row put 95 45 (20 # 100) (150 # 100) in
  let s := _create_selector engine_iron_condor put short in
  In r mixed_expirations
  /\ has_type (option_type s) r = true
  /\ ((dte_range s).1 <= row_dte r)%Z /\ (row_dte r <= (dte_range s).2)%Z
  /\ (delta_range s).1 <= Qabs (row_delta r)
  /\ Qabs (row_delta r) <= (delta_range s).2
  /\ (min_volume (liquidity s) <= row_volume r)%Z
  /\ (min_oi (liquidity s) <= row_oi r)%Z.
Proof.
  apply (select_rows_qualify (_create_selector engine_iron_condor put short)
           (Some 70) mixed_expirations
           (chain_row put 95 45 (20 # 100) (150 # 100))).
  - vm_compute. discriminate.
  - vm_compute. discriminate.
  - vm_compute. left. reflexivity.
Defined.

Lemma filter_none {A} (f : A -> bool) (l : list A) :
  (forall x, In x l -> f x = false) -> List.filter f l = [].
Proof.
  induction l as [|x l IH]; intros H; simpl; [reflexivity|].
  rewrite (H x (or_introl eq_refl)). apply IH. intros y Hy. apply H. now right.
Qed.

(** The selectors of the strategy return nothing when the IV rank of the
    market is below the minimum of the strategy. *)
Lemma select_below_iv_rank (ic : IronCondor) (ty : OptionType) (side : Side)
  (rank : Q) (df : list OptionRow) :
  rank < ic_min_iv_rank ic ->
  ~ ic_min_iv_rank ic == 0 ->
  select (_create_selector ic ty side) (Some rank) df = [].
Proof.
  intros Hlt Hnz. unfold select. destruct (median _) as [avg_dte|]; [|reflexivity].
  cbn [volatility _create_selector].
  match goal with
  | |- delta_filter _ _ (volatility_filter ?f ?c ?l) = _ =>
      assert (E : volatility_filter f c l = [])
  end.
  { unfold volatility_filter. apply filter_none. intros x _.
    apply Bool.andb_false_iff. right.
    unfold volatility_adjust_for_dte.
    destruct (py_int avg_dte <=? 21)%Z; cbn [min_iv_rank if_truthy].
    - destruct (Qeq_bool (ic_min_iv_rank ic) 0) eqn:Ez.
      + apply Qeq_bool_iff in Ez. contradiction.
      + cbn [at_least].
        destruct (Qle_bool _ rank) eqn:El; [|reflexivity].
        apply Qle_bool_iff in El.
        destruct (py_max_spec (ic_min_iv_rank ic + 10) 70) as [[A B]|[A B]];
          rewrite B in El; qlra.
    - cbn [at_least].
      destruct (Qle_bool _ rank) eqn:El; [|reflexivity].
      apply Qle_bool_iff in El. qlra. }
  rewrite E. reflexivity.
Qed.

(** X19.  [IronCondor.scan] returns no row when the market data carry an IV
    rank below the strategy's minimum, if that minimum is not zero. *)
Theorem scan_empty_below_iv_rank (ic : IronCondor) (options_data : list OptionRow)
  (m : MarketContext) (rank : Q) :
  iv_rank m = Some rank ->
  rank < ic_min_iv_rank ic ->
  ~ ic_min_iv_rank ic == 0 ->
  scan ic options_data m = [].
Proof.
  intros Hm Hlt Hnz. unfold scan. rewrite Hm.
  rewrite (select_below_iv_rank ic put short rank _ Hlt Hnz). reflexivity.
Qed.

Lemma scan_empty_below_iv_rank_witness :
  scan engine_iron_condor mixed_expirations (mkMarketContext (Some 55) 100) = [].
Proof.
  apply (scan_empty_below_iv_rank engine_iron_condor mixed_expirations
           (mkMarketContext (Some 55) 100) 55).
  - reflexivity.
  - vm_compute. reflexivity.
  - vm_compute. discriminate.
Defined.

(** The short legs of a row of the scan are rows the two short selectors
    returned. *)
Lemma scan_shorts_selected (ic : IronCondor) (options_data : list OptionRow)
  (m : MarketContext) (c : Condor) :
  In c (scan ic options_data m) ->
  In (put_short c)
     (select (_create_selector ic put short) (iv_rank m)
             (List.filter (has_type put) options_data))
  /\ In (call_short c)
        (select (_create_selector ic call short) (iv_rank m)
                (List.filter (has_type call) options_data)).
Proof.
  unfold scan.
  set (put_shorts := select (_create_selector ic put short) (iv_rank m)
                            (List.filter (has_type put) options_data)).
  set (call_shorts := select (_create_selector ic call short) (iv_rank m)
                             (List.filter (has_type call) options_data)).
  destruct put_shorts as [|p0 ps0] eqn:Ep; [intros []|].
  destruct call_shorts as [|c0 cs0] eqn:Ec; [intros []|].
  intros Hin.
  apply (Permutation_in c (Permutation_sym (sort_desc_perm return_on_risk _))) in Hin.
  apply List.filter_In in Hin as [Hin _].
  apply List.in_flat_map in Hin as (d & _ & Hin).
  unfold condors_of_date in Hin.
  apply List.in_flat_map in Hin as (ps & Hps & Hin).
  apply List.filter_In in Hps as [Hps _].
  destruct (find_long options_data _ put d) as [pl|]; [|destruct Hin].
  apply List.in_flat_map in Hin as (cs & Hcs & Hin).
  apply List.filter_In in Hcs as [Hcs _].
  destruct (find_long options_data _ call d) as [cl|]; [|destruct Hin].
  destruct (build_condor ic d ps pl cs cl) as [c'|] eqn:Eb; [|destruct Hin].
  destruct Hin as [<-|[]].
  apply build_condor_spec in Eb as (-> & _ & -> & _).
  split; assumption.
Qed.

(** X20.  In every row of the scan, the short put and the short call come
    from the option frame, have a DTE within the strategy's range, an
    absolute delta within its short delta range, and the volume and open
    interest it asks for (minimums not negative).  The long legs are looked
    up by strike and are held to none of this. *)
Theorem scan_short_legs_qualify (ic : IronCondor) (options_data : list OptionRow)
  (m : MarketContext) (c : Condor) (r : OptionRow) :
  (0 <= ic_min_volume ic)%Z ->
  (0 <= ic_min_open_interest ic)%Z ->
  In c (scan ic options_data m) ->
  r = put_short c \/ r = call_short c ->
  In r options_data
  /\ ((ic_dte_range ic).1 <= row_dte r)%Z /\ (row_dte r <= (ic_dte_range ic).2)%Z
  /\ (short_delta_range ic).1 <= Qabs (row_delta r)
  /\ Qabs (row_delta r) <= (short_delta_range ic).2
  /\ (ic_min_volume ic <= row_volume r)%Z
  /\ (ic_min_open_interest ic <= row_oi r)%Z.
Proof.
  intros Hv Ho Hin Hr.
  destruct (scan_shorts_selected _ _ _ _ Hin) as [Hp Hc].
  assert (Hsel : exists ty,
            In r (select (_create_selector ic ty short) (iv_rank m)
                         (List.filter (has_type ty) options_data))).
  { destruct Hr as [-> | ->]; [exists put | exists call]; assumption. }
  destruct Hsel as (ty & Hsel).
  destruct (select_In _ _ _ _ Hsel)
    as (avg_dte & Hdf & Hd1 & Hd2 & Hvol & Hoi & _ & Hdl1 & Hdl2).
  apply List.filter_In in Hdf as [Hdf _].
  destruct (liquidity_adjust_tightens
              (liquidity (_create_selector ic ty short)) (py_int avg_dte) Hv Ho)
    as [Hv' Ho'].
  cbn [_create_selector liquidity dte_range delta_range min_volume min_oi] in *.
  repeat split; try assumption; lia.
Qed.

Lemma scan_short_legs_qualify_witness :
  let r := chain_row call 105 45 (20 # 100) (140 # 100) in
  let ic := engine_iron_condor in
  In r mixed_expirations
  /\ ((ic_dte_range ic).1 <= row_dte r)%Z /\ (row_dte r <= (ic_dte_range ic).2)%Z
  /\ (short_delta_range ic).1 <= Qabs (row_delta r)
  /\ Qabs (row_delta r) <= (short_delta_range ic).2
  /\ (ic_min_volume ic <= row_volume r)%Z
  /\ (ic_min_open_interest ic <= row_oi r)%Z.
Proof.
  apply (scan_short_legs_qualify engine_iron_condor mixed_expirations context_70
           (default IronCondorExpiry.no_row
              (IronCondorExpiry.first_row
                 (scan engine_iron_condor mixed_expirations context_70)))
           (chain_row call 105 45 (20 # 100) (140 # 100))).
  - vm_compute. discriminate.
  - vm_compute. discriminate.
  - vm_compute. left. reflexivity.
  - right. vm_compute. reflexivity.
Defined.

End SelectorFacts.

(* ===================================================================== *)
(** * Where the estimate of the underlying lies                           *)
(* ===================================================================== *)

Module EstimateFacts.

Import MarketData.

Lemma insert_sorted_In (x y : Q) (l : list Q) :
  In y (insert_sorted x l) -> y = x \/ In y l.
Proof.
  induction l as [|z l IH]; simpl.
  - intros [<-|[]]. now left.
  - destruct (Qle_bool x z); simpl.
    + intros [<-|H]; [now left | now right].
    + intros [<-|H]; [right; now left|].
      destruct (IH H) as [->|H']; [now left | right; now right].
Qed.

Lemma sort_values_In (y : Q) (l : list Q) : In y (sort_values l) -> In y l.
Proof.
  unfold sort_values. induction l as [|x l IH]; simpl; [tauto|].
  intros H. apply insert_sorted_In in H as [->|H]; [now left | right; now apply IH].
Qed.

(** The median of a column lies between two of its values. *)
Lemma median_between (l : list Q) (m : Q) :
  median l = Some m ->
  exists a b, In a l /\ In b l /\ a <= m /\ m <= b.
Proof.
  unfold median. set (s := sort_values l).
  destruct (List.length s) as [|k]; [discriminate|].
  destruct (Nat.even (S k)).
  - destruct (nth_error s (S k / 2 - 1)) as [a|] eqn:Ea; [|discriminate].
    destruct (nth_error s (S k / 2)) as [b|] eqn:Eb; [|discriminate].
    intros H. injection H as <-.
    apply nth_error_In, sort_values_In in Ea, Eb.
    destruct (Qlt_le_dec a b) as [Hab|Hab].
    + exists a, b. repeat split; try assumption; qarith.
    + exists b, a. repeat split; try assumption; qarith.
  - intros H. apply nth_error_In, sort_values_In in H.
    exists m, m. repeat split; try assumption; qlra.
Qed.

Lemma estimate_between (options : list OptionRow) (u : Q) :
  _estimate_underlying_price options = Some u ->
  exists lo hi,
    In lo options /\ In hi options
    /\ is_call lo = true /\ is_call hi = true
    /\ row_strike lo <= u /\ u <= row_strike hi.
Proof.
  unfold _estimate_underlying_price.
  destruct options as [|o options']; [discriminate|].
  set (options := o :: options').
  destruct (List.filter is_call options) as [|c calls'] eqn:Ecalls; [discriminate|].
  assert (Hcalls : forall r, In r (c :: calls') -> In r options /\ is_call r = true).
  { intros r Hr. rewrite <- Ecalls in Hr. now apply List.filter_In in Hr. }
  destruct (List.filter near_atm (c :: calls')) as [|a atm'] eqn:Eatm.
  - intros H. injection H as <-.
    pose proof (closest_to_half_in c calls') as Hin.
    destruct (Hcalls _ Hin) as [H1 H2].
    exists (closest_to_half c calls'), (closest_to_half c calls').
    repeat split; try assumption; qlra.
  - intros H. apply median_between in H as (x & y & Hx & Hy & Hle1 & Hle2).
    apply List.in_map_iff in Hx as (lo & <- & Hlo).
    apply List.in_map_iff in Hy as (hi & <- & Hhi).
    rewrite <- Eatm in Hlo, Hhi.
    apply List.filter_In in Hlo as [Hlo _]. apply List.filter_In in Hhi as [Hhi _].
    destruct (Hcalls _ Hlo) as [L1 L2]. destruct (Hcalls _ Hhi) as [H1 H2].
    exists lo, hi. repeat split; assumption.
Qed.

(** X21.  The underlying price that the loader reports for a ticker and a
    date lies between the strikes of two call rows of that ticker and that
    date: the estimate never leaves the range of the day's call strikes. *)
Theorem underlying_price_within_call_strikes (chain : string -> list OptionRow)
  (t : string) (d : Z) (u : Q) :
  get_underlying_price chain t d = Some u ->
  exists lo hi,
    In lo (chain t) /\ In hi (chain t)
    /\ row_date lo = d /\ row_date hi = d
    /\ is_call lo = true /\ is_call hi = true
    /\ row_strike lo <= u /\ u <= row_strike hi.
Proof.
  unfold get_underlying_price.
  destruct (List.filter (on_date d) (chain t)) as [|r0 rows] eqn:E; [discriminate|].
  intros H. apply estimate_between in H as (lo & hi & Hlo & Hhi & Hrest).
  rewrite <- E in Hlo, Hhi.
  apply List.filter_In in Hlo as [Hlo Hdlo]. apply List.filter_In in Hhi as [Hhi Hdhi].
  unfold on_date in Hdlo, Hdhi. apply Z.eqb_eq in Hdlo, Hdhi.
  exists lo, hi. repeat split; try assumption; apply Hrest.
Qed.

Lemma underlying_price_within_call_strikes_witness :
  exists lo hi,
    In lo (Engine.spy_chain "SPY") /\ In hi (Engine.spy_chain "SPY")
    /\ row_date lo = 1%Z /\ row_date hi = 1%Z
    /\ is_call lo = true /\ is_call hi = true
    /\ row_strike lo <= 100 /\ 100 <= row_strike hi.
Proof.
  apply (underlying_price_within_call_strikes Engine.spy_chain "SPY" 1 100).
  reflexivity.
Defined.

End EstimateFacts.

(* ===================================================================== *)
(** * Exit decision of the risk manager (RiskManager, risk_manager.py)    *)
(* ===================================================================== *)

Module RiskManager.

(** [RiskParameters]. *)
Record RiskParameters := mkRiskParameters {
  profit_target : Q;
  profit_target_pct : Q;
  stop_loss : Q;
  stop_loss_pct : Q;
  max_position_size : Q;
  max_gamma_exposure : Q;
  rollout_threshold_days : Z;
  adjustment_delta_threshold : Q
}.

(** The reason [should_exit] returns: the label its string starts with, and
    the numbers the string then prints. *)
Inductive ExitReason :=
| profit_target_reached (current_pnl target : Q)
| stop_loss_hit (current_pnl stop : Q)
| rollout_threshold (dte days : Z)
| delta_threshold_exceeded (delta threshold : Q)
| expiration
| holding.

(** [RiskManager.should_exit]. *)
Definition should_exit (entry_credit current_value : Q) (dte : Z)
  (current_delta : Q) (risk_params : RiskParameters) : bool * ExitReason :=
  let current_pnl := entry_credit - current_value in
  if Qle_bool (profit_target risk_params) current_pnl then
    (true, profit_target_reached current_pnl (profit_target risk_params))
  else if Qle_bool current_pnl (- stop_loss risk_params) then
    (true, stop_loss_hit current_pnl (stop_loss risk_params))
  else if (dte <=? rollout_threshold_days risk_params)%Z then
    (true, rollout_threshold dte (rollout_threshold_days risk_params))
  else if Qle_bool (adjustment_delta_threshold risk_params) (Qabs current_delta) then
    (true, delta_threshold_exceeded (Qabs current_delta)
             (adjustment_delta_threshold risk_params))
  else if (dte <=? 0)%Z then (true, expiration)
  else (false, holding).

(** X22.  With a rollout threshold that is not negative, [should_exit] never
    answers "expiration": a position at or past its expiration is closed for
    one of the four reasons tested before.  It holds the position exactly
    when the P&L is strictly between the stop loss and the profit target,
    more days remain than the rollout threshold, and the absolute delta is
    below its threshold; in every other case it asks to exit. *)
Theorem should_exit_reasons (entry_credit current_value : Q) (dte : Z)
  (current_delta : Q) (risk_params : RiskParameters) :
  (0 <= rollout_threshold_days risk_params)%Z ->
  let answer := should_exit entry_credit current_value dte current_delta risk_params in
  answer.2 <> expiration
  /\ (answer.1 = false <-> answer.2 = holding)
  /\ (answer.2 = holding <->
        - stop_loss risk_params < entry_credit - current_value
        /\ entry_credit - current_value < profit_target risk_params
        /\ (rollout_threshold_days risk_params < dte)%Z
        /\ Qabs current_delta < adjustment_delta_threshold risk_params).
Proof.
  intros Hroll. unfold should_exit. cbn zeta.
  destruct (Qle_bool (profit_target risk_params) (entry_credit - current_value)) eqn:E1.
  { apply Qle_bool_iff in E1. cbn [fst snd].
    repeat split; try discriminate; intros H; try discriminate.
    destruct H as (_ & H & _). exfalso. apply (Qlt_not_le _ _ H E1). }
  destruct (Qle_bool (entry_credit - current_value) (- stop_loss risk_params)) eqn:E2.
  { apply Qle_bool_iff in E2. cbn [fst snd].
    repeat split; try discriminate; intros H; try discriminate.
    destruct H as (H & _). exfalso. apply (Qlt_not_le _ _ H E2). }
  destruct (dte <=? rollout_threshold_days risk_params)%Z eqn:E3.
  { apply Z.leb_le in E3. cbn [fst snd].
    repeat split; try discriminate; intros H; try discriminate.
    destruct H as (_ & _ & H & _). lia. }
  destruct (Qle_bool (adjustment_delta_threshold risk_params) (Qabs current_delta)) eqn:E4.
  { apply Qle_bool_iff in E4. cbn [fst snd].
    repeat split; try discriminate; intros H; try discriminate.
    destruct H as (_ & _ & _ & H). exfalso. apply (Qlt_not_le _ _ H E4). }
  apply Z.leb_gt in E3.
  assert (E5 : (dte <=? 0)%Z = false) by (apply Z.leb_gt; lia).
  rewrite E5. cbn [fst snd].
  assert (N1 : ~ profit_target risk_params <= entry_credit - current_value)
    by (intros H; apply Qle_bool_iff in H; congruence).
  assert (N2 : ~ entry_credit - current_value <= - stop_loss risk_params)
    by (intros H; apply Qle_bool_iff in H; congruence).
  assert (N4 : ~ adjustment_delta_threshold risk_params <= Qabs current_delta)
    by (intros H; apply Qle_bool_iff in H; congruence).
  apply Qnot_le_lt in N1, N2, N4.
  repeat split; try discriminate; try assumption; reflexivity.
Qed.

(** The parameters [calculate_iron_condor_risk] gives a condor of 40 DTE
    with a credit of $200 on a width of 5. *)
Definition long_dated_parameters : RiskParameters :=
  mkRiskParameters 100 50 400 200 5 (8 # 100) 21 (60 # 100).

Lemma should_exit_reasons_witness :
  let answer := should_exit 200 150 0 (10 # 100) long_dated_parameters in
  answer.2 <> expiration
  /\ (answer.1 = false <-> answer.2 = holding)
  /\ (answer.2 = holding <->
        - stop_loss long_dated_parameters < 200 - 150
        /\ 200 - 150 < profit_target long_dated_parameters
        /\ (rollout_threshold_days long_dated_parameters < 0)%Z
        /\ Qabs (10 # 100) < adjustment_delta_threshold long_dated_parameters).
Proof.
  apply (should_exit_reasons 200 150 0 (10 # 100) long_dated_parameters).
  vm_compute. discriminate.
Defined.

End RiskManager.

(* ===================================================================== *)
(** * What the quality score responds to                                  *)
(* ===================================================================== *)

Module ScorerFacts.

Import Scorer.

Lemma sumQ_from (l : list Q) (a : Q) : fold_left Qplus l a == a + sumQ l.
Proof.
  unfold sumQ. revert a. induction l as [|x l IH]; intros a; simpl; [qlra|].
  rewrite (IH (a + x)), (IH (0 + x)). qlra.
Qed.

Lemma sumQ_constant {A} (f : A -> Q) (c : Q) (l : list A) :
  (forall x, f x = c) ->
  sumQ (map f l) == c * inject_Z (Z.of_nat (List.length l)).
Proof.
  intros Hf. induction l as [|x l IH].
  - unfold sumQ. simpl. change (inject_Z 0) with 0. ring.
  - unfold sumQ in *. cbn [map fold_left List.length].
    rewrite sumQ_from. unfold sumQ. rewrite IH, Hf.
    rewrite Nat2Z.inj_succ. unfold Z.succ. rewrite inject_Z_plus.
    change (inject_Z 1) with 1. ring.
Qed.

Lemma py_min_mono (x y : Q) : x <= y -> py_min x 1 <= py_min y 1.
Proof.
  intros H.
  destruct (py_min_spec x 1) as [[A ->]|[A ->]];
    destruct (py_min_spec y 1) as [[B ->]|[B ->]]; qlra.
Qed.

(** X23.  When the scan row has none of the attributes [call_volume],
    [put_volume], [call_oi] and [put_oi], every leg counts for the default
    of 100, and the liquidity term of a position with legs is 0.1125 whatever
    the position: it ranks no candidate above another. *)
Theorem liquidity_term_is_constant (p : Position) (m : MarketContext)
  (c : Components) :
  legs p <> [] ->
  score_components no_liquidity_columns p m = Some c ->
  liquidity_score c == 1125 # 10000.
Proof.
  intros Hlegs. unfold score_components.
  destruct (return_on_risk p) as [ror|]; [|discriminate].
  cbn. intros H. injection H as <-. cbn [liquidity_score].
  assert (Hn : List.length (legs p) <> O) by (destruct (legs p); [congruence | discriminate]).
  assert (Hv : average (sumQ (map (leg_volume no_liquidity_columns) (legs p)))
                       (List.length (legs p)) == 100).
  { assert (E := sumQ_constant (leg_volume no_liquidity_columns) 100 (legs p)).
    unfold average in *. destruct (List.length (legs p)) as [|k] eqn:Ek; [congruence|].
    rewrite E by (intros x; unfold leg_volume; now destruct (leg_type x)).
    field. change 0 with (inject_Z 0). rewrite inject_Z_injective. lia. }
  assert (Ho : average (sumQ (map (leg_oi no_liquidity_columns) (legs p)))
                       (List.length (legs p)) == 100).
  { assert (E := sumQ_constant (leg_oi no_liquidity_columns) 100 (legs p)).
    unfold average in *. destruct (List.length (legs p)) as [|k] eqn:Ek; [congruence|].
    rewrite E by (intros x; unfold leg_oi; now destruct (leg_type x)).
    field. change 0 with (inject_Z 0). rewrite inject_Z_injective. lia. }
  set (av := average (sumQ (map (leg_volume _) _)) _) in *.
  set (ao := average (sumQ (map (leg_oi _) _)) _) in *.
  destruct (py_min_spec (av / 100) 1) as [[A ->]|[A ->]];
    destruct (py_min_spec (ao / 200) 1) as [[B ->]|[B ->]];
    revert A B; qdiv_literals; intros A B; qlra.
Qed.

Lemma liquidity_term_is_constant_witness :
  exists c,
    score_components no_liquidity_columns (sample_position 200 9800 30)
      (mkMarketContext (Some 70)) = Some c
    /\ liquidity_score c == 1125 # 10000.
Proof.
  eexists. split; [reflexivity|].
  apply (liquidity_term_is_constant (sample_position 200 9800 30)
           (mkMarketContext (Some 70))).
  - discriminate.
  - reflexivity.
Defined.

(** X24.  Of two positions with the same max risk, DTE and legs, scored
    against the same scan row and market, the one with the larger premium
    never gets the lower score. *)
Theorem score_grows_with_premium (o : Opportunity) (m : MarketContext)
  (p p' : Position) (c c' : Components) :
  max_risk p' = max_risk p ->
  dte_at_entry p' = dte_at_entry p ->
  legs p' = legs p ->
  premium_collected p <= premium_collected p' ->
  score_components o p m = Some c ->
  score_components o p' m = Some c' ->
  total_score c <= total_score c'.
Proof.
  intros Hr Hd Hl Hp. unfold score_components, return_on_risk.
  rewrite Hr, Hd, Hl.
  destruct (Qeq_bool (Qabs (max_risk p)) 0) eqn:Ez; [discriminate|].
  cbn. intros H H'. injection H as <-. injection H' as <-.
  unfold total_score.
  cbn [ror_score dte_score liquidity_score iv_score credit_score delta_score].
  assert (Ha : 0 < Qabs (max_risk p)).
  { pose proof (Qabs_nonneg (max_risk p)) as Hn.
    destruct (Qlt_le_dec 0 (Qabs (max_risk p))) as [Hlt|Hle]; [exact Hlt|].
    assert (E : Qabs (max_risk p) == 0) by qlra.
    apply Qeq_bool_iff in E. congruence. }
  assert (Hi : 0 <= / Qabs (max_risk p)) by (apply Qlt_le_weak, Qinv_lt_0_compat, Ha).
  assert (H1 : premium_collected p / Qabs (max_risk p) * 100 / 400
               <= premium_collected p' / Qabs (max_risk p) * 100 / 400).
  { pose proof (Qmult_le_compat_r _ _ _ Hp Hi) as Hm.
    unfold Qdiv at 2 4. revert Hm. generalize (/ Qabs (max_risk p)).
    intros ia Hm. qarith. }
  assert (H2 : premium_collected p / 500 <= premium_collected p' / 500) by qarith.
  pose proof (py_min_mono _ _ H1) as M1.
  pose proof (py_min_mono _ _ H2) as M2.
  revert M1 M2.
  generalize (py_min (premium_collected p / Qabs (max_risk p) * 100 / 400) 1).
  generalize (py_min (premium_collected p' / Qabs (max_risk p) * 100 / 400) 1).
  generalize (py_min (premium_collected p / 500) 1).
  generalize (py_min (premium_collected p' / 500) 1).
  intros a b x y M1 M2. qlra.
Qed.

Lemma score_grows_with_premium_witness :
  exists c c',
    score_components no_liquidity_columns (sample_position 200 9800 30)
      (mkMarketContext (Some 70)) = Some c
    /\ score_components no_liquidity_columns (sample_position 300 9800 30)
         (mkMarketContext (Some 70)) = Some c'
    /\ total_score c <= total_score c'.
Proof.
  do 2 eexists. split; [reflexivity|]. split; [reflexivity|].
  apply (score_grows_with_premium no_liquidity_columns (mkMarketContext (Some 70))
           (sample_position 200 9800 30) (sample_position 300 9800 30)).
  - reflexivity.
  - reflexivity.
  - reflexivity.
  - vm_compute. discriminate.
  - reflexivity.
  - reflexivity.
Defined.

End ScorerFacts.

(* ===================================================================== *)
(** * Maximum drawdown of the equity curve                                *)
(* ===================================================================== *)

Module Drawdown.

Import EngineFacts.

(** A float that may not be a finite number: the result of a division of
    the equity series. *)
Inductive Number := finite (q : Q) | pos_inf | neg_inf | nan.

(** Division of two numbers, as numpy divides: by zero it gives NaN for a
    zero numerator and an infinity of the numerator's sign otherwise. *)
Definition divide (a b : Q) : Number :=
  if Qeq_bool b 0 then
    if Qeq_bool a 0 then nan else if Qlt_bool a 0 then neg_inf else pos_inf
  else finite (a / b).

Definition times (x : Number) (k : Q) : Number :=
  match x with
  | finite q => finite (q * k)
  | other => other
  end.

Definition number_lt (a b : Number) : bool :=
  match a, b with
  | nan, _ | _, nan => false
  | neg_inf, neg_inf => false
  | neg_inf, _ => true
  | _, neg_inf => false
  | pos_inf, _ => false
  | finite _, pos_inf => true
  | finite x, finite y => Qlt_bool x y
  end.

(** [Series.min()] on floats: NaN values are skipped, and the minimum of
    nothing is NaN. *)
Definition min_skipna (l : list Number) : Number :=
  fold_left (fun acc x =>
               match x, acc with
               | nan, _ => acc
               | _, nan => x
               | _, _ => if number_lt x acc then x else acc
               end) l nan.

(** [Series.min()] on a series of numbers. *)
Definition series_min (l : list Q) : option Q :=
  match l with
  | [] => None
  | x :: l' => Some (fold_left py_min l' x)
  end.

(** [Series.expanding().max()]: the maximum so far, at every index. *)
Fixpoint running_max_from (m : Q) (l : list Q) : list Q :=
  match l with
  | [] => []
  | x :: l' => py_max m x :: running_max_from (py_max m x) l'
  end.

Definition expanding_max (l : list Q) : list Q :=
  match l with
  | [] => []
  | x :: l' => x :: running_max_from x l'
  end.

Fixpoint zip_with {A B C} (f : A -> B -> C) (l : list A) (l' : list B) : list C :=
  match l, l' with
  | x :: t, y :: t' => f x y :: zip_with f t t'
  | _, _ => []
  end.

(** [BacktestEngine._calculate_max_drawdown]: the pair it returns. *)
Definition _calculate_max_drawdown (equity_curve : list EquityRecord) : Q * Number :=
  match equity_curve with
  | [] => (0, finite 0)
  | _ =>
      let equity_series := map e_equity equity_curve in
      let running_max := expanding_max equity_series in
      let drawdown := zip_with Qminus equity_series running_max in
      let drawdown_pct := zip_with (fun d m => times (divide d m) 100) drawdown running_max in
      (default 0 (series_min drawdown), min_skipna drawdown_pct)
  end.

Lemma py_max_same (x : Q) : py_max x x = x.
Proof.
  unfold py_max. destruct (Qlt_bool x x) eqn:E; reflexivity.
Qed.

Lemma expanding_max_from (x : Q) (l : list Q) :
  expanding_max (x :: l) = running_max_from x (x :: l).
Proof. simpl. now rewrite py_max_same. Qed.

(** The running maximum at an index is one of the values up to that index
    (or the starting value), and none of them is above it. *)
Lemma running_max_from_spec (l : list Q) (m : Q) (j : nat) (r : Q) :
  nth_error (running_max_from m l) j = Some r ->
  m <= r
  /\ (forall i hi, (i <= j)%nat -> nth_error l i = Some hi -> hi <= r)
  /\ (r = m \/ exists i, (i <= j)%nat /\ nth_error l i = Some r).
Proof.
  revert m j. induction l as [|x l IH]; intros m j H.
  - destruct j; discriminate.
  - destruct j as [|j]; cbn [running_max_from nth_error] in H.
    + injection H as <-.
      destruct (py_max_spec m x) as [[A ->]|[A ->]].
      * split; [qlra|]. split.
        -- intros i hi Hi Hn. assert (i = O) by lia. subst i.
           simpl in Hn. injection Hn as <-. qlra.
        -- right. exists O. split; [lia | reflexivity].
      * split; [qlra|]. split.
        -- intros i hi Hi Hn. assert (i = O) by lia. subst i.
           simpl in Hn. injection Hn as <-. exact A.
        -- now left.
    + destruct (IH _ _ H) as (H1 & H2 & H3).
      assert (Hm : m <= py_max m x /\ x <= py_max m x).
      { destruct (py_max_spec m x) as [[A ->]|[A ->]]; split; qlra. }
      destruct Hm as [Hm Hx].
      split; [qlra|]. split.
      * intros i hi Hi Hn. destruct i as [|i]; simpl in Hn.
        -- injection Hn as <-. qlra.
        -- apply (H2 i hi); [lia | exact Hn].
      * destruct H3 as [->|(i & Hi & Hn)].
        -- destruct (py_max_spec m x) as [[A ->]|[A ->]].
           ++ right. exists O. split; [lia | reflexivity].
           ++ now left.
        -- right. exists (S i). split; [lia | exact Hn].
Qed.

Lemma zip_with_nth {A B C} (f : A -> B -> C) (l : list A) (l' : list B)
  (j : nat) (d : C) :
  nth_error (zip_with f l l') j = Some d ->
  exists a b, nth_error l j = Some a /\ nth_error l' j = Some b /\ d = f a b.
Proof.
  revert l' j. induction l as [|x l IH]; intros [|y l'] j H;
    try (destruct j; discriminate).
  destruct j as [|j]; simpl in H.
  - injection H as <-. exists x, y. repeat split.
  - apply IH in H. exact H.
Qed.

Lemma running_max_from_nth (l : list Q) (m : Q) (j : nat) (x : Q) :
  nth_error l j = Some x -> exists r, nth_error (running_max_from m l) j = Some r.
Proof.
  revert m j. induction l as [|y l IH]; intros m j H; [destruct j; discriminate|].
  destruct j as [|j]; simpl in *; [eauto | now apply IH].
Qed.

Lemma zip_with_nth_some {A B C} (f : A -> B -> C) (l : list A) (l' : list B)
  (j : nat) (a : A) (b : B) :
  nth_error l j = Some a -> nth_error l' j = Some b ->
  nth_error (zip_with f l l') j = Some (f a b).
Proof.
  revert l' j. induction l as [|x l IH]; intros [|y l'] j Ha Hb;
    try (destruct j; discriminate).
  destruct j as [|j]; simpl in *; [congruence | now apply IH].
Qed.

Lemma fold_py_min_spec (l : list Q) (x : Q) :
  In (fold_left py_min l x) (x :: l)
  /\ forall y, In y (x :: l) -> fold_left py_min l x <= y.
Proof.
  revert x. induction l as [|z l IH]; intros x; simpl.
  - split; [now left | intros y [<-|[]]; qlra].
  - destruct (IH (py_min x z)) as [Hin Hle].
    assert (Hm : py_min x z <= x /\ py_min x z <= z /\ (py_min x z = x \/ py_min x z = z)).
    { destruct (py_min_spec x z) as [[A ->]|[A ->]]; repeat split; try qlra; auto. }
    destruct Hm as (Hx & Hz & Hor).
    split.
    + destruct Hin as [Hin|Hin]; [|right; now right].
      rewrite <- Hin. destruct Hor as [-> | ->]; [now left | right; now left].
    + intros y [<-|[<-|Hy]].
      * specialize (Hle _ (or_introl eq_refl)). qlra.
      * specialize (Hle _ (or_introl eq_refl)). qlra.
      * apply Hle. now right.
Qed.

(** X25.  The max drawdown that the report shows is never positive; no
    later equity record lies further below an earlier one (or the same one)
    than the drawdown says; and on a curve with a record the drawdown is
    exactly such a fall, from the highest record so far to a later one. *)
Theorem max_drawdown_is_largest_fall (equity_curve : list EquityRecord) :
  let max_dd := (_calculate_max_drawdown equity_curve).1 in
  let equity_series := map e_equity equity_curve in
  max_dd <= 0
  /\ (forall i j hi lo, (i <= j)%nat ->
        nth_error equity_series i = Some hi ->
        nth_error equity_series j = Some lo ->
        max_dd <= lo - hi)
  /\ (equity_curve <> [] ->
      exists i j hi lo, (i <= j)%nat
        /\ nth_error equity_series i = Some hi
        /\ nth_error equity_series j = Some lo
        /\ max_dd = lo - hi).
Proof.
  intros max_dd equity_series.
  destruct equity_curve as [|e0 es].
  { subst max_dd equity_series. cbn [_calculate_max_drawdown fst map].
    split; [qlra|]. split.
    - intros i j hi lo _ Hi. destruct i; discriminate.
    - intros H. now contradiction H. }
  assert (Eq : equity_series = e_equity e0 :: map e_equity es) by reflexivity.
  set (running_max := running_max_from (e_equity e0) equity_series).
  set (drawdown := zip_with Qminus equity_series running_max).
  assert (Em : max_dd = default 0 (series_min drawdown)).
  { subst max_dd drawdown running_max. unfold _calculate_max_drawdown.
    cbn [fst]. fold equity_series. rewrite Eq, expanding_max_from. reflexivity. }
  clearbody max_dd.
  assert (Hbelow : forall i j hi lo d, (i <= j)%nat ->
            nth_error equity_series i = Some hi ->
            nth_error equity_series j = Some lo ->
            nth_error drawdown j = Some d -> d <= lo - hi).
  { intros i j hi lo d Hij Hi Hj Hd.
    apply zip_with_nth in Hd as (a & r & Ha & Hr & ->).
    rewrite Hj in Ha. injection Ha as <-.
    destruct (running_max_from_spec _ _ _ _ Hr) as (_ & H2 & _).
    specialize (H2 i hi Hij Hi). qlra. }
  assert (Hfall : forall j d, nth_error drawdown j = Some d ->
            exists i hi lo, (i <= j)%nat
              /\ nth_error equity_series i = Some hi
              /\ nth_error equity_series j = Some lo /\ d = lo - hi).
  { intros j d Hd.
    apply zip_with_nth in Hd as (lo & r & Ha & Hr & ->).
    destruct (running_max_from_spec _ _ _ _ Hr) as (_ & _ & [->|(i & Hi & Hn)]).
    - exists O, (e_equity e0), lo. repeat split; try lia; try assumption.
    - exists i, r, lo. repeat split; assumption. }
  assert (Hat : forall j lo, nth_error equity_series j = Some lo ->
            exists d, nth_error drawdown j = Some d).
  { intros j lo Hj.
    destruct (running_max_from_nth equity_series (e_equity e0) j lo Hj) as [r Hr].
    exists (lo - r). apply zip_with_nth_some; assumption. }
  destruct drawdown as [|d0 ds] eqn:Ed.
  { exfalso. destruct (Hat O (e_equity e0) eq_refl) as [d Hd]. discriminate. }
  cbn [series_min default from_option] in Em. unfold Datatypes.id in Em.
  destruct (fold_py_min_spec ds d0) as [Hin Hmin].
  rewrite <- Em in Hin, Hmin.
  split; [|split].
  - destruct (Hat O (e_equity e0) eq_refl) as [d Hd].
    pose proof (Hbelow O O (e_equity e0) (e_equity e0) d (Nat.le_refl _)
                  eq_refl eq_refl Hd) as Hle.
    apply nth_error_In in Hd. specialize (Hmin d Hd). qlra.
  - intros i j hi lo Hij Hi Hj.
    destruct (Hat j lo Hj) as [d Hd].
    pose proof (Hbelow i j hi lo d Hij Hi Hj Hd) as Hle.
    apply nth_error_In in Hd. specialize (Hmin d Hd). qlra.
  - intros _. apply In_nth_error in Hin as [j Hj].
    destruct (Hfall j max_dd Hj) as (i & hi & lo & Hij & Hi & Hlo & E).
    exists i, j, hi, lo. repeat split; assumption.
Qed.

(** A percentage between -100, excluded, and 0. *)
Definition partial_loss (x : Number) : Prop :=
  exists q, x = finite q /\ - (100) < q /\ q <= 0.

Lemma min_skipna_partial_loss (l : list Number) :
  l <> [] -> Forall partial_loss l -> partial_loss (min_skipna l).
Proof.
  intros Hne Hall. unfold min_skipna.
  destruct l as [|x l]; [congruence|].
  apply List.Forall_cons_iff in Hall as [Hx Hall].
  cbn [fold_left].
  assert (Hstart : partial_loss (match x with nan => nan | _ => x end)).
  { destruct Hx as (q & -> & Hq). unfold partial_loss. exists q.
    split; [reflexivity | exact Hq]. }
  revert Hstart. generalize (match x with nan => nan | _ => x end).
  clear Hne Hx.
  induction Hall as [|y l Hy Hall IH]; intros acc Hacc; cbn [fold_left]; [exact Hacc|].
  apply IH.
  destruct Hy as (q & -> & Hq). destruct Hacc as (a & -> & Ha).
  cbn [number_lt]. unfold partial_loss.
  destruct (Qlt_bool q a); [exists q | exists a]; split; auto.
Qed.

(** X26.  When every recorded equity is positive, the max drawdown percent
    of a curve with a record is a finite number above -100 and at most 0. *)
Theorem max_drawdown_pct_is_partial (equity_curve : list EquityRecord) :
  equity_curve <> [] ->
  Forall (fun e => 0 < e_equity e) equity_curve ->
  partial_loss (_calculate_max_drawdown equity_curve).2.
Proof.
  intros Hne Hpos. unfold _calculate_max_drawdown.
  destruct equity_curve as [|e0 es]; [congruence|].
  cbn [snd]. set (equity_series := map e_equity (e0 :: es)).
  assert (Eq : equity_series = e_equity e0 :: map e_equity es) by reflexivity.
  assert (H0 : 0 < e_equity e0) by (now apply List.Forall_cons_iff in Hpos as [H _]).
  assert (Hall : forall j lo, nth_error equity_series j = Some lo -> 0 < lo).
  { intros j lo Hj. apply nth_error_In in Hj.
    apply List.in_map_iff in Hj as (e & <- & He).
    rewrite List.Forall_forall in Hpos. now apply Hpos. }
  assert (Eexp : expanding_max equity_series
                 = running_max_from (e_equity e0) equity_series)
    by (rewrite Eq; apply expanding_max_from).
  rewrite !Eexp.
  set (running_max := running_max_from (e_equity e0) equity_series).
  apply min_skipna_partial_loss.
  - rewrite Eq. subst running_max. rewrite Eq. simpl. discriminate.
  - apply List.Forall_forall. intros x Hx.
    apply In_nth_error in Hx as [j Hj].
    apply zip_with_nth in Hj as (d & r & Hd & Hr & ->).
    apply zip_with_nth in Hd as (lo & r' & Hlo & Hr' & ->).
    rewrite Hr in Hr'. injection Hr' as <-.
    destruct (running_max_from_spec _ _ _ _ Hr) as (H1 & H2 & _).
    specialize (H2 j lo (Nat.le_refl _) Hlo).
    pose proof (Hall j lo Hlo) as Hlo0.
    assert (Hr0 : 0 < r) by qlra.
    unfold divide.
    destruct (Qeq_bool r 0) eqn:Ez.
    { apply Qeq_bool_iff in Ez. qlra. }
    cbn [times]. unfold partial_loss. exists ((lo - r) / r * 100).
    split; [reflexivity|].
    assert (Hup : (lo - r) / r <= 0) by (apply Qle_shift_div_r; [exact Hr0 | qlra]).
    assert (Hdn : - (1) < (lo - r) / r) by (apply Qlt_shift_div_l; [exact Hr0 | qlra]).
    revert Hup Hdn. generalize ((lo - r) / r). intros q Hup Hdn. split; qlra.
Qed.

(** A curve that rises from 100,000 to 100,400 and falls back to 100,150. *)
Definition sample_curve : list EquityRecord :=
  [ mkEquityRecord 0 100000 90200 1 0;
    mkEquityRecord 1 100400 90200 1 0;
    mkEquityRecord 2 100150 100000 0 1 ].

Lemma max_drawdown_pct_is_partial_witness :
  partial_loss (_calculate_max_drawdown sample_curve).2.
Proof.
  apply (max_drawdown_pct_is_partial sample_curve).
  - discriminate.
  - repeat constructor.
Defined.

End Drawdown.

(* ===================================================================== *)
(** * The candidates the collection step builds from the Iron Condor scan *)
(* ===================================================================== *)

(** The body of the innermost loop of [_find_multi_ticker_opportunities]
    (backtester_multi.py, lines 980 to 1027) for a row of
    [IronCondor.scan]: the position of [construct_position], the ticker,
    entry date and adaptive targets that the loop then sets, the quality
    score, and the candidate. *)

Module EngineCandidates.

Import Engine IronCondorScan.

(** [StrategyBase.calculate_greeks] on the legs of an Iron Condor, which
    carry a delta and no other greek: the net delta.  Gamma, theta and vega
    stay at 0.0. *)
Definition net_delta_of (ls : list Leg) : Q :=
  fold_left
    (fun total leg =>
       let multiplier := match leg_position leg with long => 1 | short => - (1) end in
       total + leg_delta leg * multiplier * 1 * 100)
    ls 0.

(** The position that [construct_position] returns for the row [c] with the
    legs [ls], once the loop has set its ticker, its entry date and its
    adaptive profit target and stop loss.  The scan row has no [ticker], so
    [underlying] is 'UNKNOWN'; [u] is the underlying price of
    [market_data]. *)
Definition position_of_row (t : string) (d : Z) (u : Q) (c : Condor)
  (ls : list Leg) : Position :=
  mkPosition "Iron Condor" d (expiration c) (dte c) "UNKNOWN" u ls
    (total_credit c * 100) (max_risk_ c)
    (net_delta_of ls) 0 0 0
    (AdaptiveConfig.get_profit_target AdaptiveConfig.init_cache t (total_credit c * 100))
    (AdaptiveConfig.get_stop_loss AdaptiveConfig.init_cache t (max_risk_ c))
    None t open None None None.

(** The candidate appended for the row: none when the scorer raises. *)
Definition candidate_of_row (t : string) (d : Z) (u : Q) (c : Condor)
  (ls : list Leg) : option OpportunityCandidate :=
  let position := position_of_row t d u c ls in
  match Scorer.calculate_quality_score Scorer.no_liquidity_columns position
          Scorer.engine_market_data with
  | Some (quality_score, _) =>
      Some (mkOpportunityCandidate t "iron_condor" position quality_score)
  | None => None
  end.

(** ** The admission rule in the words of the specification

    "available capital is at least its max_risk; each admission immediately
    deducts max_risk from available capital". *)

Definition enter_as_worded (st : State) (c : OpportunityCandidate) : State :=
  mkState (capital st - max_risk (c_position c))
          (positions st ++ [c_position c])
          (closed_positions st)
          (valorization_attempts st) (valorization_failures st)
          (bsm_fallback_used st).

Definition admissible_as_worded (cfg : BacktestConfig) (st : State)
  (c : OpportunityCandidate) : bool :=
  negb (global_cap_reached cfg st)
  && negb (ticker_cap_reached cfg st c)
  && Qle_bool (max_risk (c_position c)) (capital st).

Fixpoint greedy_as_worded (cfg : BacktestConfig) (ranked : list OpportunityCandidate)
  (st : State) : State :=
  match ranked with
  | [] => st
  | c :: rest =>
      if admissible_as_worded cfg st c
      then greedy_as_worded cfg rest (enter_as_worded st c)
      else greedy_as_worded cfg rest st
  end.

(** ** A condor whose credit exceeds its width

    Quoted on day 0 for the expiration of day 45: a call 100 at the money,
    and a put 95 and a call 105 at 3.50 each against a put 90 and a call 110
    at 0.10 each.  The scan has a credit floor and no ceiling: it returns
    the condor, with a credit of 6.80 on a width of 5 and so a max risk of
    (5 - 6.80) * 100 = -180. *)
Definition rich_credit_chain : list OptionRow :=
  [ chain_row call 100 45 (50 # 100) (600 # 100);
    chain_row put 95 45 (20 # 100) (350 # 100);
    chain_row put 90 45 (8 # 100) (10 # 100);
    chain_row call 105 45 (20 # 100) (350 # 100);
    chain_row call 110 45 (8 # 100) (10 # 100) ].

(** The same strikes with the short legs at 28.05 and the long legs at
    0.05: a credit of 56 and a max risk of (5 - 56) * 100 = -5100. *)
Definition richer_credit_chain : list OptionRow :=
  [ chain_row call 100 45 (50 # 100) (3000 # 100);
    chain_row put 95 45 (20 # 100) (2805 # 100);
    chain_row put 90 45 (8 # 100) (5 # 100);
    chain_row call 105 45 (20 # 100) (2805 # 100);
    chain_row call 110 45 (8 # 100) (5 # 100) ].

(** An account of 5,050: the collection step scans while the cash is 5,000
    or more. *)
Definition tight_cfg : BacktestConfig := mkBacktestConfig 5050 5 2.

(** C2 fails as stated.  On the first chain the engine estimates the
    underlying at 100, the scan returns one condor with a max risk of -180,
    and the collection step makes a candidate of it.  The selection admits
    it and takes 180 from the cash, which falls from 100,000 to 99,820: the
    reserve is [abs(max_risk)].  Deducting [max_risk], as the claim has it,
    would raise the cash to 100,180.  On the second chain the max risk is
    -5100; with 5,050 of cash the candidate is collected and then refused,
    since 5,050 < 5,100, where "capital is at least max_risk" would admit
    it. *)
Lemma reserve_is_not_max_risk :
  (exists c ls cand,
     MarketData.get_underlying_price (fun _ => rich_credit_chain) "SPY" 0 = Some 100
     /\ scan engine_iron_condor rich_credit_chain context_70 = [c]
     /\ IronCondorExpiry.construct_legs c = Some ls
     /\ candidate_of_row "SPY" 0 100 c ls = Some cand
     /\ max_risk (c_position cand) == - (180)
     /\ positions (_find_multi_ticker_opportunities demo_cfg (fun _ _ => [cand])
                     (initial_state demo_cfg) 0) = [c_position cand]
     /\ capital (_find_multi_ticker_opportunities demo_cfg (fun _ _ => [cand])
                   (initial_state demo_cfg) 0) == 99820
     /\ capital (greedy_as_worded demo_cfg (sort_by_score [cand])
                   (initial_state demo_cfg)) == 100180)
  /\ (exists c ls cand,
       MarketData.get_underlying_price (fun _ => richer_credit_chain) "SPY" 0 = Some 100
       /\ scan engine_iron_condor richer_credit_chain context_70 = [c]
       /\ IronCondorExpiry.construct_legs c = Some ls
       /\ candidate_of_row "SPY" 0 100 c ls = Some cand
       /\ max_risk (c_position cand) == - (5100)
       /\ positions (_find_multi_ticker_opportunities tight_cfg (fun _ _ => [cand])
                       (initial_state tight_cfg) 0) = []
       /\ positions (greedy_as_worded tight_cfg (sort_by_score [cand])
                       (initial_state tight_cfg)) = [c_position cand]).
Proof.
  split.
  - do 3 eexists.
    split; [vm_compute; reflexivity|].
    split; [vm_compute; reflexivity|].
    split; [vm_compute; reflexivity|].
    split; [vm_compute; reflexivity|].
    repeat split; vm_compute; reflexivity.
  - do 3 eexists.
    split; [vm_compute; reflexivity|].
    split; [vm_compute; reflexivity|].
    split; [vm_compute; reflexivity|].
    split; [vm_compute; reflexivity|].
    repeat split; vm_compute; reflexivity.
Qed.



End EngineCandidates.
